(** * Streaming metrics of [tensorflow/contrib/metrics/python/ops/metric_ops.py]

    A shallow embedding of the metric constructors of [metric_ops.py] and the
    properties of their [(value_tensor, update_op)] pairs.

    Modelling conventions.
    - Floating point numbers are idealised as exact rationals ([Qc]).
    - A tensor carries its run-time dimensions, its elements in row-major
      order, and a flag telling whether its static shape is known (the model
      has fully defined static shapes or shapes of unknown rank, nothing in
      between).
    - A graph operation is a deferred computation over the local variables
      (a state and failure monad): building an operation has no effect, only
      running it has.  Python statements that build operations are
      [let]-bindings; an operation whose result the Python code drops is a
      binding that nothing uses.
    - A constructor returns [ValueError] where the Python code raises at
      graph-construction time through an explicit shape check.
    - Operations that no data or control edge orders run in the order the
      runtime chooses; the choice is a parameter of the runtime. *)

From Stdlib Require Import QArith Qround Qcanon List Lia Bool ZArith.
Import ListNotations.

Local Open Scope Qc_scope.

(** ** Scalars *)

Definition Qc_of_Z (z : Z) : Qc := Q2Qc (inject_Z z).

(** [math_ops.greater] on scalars. *)
Definition greater (x y : Qc) : bool := negb (Qle_bool x y).

(** [math_ops.less] on scalars. *)
Definition less (x y : Qc) : bool := greater y x.

Definition Qc_eqb (x y : Qc) : bool := Qeq_bool x y.

Definition Qc_abs (x : Qc) : Qc := if Qle_bool 0 x then x else - x.

(** [math_ops.select] on one element: both branches are already computed. *)
Definition select1 {A : Type} (c : bool) (t e : A) : A := if c then t else e.

(** Element types that [math_ops.to_float] accepts. *)
Class ToFloat (A : Type) := to_float1 : A -> Qc.

#[global] Instance ToFloat_Qc : ToFloat Qc := fun x => x.
#[global] Instance ToFloat_Z : ToFloat Z := Qc_of_Z.
#[global] Instance ToFloat_bool : ToFloat bool :=
  fun b => if b then Q2Qc 1 else Q2Qc 0.

(** Numeric element types: [math_ops.equal] and the conversion of a Python
    integer constant to the element type. *)
Class Numeric (A : Type) := {
  equal1 : A -> A -> bool;
  of_int : Z -> A
}.

#[global] Instance Numeric_Z : Numeric Z :=
  {| equal1 := Z.eqb; of_int := fun z => z |}.
#[global] Instance Numeric_Qc : Numeric Qc :=
  {| equal1 := Qc_eqb; of_int := Qc_of_Z |}.

(** ** Shapes and tensors *)

(** A static shape: [None] is a shape of unknown rank. *)
Definition TensorShape := option (list nat).

Definition ndims (s : TensorShape) : option nat :=
  match s with Some ds => Some (length ds) | None => None end.

Fixpoint dims_eqb (a b : list nat) : bool :=
  match a, b with
  | [], [] => true
  | x :: a', y :: b' => Nat.eqb x y && dims_eqb a' b'
  | _, _ => false
  end.

(** [TensorShape.is_compatible_with]: an unknown shape is compatible with
    every shape. *)
Definition is_compatible_with (a b : TensorShape) : bool :=
  match a, b with
  | Some x, Some y => dims_eqb x y
  | _, _ => true
  end.

Record Tensor (A : Type) := mkTensor {
  shape_known : bool;
  dims : list nat;
  elems : list A
}.
Arguments mkTensor {A} _ _ _.
Arguments shape_known {A} _.
Arguments dims {A} _.
Arguments elems {A} _.

(** A tensor of the graph: [Value t] evaluates to [t]; [Invalid] is a tensor
    whose evaluation raises in the array runtime (an element-wise operation
    on operands of unequal shapes). *)
Inductive Node (A : Type) : Type :=
| Value : Tensor A -> Node A
| Invalid : Node A.
Arguments Value {A} _.
Arguments Invalid {A}.

Definition get_shape {A} (n : Node A) : TensorShape :=
  match n with
  | Value t => if shape_known t then Some (dims t) else None
  | Invalid => None
  end.

(** A rank-1 tensor with a known shape. *)
Definition vector {A} (l : list A) : Node A := Value (mkTensor true [length l] l).

(** Results of graph construction: the constructor returns, or raises one
    of the Python exceptions. *)
Inductive result (A : Type) : Type :=
| Ok : A -> result A
| ValueError : result A
| IndexError : result A
| AssertionError : result A.
Arguments Ok {A} _.
Arguments ValueError {A}.
Arguments IndexError {A}.
Arguments AssertionError {A}.

Definition rbind {A B} (r : result A) (f : A -> result B) : result B :=
  match r with
  | Ok a => f a
  | ValueError => ValueError
  | IndexError => IndexError
  | AssertionError => AssertionError
  end.

(** Modelled from the spec: [array_ops.squeeze(t, [-1])] of the array
    runtime.  The squeeze rule of the spec drops a trailing dimension of size
    one; a trailing dimension of another size is a shape mismatch, which is a
    failure at construction time. *)
Definition squeeze_last {A} (n : Node A) : result (Node A) :=
  match n with
  | Value t =>
      match rev (dims t) with
      | 1%nat :: ds => Ok (Value (mkTensor (shape_known t) (rev ds) (elems t)))
      | _ => ValueError
      end
  | Invalid => Ok Invalid
  end.

Definition map_node {A B} (f : A -> B) (n : Node A) : Node B :=
  match n with
  | Value t => Value (mkTensor (shape_known t) (dims t) (map f (elems t)))
  | Invalid => Invalid
  end.

Definition map2 {A B C} (f : A -> B -> C) (xs : list A) (ys : list B) : list C :=
  map (fun p => f (fst p) (snd p)) (combine xs ys).

Definition same_shape {A B} (a : Tensor A) (b : Tensor B) : bool :=
  dims_eqb (dims a) (dims b) && Nat.eqb (length (elems a)) (length (elems b)).

(** Modelled from the spec: the element-wise binary operations of the array
    runtime, on two tensors of one shape.  The broadcasting of unequal shapes
    is outside the model: such an operation is [Invalid]. *)
Definition zip_node {A B C} (f : A -> B -> C) (a : Node A) (b : Node B) : Node C :=
  match a, b with
  | Value x, Value y =>
      if same_shape x y
      then Value (mkTensor (shape_known x && shape_known y) (dims x)
                    (map2 f (elems x) (elems y)))
      else Invalid
  | _, _ => Invalid
  end.

(** Modelled from the spec: [math_ops.select(cond, t, e)] of the array
    runtime, on tensors of one shape. *)
Definition select {A} (c : Node bool) (t e : Node A) : Node A :=
  zip_node (fun b p => select1 b (fst p) (snd p)) c (zip_node pair t e).

Definition zeros_like {A B} (zero : B) (n : Node A) : Node B := map_node (fun _ => zero) n.

Definition to_float {A} `{ToFloat A} (n : Node A) : Node Qc := map_node to_float1 n.

(** [math_ops.equal(t, c)] against a Python integer constant. *)
Definition equal_const {A} `{Numeric A} (n : Node A) (c : Z) : Node bool :=
  map_node (fun x => equal1 x (of_int c)) n.

(** [math_ops.equal] on two tensors. *)
Definition equal {A} `{Numeric A} (a b : Node A) : Node bool := zip_node equal1 a b.

Definition logical_and (a b : Node bool) : Node bool := zip_node andb a b.

Definition logical_not (a : Node bool) : Node bool := map_node negb a.

Definition mul (a b : Node Qc) : Node Qc := zip_node Qcmult a b.

Definition sub (a b : Node Qc) : Node Qc := zip_node Qcminus a b.

Definition sum_list (l : list Qc) : Qc := fold_right Qcplus (Q2Qc 0) l.

(** Modelled from the spec: [math_ops.reduce_sum] over all axes, the
    reduction sum of the array runtime: a scalar, when the operand has a
    value. *)
Definition reduce_sum (n : Node Qc) : option Qc :=
  match n with Value t => Some (sum_list (elems t)) | Invalid => None end.

(** [math_ops.to_float(array_ops.size(t))]. *)
Definition size_float {A} (n : Node A) : option Qc :=
  match n with
  | Value t => Some (Qc_of_Z (Z.of_nat (length (elems t))))
  | Invalid => None
  end.

(** ** Graph operations over local variables *)

(** An operation run on the variables [S]: it fails ([None]) or returns a
    result and the new variables. *)
Definition Op (S A : Type) : Type := S -> option (A * S).

Definition ret {S A} (a : A) : Op S A := fun s => Some (a, s).

Definition bind {S A B} (m : Op S A) (f : A -> Op S B) : Op S B :=
  fun s => match m s with
           | Some (a, s') => f a s'
           | None => None
           end.

Notation "x <- m ;; k" := (bind m (fun x => k))
  (at level 61, m at next level, right associativity).

(** Running a tensor that does not read variables. *)
Definition eval {S A} (o : option A) : Op S A :=
  fun s => match o with Some a => Some (a, s) | None => None end.

(** A local variable of the graph, as the way to read and write it. *)
Record Var (S A : Type) := mkVar {
  var_get : S -> A;
  var_set : A -> S -> S
}.
Arguments mkVar {S A} _ _.
Arguments var_get {S A} _ _.
Arguments var_set {S A} _ _ _.

(** Modelled from the spec: the read of the accumulator store, a snapshot
    that does not mutate ([array_ops.identity] of a variable included). *)
Definition read {S A} (v : Var S A) : Op S A := fun s => Some (var_get v s, s).

(** Modelled from the spec: [state_ops.assign_add] on a scalar variable, the
    increment of the accumulator store, which returns the new value. *)
Definition assign_add {S} (v : Var S Qc) (delta : Qc) : Op S Qc :=
  fun s => let x := var_get v s + delta in Some (x, var_set v x s).

(** An operation of a sub-scope, run on the variables of that scope. *)
Definition scoped {S T A} (v : Var S T) (m : Op T A) : Op S A :=
  fun s => match m (var_get v s) with
           | Some (a, t) => Some (a, var_set v t s)
           | None => None
           end.

(** Modelled from the spec: [with ops.control_dependencies(deps): body] of
    the graph runtime.  The update performs the increments, then evaluates
    the finalization formula: the operations of [deps] have run when [body]
    is evaluated, and [body] reads the variables as they are then.  This
    orders the operations that are built inside the block; a tensor built
    before the block and used inside it is not ordered by it. *)
Fixpoint control_dependencies {S D A} (deps : list (Op S D)) (body : Op S A) : Op S A :=
  match deps with
  | [] => body
  | d :: ds => _ <- d ;; control_dependencies ds body
  end.

(** What a metric constructor returns, with the initial value of the local
    variables it created ([tf.initialize_local_variables]). *)
Record Metric (S : Type) := mkMetric {
  init_state : S;
  value_tensor : Op S Qc;
  update_op : Op S Qc
}.
Arguments mkMetric {S} _ _ _.
Arguments init_state {S} _.
Arguments value_tensor {S} _.
Arguments update_op {S} _.

(** [array_ops.zeros(shape)], flattened. *)
Definition zeros (shape : list nat) : list Qc :=
  repeat (Q2Qc 0) (fold_right Nat.mul 1%nat shape).

(** [_create_local]: the initial value of the new local variable. *)
Definition _create_local (shape : list nat) : list Qc := zeros shape.

(** The value of a variable of shape [[]]. *)
Definition scalar (l : list Qc) : Qc := hd (Q2Qc 0) l.

(** ** Helpers of the module *)

Definition _mask_to_weights (mask : option (Node bool)) : option (Node bool) :=
  match mask with
  | Some m => Some (logical_not m)
  | None => None
  end.

Definition _remove_squeezable_dimensions {A B} (predictions : Node A) (labels : Node B)
  : result (Node A * Node B) :=
  let predictions_rank := ndims (get_shape predictions) in
  let labels_rank := ndims (get_shape labels) in
  match labels_rank, predictions_rank with
  | Some lr, Some pr =>
      if Nat.eqb lr (pr + 1) then
        rbind (squeeze_last labels) (fun labels => Ok (predictions, labels))
      else if Nat.eqb pr (lr + 1) then
        rbind (squeeze_last predictions) (fun predictions => Ok (predictions, labels))
      else Ok (predictions, labels)
  | _, _ => Ok (predictions, labels)
  end.

(** The variable of a scope that holds one scalar. *)
Definition the_count : Var Qc Qc := mkVar (fun c => c) (fun x _ => x).

Definition _count_condition (values : Node bool) (ignore_mask : option (Node bool))
  : result (Metric Qc) :=
  let count := scalar (_create_local []) in
  rbind
    (match ignore_mask with
     | Some m =>
         if is_compatible_with (get_shape values) (get_shape m)
         then Ok (select m (zeros_like false values) values)
         else ValueError
     | None => Ok values
     end) (fun values =>
  let values := to_float values in
  let value_tensor := read the_count in
  let update_op := x <- eval (reduce_sum values) ;; assign_add the_count x in
  Ok (mkMetric count value_tensor update_op)).

Section Confusion.
Context {A : Type} `{Numeric A}.

Definition _streaming_true_positives (predictions labels : Node A)
    (ignore_mask : option (Node bool)) : result (Metric Qc) :=
  if is_compatible_with (get_shape predictions) (get_shape labels) then
    let is_true_positive :=
      logical_and (equal_const labels 1) (equal_const predictions 1) in
    _count_condition is_true_positive ignore_mask
  else ValueError.

Definition _streaming_false_positives (predictions labels : Node A)
    (ignore_mask : option (Node bool)) : result (Metric Qc) :=
  if is_compatible_with (get_shape predictions) (get_shape labels) then
    let is_false_positive :=
      logical_and (equal_const labels 0) (equal_const predictions 1) in
    _count_condition is_false_positive ignore_mask
  else ValueError.

Definition _streaming_false_negatives (predictions labels : Node A)
    (ignore_mask : option (Node bool)) : result (Metric Qc) :=
  if is_compatible_with (get_shape predictions) (get_shape labels) then
    let is_false_negative :=
      logical_and (equal_const labels 1) (equal_const predictions 0) in
    _count_condition is_false_negative ignore_mask
  else ValueError.
End Confusion.

(** ** Reductions along one axis *)

(** [k] consecutive chunks of [n] elements. *)
Fixpoint chunks {A} (n k : nat) (l : list A) : list (list A) :=
  match k with
  | O => []
  | S k' => firstn n l :: chunks n k' (skipn n l)
  end.

Definition prod_dims (ds : list nat) : nat := fold_right Nat.mul 1%nat ds.

Definition sum_rows (inner : nat) (rows : list (list Qc)) : list Qc :=
  fold_right (map2 Qcplus) (repeat (Q2Qc 0) inner) rows.

(** Modelled from the spec: [math_ops.reduce_sum(t, axis, keep_dims)] of the
    array runtime, the reduction sum over one axis of a row-major tensor. *)
Definition reduce_sum_axis (axis : nat) (keep_dims : bool) (n : Node Qc) : Node Qc :=
  match n with
  | Value t =>
      if Nat.ltb axis (length (dims t)) then
        let outer := prod_dims (firstn axis (dims t)) in
        let d := nth axis (dims t) O in
        let inner := prod_dims (skipn (S axis) (dims t)) in
        Value (mkTensor (shape_known t)
                 (firstn axis (dims t) ++ (if keep_dims then [1%nat] else [])
                    ++ skipn (S axis) (dims t))
                 (flat_map (fun block => sum_rows inner (chunks inner d block))
                    (chunks (d * inner) outer (elems t))))
      else Invalid
  | Invalid => Invalid
  end.

(** ** The metrics *)

Record MeanVars := mkMeanVars { total : Qc; count : Qc }.

Definition total_var : Var MeanVars Qc :=
  mkVar total (fun x s => mkMeanVars x (count s)).
Definition count_var : Var MeanVars Qc :=
  mkVar count (fun x s => mkMeanVars (total s) x).

Record PrecisionVars := mkPrecisionVars {
  precision_true_positives : Qc;
  precision_false_positives : Qc
}.

Definition precision_tp : Var PrecisionVars Qc :=
  mkVar precision_true_positives
        (fun x s => mkPrecisionVars x (precision_false_positives s)).
Definition precision_fp : Var PrecisionVars Qc :=
  mkVar precision_false_positives
        (fun x s => mkPrecisionVars (precision_true_positives s) x).

Record RecallVars := mkRecallVars {
  recall_true_positives : Qc;
  recall_false_negatives : Qc
}.

Definition recall_tp : Var RecallVars Qc :=
  mkVar recall_true_positives
        (fun x s => mkRecallVars x (recall_false_negatives s)).
Definition recall_fn : Var RecallVars Qc :=
  mkVar recall_false_negatives
        (fun x s => mkRecallVars (recall_true_positives s) x).

(** The places where the two rate tensors of [streaming_auc] read an
    accumulator: [false_positives] as the dividend of the false positive
    rate and in the sum of its divisor, [true_negatives] in that sum, and
    [true_positives] and [false_negatives] likewise in the recall. *)
Inductive RateRead : Type :=
| FalsePositivesDividend
| FalsePositivesAddend
| TrueNegativesAddend
| TruePositivesDividend
| TruePositivesAddend
| FalseNegativesAddend.

(** The array runtime is a parameter where the exact rationals have no
    counterpart: what a floating point division by zero yields (an infinity
    or a NaN, never an error), the square root, which is exact at zero, and
    [nn.in_top_k].

    Modelled from the spec: an operation reads a variable when it runs, and
    the graph runtime runs two operations that no data or control edge
    orders in the order it chooses.  [reads_increment] is that choice where
    it shows in the module, at the operations of the two rate tensors that
    [streaming_auc] builds outside its [control_dependencies] block:
    whether the read at that place finds the increment of the same run
    done.  A read takes the whole vector. *)
Class Runtime := {
  div_by_zero : Qc -> Qc;
  sqrt : Qc -> Qc;
  sqrt_zero : sqrt (Q2Qc 0) = Q2Qc 0;
  in_top_k : Node Qc -> Node Z -> nat -> Node bool;
  reads_increment : RateRead -> bool
}.

Section Metrics.

Context {rt : Runtime}.

(** [math_ops.div] on scalars. *)
Definition tf_div (x y : Qc) : Qc :=
  if Qc_eqb y (Q2Qc 0) then div_by_zero x else x / y.

Definition div (a b : Node Qc) : Node Qc := zip_node tf_div a b.

Definition compute_mean {S} (total count : Var S Qc) : Op S Qc :=
  c <- read count ;;
  t <- read total ;;
  ret (select1 (greater c (Q2Qc 0)) (tf_div t c) (Q2Qc 0)).

Definition streaming_mean {A W} `{ToFloat A} `{ToFloat W}
    (values : Node A) (weights : option (Node W)) : result (Metric MeanVars) :=
  let values := to_float values in
  let total := scalar (_create_local []) in
  let count := scalar (_create_local []) in
  rbind
    (match weights with
     | Some weights =>
         if is_compatible_with (get_shape values) (get_shape weights) then
           let weights := to_float weights in
           let values := mul values weights in
           let num_values := reduce_sum weights in
           Ok (values, num_values)
         else ValueError
     | None => Ok (values, size_float values)
     end) (fun vn =>
  let values := fst vn in
  let num_values := snd vn in
  let total_compute_op := x <- eval (reduce_sum values) ;; assign_add total_var x in
  let count_compute_op := n <- eval num_values ;; assign_add count_var n in
  let mean := compute_mean total_var count_var in
  let update_op :=
    control_dependencies [total_compute_op; count_compute_op]
      (compute_mean total_var count_var) in
  Ok (mkMetric (mkMeanVars total count) mean update_op)).

Definition streaming_accuracy {A W} `{Numeric A} `{ToFloat W}
    (predictions labels : Node A) (weights : option (Node W))
  : result (Metric MeanVars) :=
  rbind (_remove_squeezable_dimensions predictions labels) (fun pl =>
  let predictions := fst pl in
  let labels := snd pl in
  if is_compatible_with (get_shape predictions) (get_shape labels) then
    let is_correct := to_float (equal predictions labels) in
    streaming_mean is_correct weights
  else ValueError).

Definition streaming_precision {A} `{Numeric A}
    (predictions labels : Node A) (ignore_mask : option (Node bool))
  : result (Metric PrecisionVars) :=
  rbind (_remove_squeezable_dimensions predictions labels) (fun pl =>
  let predictions := fst pl in
  let labels := snd pl in
  if is_compatible_with (get_shape predictions) (get_shape labels) then
    rbind (_streaming_true_positives predictions labels ignore_mask) (fun tp =>
    rbind (_streaming_false_positives predictions labels ignore_mask) (fun fp =>
    let true_positives := scoped precision_tp (value_tensor tp) in
    let true_positives_update_op := scoped precision_tp (update_op tp) in
    let false_positives := scoped precision_fp (value_tensor fp) in
    let false_positives_update_op := scoped precision_fp (update_op fp) in
    let compute_precision :=
      tp <- true_positives ;;
      fp <- false_positives ;;
      ret (select1 (greater (tp + fp) (Q2Qc 0)) (tf_div tp (tp + fp)) (Q2Qc 0)) in
    let precision := compute_precision in
    let update_op :=
      control_dependencies [true_positives_update_op; false_positives_update_op]
        compute_precision in
    Ok (mkMetric (mkPrecisionVars (init_state tp) (init_state fp))
          precision update_op)))
  else ValueError).

Definition streaming_recall {A} `{Numeric A}
    (predictions labels : Node A) (ignore_mask : option (Node bool))
  : result (Metric RecallVars) :=
  rbind (_remove_squeezable_dimensions predictions labels) (fun pl =>
  let predictions := fst pl in
  let labels := snd pl in
  if is_compatible_with (get_shape predictions) (get_shape labels) then
    rbind (_streaming_true_positives predictions labels ignore_mask) (fun tp =>
    rbind (_streaming_false_negatives predictions labels ignore_mask) (fun fn =>
    let true_positives := scoped recall_tp (value_tensor tp) in
    let true_positives_update_op := scoped recall_tp (update_op tp) in
    let false_negatives := scoped recall_fn (value_tensor fn) in
    let false_negatives_update_op := scoped recall_fn (update_op fn) in
    let compute_recall (true_positives false_negatives : Op RecallVars Qc) :=
      tp <- true_positives ;;
      fn <- false_negatives ;;
      ret (select1 (greater (tp + fn) (Q2Qc 0)) (tf_div tp (tp + fn)) (Q2Qc 0)) in
    let recall := compute_recall true_positives false_negatives in
    let update_op :=
      control_dependencies [true_positives_update_op; false_negatives_update_op]
        (compute_recall true_positives false_negatives) in
    Ok (mkMetric (mkRecallVars (init_state tp) (init_state fn))
          recall update_op)))
  else ValueError).

Definition streaming_recall_at_k (predictions : Node Qc) (labels : Node Z) (k : nat)
    (ignore_mask : option (Node bool)) : result (Metric MeanVars) :=
  let in_top_k := to_float (in_top_k predictions labels k) in
  streaming_mean in_top_k (_mask_to_weights ignore_mask).

Definition streaming_mean_absolute_error {W} `{ToFloat W}
    (predictions labels : Node Qc) (weights : option (Node W))
  : result (Metric MeanVars) :=
  rbind (_remove_squeezable_dimensions predictions labels) (fun pl =>
  let predictions := fst pl in
  let labels := snd pl in
  if is_compatible_with (get_shape predictions) (get_shape labels) then
    let absolute_errors := map_node Qc_abs (sub predictions labels) in
    streaming_mean absolute_errors weights
  else ValueError).

Definition streaming_mean_relative_error {W} `{ToFloat W}
    (predictions labels normalizer : Node Qc) (weights : option (Node W))
  : result (Metric MeanVars) :=
  rbind (_remove_squeezable_dimensions predictions labels) (fun pl =>
  let predictions := fst pl in
  let labels := snd pl in
  if is_compatible_with (get_shape predictions) (get_shape labels) then
    rbind (_remove_squeezable_dimensions predictions normalizer) (fun pn =>
    let predictions := fst pn in
    let normalizer := snd pn in
    if is_compatible_with (get_shape predictions) (get_shape normalizer) then
      let relative_errors :=
        div (map_node Qc_abs (sub labels predictions)) normalizer in
      streaming_mean relative_errors weights
    else ValueError)
  else ValueError).

Definition streaming_mean_squared_error {W} `{ToFloat W}
    (predictions labels : Node Qc) (weights : option (Node W))
  : result (Metric MeanVars) :=
  rbind (_remove_squeezable_dimensions predictions labels) (fun pl =>
  let predictions := fst pl in
  let labels := snd pl in
  if is_compatible_with (get_shape predictions) (get_shape labels) then
    let squared_error := map_node (fun x => x * x) (sub labels predictions) in
    streaming_mean squared_error weights
  else ValueError).

(** The square root of the update takes the update operation as its
    operand: the operation runs once and its result is passed on, so the
    control dependency on the same operation adds nothing. *)
Definition streaming_root_mean_squared_error {W} `{ToFloat W}
    (predictions labels : Node Qc) (weights : option (Node W))
  : result (Metric MeanVars) :=
  rbind (_remove_squeezable_dimensions predictions labels) (fun pl =>
  let predictions := fst pl in
  let labels := snd pl in
  if is_compatible_with (get_shape predictions) (get_shape labels) then
    rbind (streaming_mean_squared_error predictions labels weights) (fun m =>
    let root_mean_squared_error := v <- value_tensor m ;; ret (sqrt v) in
    let update_op := u <- update_op m ;; ret (sqrt u) in
    Ok (mkMetric (init_state m) root_mean_squared_error update_op))
  else ValueError).

Definition streaming_mean_cosine_distance {W} `{ToFloat W}
    (predictions labels : Node Qc) (dim : nat) (weights : option (Node W))
  : result (Metric MeanVars) :=
  rbind (_remove_squeezable_dimensions predictions labels) (fun pl =>
  let predictions := fst pl in
  let labels := snd pl in
  if is_compatible_with (get_shape predictions) (get_shape labels) then
    let radial_diffs := mul predictions labels in
    let radial_diffs := reduce_sum_axis dim true radial_diffs in
    rbind (streaming_mean radial_diffs weights) (fun m =>
    let mean_distance := v <- value_tensor m ;; ret (Q2Qc 1 - v) in
    let update_op := u <- update_op m ;; ret (Q2Qc 1 - u) in
    Ok (mkMetric (init_state m) mean_distance update_op))
  else ValueError).

Definition streaming_percentage_less (values : Node Qc) (threshold : Qc)
    (ignore_mask : option (Node bool)) : result (Metric MeanVars) :=
  let is_below_threshold := to_float (map_node (fun v => less v threshold) values) in
  streaming_mean is_below_threshold (_mask_to_weights ignore_mask).

(** *** The array operations of [streaming_auc] *)

(** Modelled from the spec: [array_ops.reshape(t, [-1, 1])] of the array
    runtime. *)
Definition reshape_column {A} (n : Node A) : Node A :=
  match n with
  | Value t => Value (mkTensor (shape_known t) [length (elems t); 1%nat] (elems t))
  | Invalid => Invalid
  end.

(** Modelled from the spec: [array_ops.transpose] of the array runtime, the
    identity below rank 2 and the matrix transpose at rank 2.  Higher ranks are outside the model; the only tensor that
    can have one here is then given to a [tile] with two multiples, which
    rejects it. *)
Definition transpose {A} (n : Node A) : Node A :=
  match n with
  | Value t =>
      match dims t with
      | [] | [_] => n
      | [r; c] =>
          let rows := chunks c r (elems t) in
          Value (mkTensor (shape_known t) [c; r]
                   (flat_map (fun j => flat_map (fun row => firstn 1 (skipn j row)) rows)
                      (seq 0 c)))
      | _ => Invalid
      end
  | Invalid => Invalid
  end.

(** Modelled from the spec: [array_ops.tile(t, [a, b])] of the array
    runtime; the operand must have rank 2. *)
Definition tile {A} (n : Node A) (a b : nat) : Node A :=
  match n with
  | Value t =>
      match dims t with
      | [r; c] =>
          let rows := chunks c r (elems t) in
          let block := flat_map (fun row => concat (repeat row b)) rows in
          Value (mkTensor (shape_known t) [(a * r)%nat; (b * c)%nat]
                   (concat (repeat block a)))
      | _ => Invalid
      end
  | Invalid => Invalid
  end.

(** [array_ops.expand_dims(t, [1])] of a vector. *)
Definition expand_dims_1 {A} (n : Node A) : Node A :=
  match n with
  | Value t =>
      match dims t with
      | [len] => Value (mkTensor (shape_known t) [len; 1%nat] (elems t))
      | _ => Invalid
      end
  | Invalid => Invalid
  end.

(** Modelled from the spec: [math_ops.linspace(start, stop, num)] of the
    array runtime, [num] evenly spaced values from [start] to [stop]; it
    needs [num > 0]. *)
Definition linspace (start stop : Qc) (num : nat) : Node Qc :=
  match num with
  | O => Invalid
  | 1%nat => vector [start]
  | _ =>
      let step := (stop - start) / Qc_of_Z (Z.of_nat (num - 1)) in
      vector (map (fun i => start + step * Qc_of_Z (Z.of_nat i)) (seq 0 num))
  end.

(** [array_ops.rank], when the operand has a value. *)
Definition rank {A} (n : Node A) : option nat :=
  match n with Value t => Some (length (dims t)) | Invalid => None end.

(** Modelled from the spec: [logging_ops.Assert(condition, data)] of the
    graph runtime.  The graph is deferred: the assertion is an operation,
    which checks its condition when it is run. *)
Definition Assert {S} (condition : option bool) : Op S unit :=
  fun s => match condition with
           | Some true => Some (tt, s)
           | _ => None
           end.

(** [array_ops.shape(t)[0]]. *)
Definition shape_0 {A} (n : Node A) : nat :=
  match n with Value t => hd O (dims t) | Invalid => O end.

(** [array_ops.squeeze(t).get_shape().as_list()] of a variable of shape
    [[n]]: every dimension of size one is dropped. *)
Definition squeeze_all (shape : list nat) : list nat :=
  filter (fun d => negb (Nat.eqb d 1)) shape.

Record AucVars := mkAucVars {
  true_positives : list Qc;
  false_negatives : list Qc;
  true_negatives : list Qc;
  false_positives : list Qc
}.

Definition tp_var : Var AucVars (list Qc) :=
  mkVar true_positives
    (fun x s => mkAucVars x (false_negatives s) (true_negatives s) (false_positives s)).
Definition fn_var : Var AucVars (list Qc) :=
  mkVar false_negatives
    (fun x s => mkAucVars (true_positives s) x (true_negatives s) (false_positives s)).
Definition tn_var : Var AucVars (list Qc) :=
  mkVar true_negatives
    (fun x s => mkAucVars (true_positives s) (false_negatives s) x (false_positives s)).
Definition fp_var : Var AucVars (list Qc) :=
  mkVar false_positives
    (fun x s => mkAucVars (true_positives s) (false_negatives s) (true_negatives s) x).

(** Modelled from the spec: [state_ops.assign_add] on a vector variable; the
    increment must have the shape of the variable. *)
Definition assign_add_vector {S} (v : Var S (list Qc)) (delta : Node Qc)
  : Op S (list Qc) :=
  fun s =>
    match delta with
    | Value t =>
        if dims_eqb (dims t) [length (var_get v s)]
           && Nat.eqb (length (elems t)) (length (var_get v s))
        then let x := map2 Qcplus (var_get v s) (elems t) in
             Some (x, var_set v x s)
        else None
    | Invalid => None
    end.

Definition kepsilon : Qc := Q2Qc 1e-7.
Definition epsilon : Qc := Q2Qc 1e-6.

Definition int32_of_bool (b : bool) : Z := if b then 1%Z else 0%Z.

(** The four indicator matrices of one batch, one row per threshold. *)
Record Indicators := mkIndicators {
  ind_true_positive : Node Qc;
  ind_false_negative : Node Qc;
  ind_false_positive : Node Qc;
  ind_true_negative : Node Qc
}.

(** How the operations of a tensor read the accumulators, place by place. *)
Definition Reader : Type :=
  RateRead -> Var AucVars (list Qc) -> Op AucVars (list Qc).

(** The reads of operations that run on the variables as they are. *)
Definition read_now : Reader := fun _ v => read v.

(** The reads of operations that no edge orders against the increments of a
    run that started from the variables [before]: each read finds its
    accumulator as it was before the increment or as it is after it. *)
Definition read_unordered (before : AucVars) : Reader :=
  fun place v after =>
    Some (if reads_increment place then var_get v after else var_get v before,
          after).

Definition false_positive_rate (rd : Reader) : Op AucVars (list Qc) :=
  fp <- rd FalsePositivesDividend fp_var ;;
  fp' <- rd FalsePositivesAddend fp_var ;;
  tn <- rd TrueNegativesAddend tn_var ;;
  ret (map2 tf_div fp (map (fun x => x + epsilon) (map2 Qcplus fp' tn))).

Definition recall (rd : Reader) : Op AucVars (list Qc) :=
  tp <- rd TruePositivesDividend tp_var ;;
  tp' <- rd TruePositivesAddend tp_var ;;
  fn <- rd FalseNegativesAddend fn_var ;;
  ret (map2 tf_div (map (fun x => x + epsilon) tp)
         (map (fun x => x + epsilon) (map2 Qcplus tp' fn))).

(** [compute_auc] over the two rate tensors, whose operations read the
    accumulators by [rd]. *)
Definition compute_auc (rd : Reader) (num_thresholds : nat) : Op AucVars Qc :=
  fpr <- false_positive_rate rd ;;
  rc <- recall rd ;;
  ret (sum_list
         (map2 Qcmult
            (map2 Qcminus (firstn (num_thresholds - 1) fpr) (skipn 1 fpr))
            (map (fun x => tf_div x (Q2Qc 2))
               (map2 Qcplus (firstn (num_thresholds - 1) rc) (skipn 1 rc))))).

Definition streaming_auc {L} `{Numeric L}
    (predictions : Node Qc) (labels : Node L) (ignore_mask : option (Node bool))
    (num_thresholds : nat) : result (Metric AucVars) :=
  rbind (_remove_squeezable_dimensions predictions labels) (fun pl =>
  let predictions := fst pl in
  let labels := snd pl in
  if is_compatible_with (get_shape predictions) (get_shape labels) then
    (* The two assertions are built and their operations dropped. *)
    let _ := @Assert AucVars (option_map (Nat.eqb 1) (rank predictions)) in
    let _ := @Assert AucVars (option_map (Nat.eqb 1) (rank labels)) in
    let predictions := reshape_column predictions in
    let labels := reshape_column labels in
    let num_predictions :=
      match get_shape predictions with
      | Some ds => hd O ds
      | None => shape_0 predictions
      end in
    let thresh_tiled :=
      tile (expand_dims_1
              (linspace (Q2Qc 0 - kepsilon) (Q2Qc 1 + kepsilon) num_thresholds))
           1 num_predictions in
    let pred_tiled :=
      map_node int32_of_bool
        (zip_node greater (tile (transpose predictions) num_thresholds 1)
           thresh_tiled) in
    let labels_tiled := tile (transpose labels) num_thresholds 1 in
    let true_positives := _create_local [num_thresholds] in
    let false_negatives := _create_local [num_thresholds] in
    let true_negatives := _create_local [num_thresholds] in
    let false_positives := _create_local [num_thresholds] in
    let is_true_positive := to_float
      (logical_and (equal_const labels_tiled 1) (equal_const pred_tiled 1)) in
    let is_false_negative := to_float
      (logical_and (equal_const labels_tiled 1) (equal_const pred_tiled 0)) in
    let is_false_positive := to_float
      (logical_and (equal_const labels_tiled 0) (equal_const pred_tiled 1)) in
    let is_true_negative := to_float
      (logical_and (equal_const labels_tiled 0) (equal_const pred_tiled 0)) in
    rbind
      (match ignore_mask with
       | Some ignore_mask =>
           let mask_tiled := tile (transpose ignore_mask) num_thresholds 1 in
           if is_compatible_with (get_shape labels_tiled) (get_shape mask_tiled) then
             let zeros := zeros_like (Q2Qc 0) labels_tiled in
             Ok (mkIndicators
                   (select mask_tiled zeros is_true_positive)
                   (select mask_tiled zeros is_false_negative)
                   (select mask_tiled zeros is_false_positive)
                   (select mask_tiled zeros is_true_negative))
           else ValueError
       | None =>
           Ok (mkIndicators is_true_positive is_false_negative
                 is_false_positive is_true_negative)
       end) (fun ind =>
    let true_positives_compute_op :=
      assign_add_vector tp_var (reduce_sum_axis 1 false (ind_true_positive ind)) in
    let false_negatives_compute_op :=
      assign_add_vector fn_var (reduce_sum_axis 1 false (ind_false_negative ind)) in
    let true_negatives_compute_op :=
      assign_add_vector tn_var (reduce_sum_axis 1 false (ind_true_negative ind)) in
    let false_positives_compute_op :=
      assign_add_vector fp_var (reduce_sum_axis 1 false (ind_false_positive ind)) in
    match squeeze_all [num_thresholds] with
    | [] => IndexError
    | d :: _ =>
        if Nat.eqb d num_thresholds then
          (* [false_positive_rate] and [recall] are built here, before the
             block: no edge of the graph orders their operations against
             the four increments.  The operations that [compute_auc] adds
             to them for the update are built inside the block. *)
          let auc := compute_auc read_now num_thresholds in
          let update_op : Op AucVars Qc := fun before =>
            control_dependencies
              [true_positives_compute_op; false_negatives_compute_op;
               true_negatives_compute_op; false_positives_compute_op]
              (compute_auc (read_unordered before) num_thresholds) before in
          Ok (mkMetric
                (mkAucVars true_positives false_negatives true_negatives
                   false_positives)
                auc update_op)
        else AssertionError
    end)
  else ValueError).

End Metrics.

(** ** A runtime for closed examples

    Division by zero yields [0], the square root is rounded down to an
    integer, a label is in the top [k] when fewer than [k] predictions of
    its row are greater than its own, and a tensor that nothing orders
    against an increment reads the accumulator before the increment (such a
    tensor waits for no other operation). *)

Definition in_top_k_rows (predictions : Node Qc) (labels : Node Z) (k : nat) : Node bool :=
  match predictions, labels with
  | Value p, Value l =>
      match dims p with
      | [batch; classes] =>
          Value (mkTensor (shape_known l) (dims l)
                   (map2 (fun row target =>
                            match nth_error row (Z.to_nat target) with
                            | Some v =>
                                Nat.ltb (length (filter (fun x => greater x v) row)) k
                            | None => false
                            end)
                      (chunks classes batch (elems p)) (elems l)))
      | _ => Invalid
      end
  | _, _ => Invalid
  end.

Definition example_runtime : Runtime := {|
  div_by_zero := fun _ => Q2Qc 0;
  sqrt := fun x => Qc_of_Z (Z.sqrt (Qfloor x));
  sqrt_zero := eq_refl;
  in_top_k := in_top_k_rows;
  reads_increment := fun _ => false
|}.

Definition Qc_list (l : list Z) : list Qc := map Qc_of_Z l.

(** ** Statements *)

(** An operation that reads the variables and leaves them as they are. *)
Definition read_only {S A} (m : Op S A) : Prop :=
  forall s, exists a, m s = Some (a, s).

(** The update returns what the value reports afterwards. *)
Definition update_matches_value {S} (m : Metric S) : Prop :=
  forall s u s', update_op m s = Some (u, s') -> value_tensor m s' = Some (u, s').

(** Evaluating the value twice in a row returns the same number twice and
    leaves the variables as they are. *)
Definition value_is_idempotent {S} (m : Metric S) : Prop :=
  forall s, exists v,
    value_tensor m s = Some (v, s) /\
    (v1 <- value_tensor m ;; v2 <- value_tensor m ;; ret (v1, v2)) s
      = Some ((v, v), s).

(** The metrics that the constructors of the module return. *)
Inductive module_metric {rt : Runtime} : forall {S : Type}, Metric S -> Prop :=
| mm_count_condition values ignore_mask m :
    _count_condition values ignore_mask = Ok m -> module_metric m
| mm_true_positives A (NA : Numeric A) (predictions labels : Node A) ignore_mask m :
    _streaming_true_positives predictions labels ignore_mask = Ok m ->
    module_metric m
| mm_false_positives A (NA : Numeric A) (predictions labels : Node A) ignore_mask m :
    _streaming_false_positives predictions labels ignore_mask = Ok m ->
    module_metric m
| mm_false_negatives A (NA : Numeric A) (predictions labels : Node A) ignore_mask m :
    _streaming_false_negatives predictions labels ignore_mask = Ok m ->
    module_metric m
| mm_mean A W (FA : ToFloat A) (FW : ToFloat W) (values : Node A) weights m :
    streaming_mean values (weights : option (Node W)) = Ok m -> module_metric m
| mm_accuracy A W (NA : Numeric A) (FW : ToFloat W) (predictions labels : Node A)
    weights m :
    streaming_accuracy predictions labels (weights : option (Node W)) = Ok m ->
    module_metric m
| mm_precision A (NA : Numeric A) (predictions labels : Node A) ignore_mask m :
    streaming_precision predictions labels ignore_mask = Ok m -> module_metric m
| mm_recall A (NA : Numeric A) (predictions labels : Node A) ignore_mask m :
    streaming_recall predictions labels ignore_mask = Ok m -> module_metric m
| mm_auc L (NL : Numeric L) predictions (labels : Node L) ignore_mask
    num_thresholds m :
    streaming_auc predictions labels ignore_mask num_thresholds = Ok m ->
    module_metric m
| mm_recall_at_k predictions labels k ignore_mask m :
    streaming_recall_at_k predictions labels k ignore_mask = Ok m ->
    module_metric m
| mm_mean_absolute_error W (FW : ToFloat W) predictions labels weights m :
    streaming_mean_absolute_error predictions labels (weights : option (Node W))
      = Ok m ->
    module_metric m
| mm_mean_relative_error W (FW : ToFloat W) predictions labels normalizer weights m :
    streaming_mean_relative_error predictions labels normalizer
      (weights : option (Node W)) = Ok m ->
    module_metric m
| mm_mean_squared_error W (FW : ToFloat W) predictions labels weights m :
    streaming_mean_squared_error predictions labels (weights : option (Node W))
      = Ok m ->
    module_metric m
| mm_root_mean_squared_error W (FW : ToFloat W) predictions labels weights m :
    streaming_root_mean_squared_error predictions labels
      (weights : option (Node W)) = Ok m ->
    module_metric m
| mm_mean_cosine_distance W (FW : ToFloat W) predictions labels dim weights m :
    streaming_mean_cosine_distance predictions labels dim
      (weights : option (Node W)) = Ok m ->
    module_metric m
| mm_percentage_less values threshold ignore_mask m :
    streaming_percentage_less values threshold ignore_mask = Ok m ->
    module_metric m.

(** The metrics whose update returns a number computed after its
    increments: the counters, whose update is the increment and returns its
    result; the constructors that build the operations of the formula inside
    their [control_dependencies] block; and those that compute from the
    result of such an update.  That is every constructor of the module but
    [streaming_auc], whose two rate tensors are built before the block. *)
Inductive ordered_metric {rt : Runtime} : forall {S : Type}, Metric S -> Prop :=
| om_count_condition values ignore_mask m :
    _count_condition values ignore_mask = Ok m -> ordered_metric m
| om_true_positives A (NA : Numeric A) (predictions labels : Node A) ignore_mask m :
    _streaming_true_positives predictions labels ignore_mask = Ok m ->
    ordered_metric m
| om_false_positives A (NA : Numeric A) (predictions labels : Node A) ignore_mask m :
    _streaming_false_positives predictions labels ignore_mask = Ok m ->
    ordered_metric m
| om_false_negatives A (NA : Numeric A) (predictions labels : Node A) ignore_mask m :
    _streaming_false_negatives predictions labels ignore_mask = Ok m ->
    ordered_metric m
| om_mean A W (FA : ToFloat A) (FW : ToFloat W) (values : Node A) weights m :
    streaming_mean values (weights : option (Node W)) = Ok m -> ordered_metric m
| om_accuracy A W (NA : Numeric A) (FW : ToFloat W) (predictions labels : Node A)
    weights m :
    streaming_accuracy predictions labels (weights : option (Node W)) = Ok m ->
    ordered_metric m
| om_precision A (NA : Numeric A) (predictions labels : Node A) ignore_mask m :
    streaming_precision predictions labels ignore_mask = Ok m -> ordered_metric m
| om_recall A (NA : Numeric A) (predictions labels : Node A) ignore_mask m :
    streaming_recall predictions labels ignore_mask = Ok m -> ordered_metric m
| om_recall_at_k predictions labels k ignore_mask m :
    streaming_recall_at_k predictions labels k ignore_mask = Ok m ->
    ordered_metric m
| om_mean_absolute_error W (FW : ToFloat W) predictions labels weights m :
    streaming_mean_absolute_error predictions labels (weights : option (Node W))
      = Ok m ->
    ordered_metric m
| om_mean_relative_error W (FW : ToFloat W) predictions labels normalizer weights m :
    streaming_mean_relative_error predictions labels normalizer
      (weights : option (Node W)) = Ok m ->
    ordered_metric m
| om_mean_squared_error W (FW : ToFloat W) predictions labels weights m :
    streaming_mean_squared_error predictions labels (weights : option (Node W))
      = Ok m ->
    ordered_metric m
| om_root_mean_squared_error W (FW : ToFloat W) predictions labels weights m :
    streaming_root_mean_squared_error predictions labels
      (weights : option (Node W)) = Ok m ->
    ordered_metric m
| om_mean_cosine_distance W (FW : ToFloat W) predictions labels dim weights m :
    streaming_mean_cosine_distance predictions labels dim
      (weights : option (Node W)) = Ok m ->
    ordered_metric m
| om_percentage_less values threshold ignore_mask m :
    streaming_percentage_less values threshold ignore_mask = Ok m ->
    ordered_metric m.

(** The update adds [dt] to [total] and [dc] to [count]. *)
Definition increments_by (m : Metric MeanVars) (dt dc : Qc) : Prop :=
  forall s, exists u,
    update_op m s = Some (u, mkMeanVars (total s + dt) (count s + dc)).

(** The value is [total / count] when [count > 0] and [0] otherwise. *)
Definition reports_mean (m : Metric MeanVars) : Prop :=
  forall s,
    (Q2Qc 0 < count s -> value_tensor m s = Some (total s / count s, s)) /\
    (~ Q2Qc 0 < count s -> value_tensor m s = Some (Q2Qc 0, s)).

(** The result of one update from the initial variables, then the value. *)
Definition update_then_value {S} (r : result (Metric S)) : option (Qc * Qc) :=
  match r with
  | Ok m =>
      match update_op m (init_state m) with
      | Some (u, s) =>
          match value_tensor m s with
          | Some (v, _) => Some (u, v)
          | None => None
          end
      | None => None
      end
  | _ => None
  end.

(** The number of positions that are not ignored and whose prediction and
    label satisfy [P]. *)
Fixpoint count_positions {A} (P : A -> A -> bool)
    (predictions labels : list A) (ignored : list bool) : nat :=
  match predictions, labels, ignored with
  | p :: ps, l :: ls, i :: ignored' =>
      (if negb i && P p l then 1 else 0) + count_positions P ps ls ignored'
  | _, _, _ => O
  end.

(** The positions that a mask ignores; without a mask, none. *)
Definition ignored_positions (mask : option (Tensor bool)) (n : nat) : list bool :=
  match mask with
  | Some t => elems t
  | None => repeat false n
  end.

Definition Qc_of_nat (n : nat) : Qc := Qc_of_Z (Z.of_nat n).

(** A prediction and a label that count as a true positive, a false positive
    and a false negative. *)
Definition true_positive {A} `{Numeric A} (p l : A) : bool :=
  equal1 l (of_int 1) && equal1 p (of_int 1).
Definition false_positive {A} `{Numeric A} (p l : A) : bool :=
  equal1 l (of_int 0) && equal1 p (of_int 1).
Definition false_negative {A} `{Numeric A} (p l : A) : bool :=
  equal1 l (of_int 1) && equal1 p (of_int 0).

(** A mask, when there is one, has the shape of the tensor it masks. *)
Definition mask_fits {A} (t : Tensor A) (mask : option (Tensor bool)) : Prop :=
  match mask with
  | Some tm => same_shape t tm = true
  | None => True
  end.

Definition mask_node (mask : option (Tensor bool)) : option (Node bool) :=
  match mask with
  | Some tm => Some (Value tm)
  | None => None
  end.

(** The metrics whose value is the value of the [streaming_mean] they are
    built on. *)
Inductive plain_mean_metric {rt : Runtime} : Metric MeanVars -> Prop :=
| pm_mean A W (FA : ToFloat A) (FW : ToFloat W) (values : Node A) weights m :
    streaming_mean values (weights : option (Node W)) = Ok m ->
    plain_mean_metric m
| pm_accuracy A W (NA : Numeric A) (FW : ToFloat W) (predictions labels : Node A)
    weights m :
    streaming_accuracy predictions labels (weights : option (Node W)) = Ok m ->
    plain_mean_metric m
| pm_recall_at_k predictions labels k ignore_mask m :
    streaming_recall_at_k predictions labels k ignore_mask = Ok m ->
    plain_mean_metric m
| pm_mean_absolute_error W (FW : ToFloat W) predictions labels weights m :
    streaming_mean_absolute_error predictions labels (weights : option (Node W))
      = Ok m ->
    plain_mean_metric m
| pm_mean_relative_error W (FW : ToFloat W) predictions labels normalizer weights m :
    streaming_mean_relative_error predictions labels normalizer
      (weights : option (Node W)) = Ok m ->
    plain_mean_metric m
| pm_mean_squared_error W (FW : ToFloat W) predictions labels weights m :
    streaming_mean_squared_error predictions labels (weights : option (Node W))
      = Ok m ->
    plain_mean_metric m
| pm_percentage_less values threshold ignore_mask m :
    streaming_percentage_less values threshold ignore_mask = Ok m ->
    plain_mean_metric m.

(** Predictions and labels of rank 2. *)
Definition rank2_predictions : Node Qc :=
  Value (mkTensor true [2; 2]%nat (map Q2Qc [0.9; 0.8; 0.3; 0.1]%Q)).
Definition rank2_labels : Node Z :=
  Value (mkTensor true [2; 2]%nat [1; 1; 0; 0]%Z).

(** Running the updates of the metrics [ms] one after the other. *)
Fixpoint run_updates {S} (ms : list (Metric S)) (s : S) : option S :=
  match ms with
  | [] => Some s
  | m :: ms' =>
      match update_op m s with
      | Some (_, s') => run_updates ms' s'
      | None => None
      end
  end.

(** The metrics that count a condition in one accumulator. *)
Inductive count_metric : Metric Qc -> Prop :=
| cm_count_condition values ignore_mask m :
    _count_condition values ignore_mask = Ok m -> count_metric m
| cm_true_positives A (NA : Numeric A) (predictions labels : Node A) ignore_mask m :
    _streaming_true_positives predictions labels ignore_mask = Ok m ->
    count_metric m
| cm_false_positives A (NA : Numeric A) (predictions labels : Node A) ignore_mask m :
    _streaming_false_positives predictions labels ignore_mask = Ok m ->
    count_metric m
| cm_false_negatives A (NA : Numeric A) (predictions labels : Node A) ignore_mask m :
    _streaming_false_negatives predictions labels ignore_mask = Ok m ->
    count_metric m.

(** The AUC metrics of [num_thresholds] thresholds. *)
Inductive auc_metric {rt : Runtime} (num_thresholds : nat) : Metric AucVars -> Prop :=
| am_auc L (NL : Numeric L) predictions (labels : Node L) ignore_mask m :
    streaming_auc predictions labels ignore_mask num_thresholds = Ok m ->
    auc_metric num_thresholds m.

(** Component-wise order on accumulator vectors. *)
Definition vector_le (a b : list Qc) : Prop := Forall2 Qcle a b.

Definition auc_le (s s' : AucVars) : Prop :=
  vector_le (true_positives s) (true_positives s') /\
  vector_le (false_negatives s) (false_negatives s') /\
  vector_le (true_negatives s) (true_negatives s') /\
  vector_le (false_positives s) (false_positives s').

(** Every element of a tensor is 0 or 1. *)
Definition indicator_node (n : Node Qc) : Prop :=
  match n with
  | Value t => Forall (fun x => x = Q2Qc 0 \/ x = Q2Qc 1) (elems t)
  | Invalid => True
  end.

Definition nonneg_node (n : Node Qc) : Prop :=
  match n with
  | Value t => Forall (fun x => Q2Qc 0 <= x) (elems t)
  | Invalid => True
  end.

(** The [i]-th of [num_thresholds] evenly spaced cut points over
    [[0 - kepsilon, 1 + kepsilon]]. *)
Definition threshold (num_thresholds i : nat) : Qc :=
  (Q2Qc 0 - kepsilon)
  + (Q2Qc 1 + kepsilon - (Q2Qc 0 - kepsilon)) / Qc_of_nat (num_thresholds - 1)
    * Qc_of_nat i.

Definition thresholds (num_thresholds : nat) : list Qc :=
  map (threshold num_thresholds) (seq 0 num_thresholds).

(** The number of co-indexed pairs that satisfy [P]. *)
Fixpoint count_pairs {A B} (P : A -> B -> bool) (xs : list A) (ys : list B) : nat :=
  match xs, ys with
  | x :: xs', y :: ys' => (if P x y then 1 else 0) + count_pairs P xs' ys'
  | _, _ => O
  end.

(** At the threshold [th], the number of observations with the given label
    that are classified positive ([score > th]) or negative. *)
Definition count_at {L} `{Numeric L} (label : Z) (positive : bool)
    (scores : list Qc) (labels : list L) (th : Qc) : Qc :=
  Qc_of_nat
    (count_pairs (fun p l => equal1 l (of_int label) && Bool.eqb (greater p th) positive)
       scores labels).

(** The confusion vectors after a batch, one cell per threshold. *)
Definition add_counts {L} `{Numeric L} (label : Z) (positive : bool)
    (scores : list Qc) (labels : list L) (num_thresholds : nat) (acc : list Qc)
  : list Qc :=
  map2 Qcplus acc
    (map (count_at label positive scores labels) (thresholds num_thresholds)).




(** The four confusion vectors have one cell per threshold. *)
Definition auc_shaped (num_thresholds : nat) (s : AucVars) : Prop :=
  length (true_positives s) = num_thresholds /\
  length (false_negatives s) = num_thresholds /\
  length (true_negatives s) = num_thresholds /\
  length (false_positives s) = num_thresholds.

(** A metric whose value only reads and whose update returns the value. *)
Definition sound_metric {S} (m : Metric S) : Prop :=
  read_only (value_tensor m) /\ update_matches_value m.

(** One step through a constructor that has returned a metric. *)
Ltac step_construction H :=
  match type of H with
  | rbind ?r _ = Ok _ =>
      let E := fresh "E" in
      destruct r eqn:E; cbn [rbind] in H; try discriminate H
  | (if ?c then _ else _) = Ok _ => destruct c eqn:?; try discriminate H
  | (match ?x with _ => _ end) = Ok _ => destruct x eqn:?; try discriminate H
  end.

(** Example tensors. *)
Definition values_2_4_6 : Tensor Qc := mkTensor true [3%nat] (Qc_list [2; 4; 6]%Z).
Definition weights_1_0_1 : Tensor Qc := mkTensor true [3%nat] (Qc_list [1; 0; 1]%Z).
Definition weights_1_1_1 : Tensor Qc := mkTensor true [3%nat] (Qc_list [1; 1; 1]%Z).
Definition predictions_1100 : Tensor Z := mkTensor true [4%nat] [1; 1; 0; 0]%Z.
Definition labels_1010 : Tensor Z := mkTensor true [4%nat] [1; 0; 1; 0]%Z.
Definition scores_4 : list Qc := map Q2Qc [0.9; 0.8; 0.3; 0.1]%Q.
Definition labels_1100 : list Z := [1; 1; 0; 0]%Z.
Definition shape_2 : Tensor Z := mkTensor true [2%nat] [1; 0]%Z.
Definition shape_2_1 : Tensor Z := mkTensor true [2; 1]%nat [1; 0]%Z.
Definition shape_2_3 : Tensor Z := mkTensor true [2; 3]%nat [1; 0; 1; 0; 1; 0]%Z.
Definition unit_rows : Node Qc :=
  Value (mkTensor true [2; 2]%nat (Qc_list [1; 0; 0; 1]%Z)).
Definition unit_labels : Node Qc :=
  Value (mkTensor true [2; 2]%nat (Qc_list [1; 0; 1; 0]%Z)).
Definition flags_101 : Node bool := vector [true; false; true].

(** The metrics that [streaming_precision] and [streaming_recall] return. *)
Inductive precision_metric {rt : Runtime} : Metric PrecisionVars -> Prop :=
| pr_precision A (NA : Numeric A) (predictions labels : Node A) ignore_mask m :
    streaming_precision predictions labels ignore_mask = Ok m ->
    precision_metric m.

Inductive recall_metric {rt : Runtime} : Metric RecallVars -> Prop :=
| rc_recall A (NA : Numeric A) (predictions labels : Node A) ignore_mask m :
    streaming_recall predictions labels ignore_mask = Ok m ->
    recall_metric m.

(** A value between 0 and 1. *)
Definition is_rate (v : Qc) : Prop := Q2Qc 0 <= v /\ v <= Q2Qc 1.

(** The number of labels equal to the integer [label]. *)
Definition count_label {L} `{Numeric L} (label : Z) (labels : list L) : nat :=
  length (filter (fun l => equal1 l (of_int label)) labels).

(** Scores within the range that [streaming_auc] documents. *)
Definition in_unit_range (scores : list Qc) : Prop :=
  Forall (fun p => Q2Qc 0 <= p /\ p <= Q2Qc 1) scores.

(** The accumulators of [streaming_auc] after one batch of scores and labels. *)
Definition auc_after {L} `{Numeric L} (scores : list Qc) (labels : list L)
    (num_thresholds : nat) (s : AucVars) : AucVars :=
  mkAucVars (add_counts 1 true scores labels num_thresholds (true_positives s))
    (add_counts 1 false scores labels num_thresholds (false_negatives s))
    (add_counts 0 false scores labels num_thresholds (true_negatives s))
    (add_counts 0 true scores labels num_thresholds (false_positives s)).

(** The observations counted so far at the threshold of index [i]. *)
Definition cells_sum (s : AucVars) (i : nat) : Qc :=
  nth i (true_positives s) (Q2Qc 0) + nth i (false_negatives s) (Q2Qc 0)
  + nth i (true_negatives s) (Q2Qc 0) + nth i (false_positives s) (Q2Qc 0).

(** Two tensors of known shapes of one rank that differ in a dimension. *)
Definition known_mismatch {A B} (a : Tensor A) (b : Tensor B) : Prop :=
  shape_known a = true /\ shape_known b = true /\
  length (dims a) = length (dims b) /\ dims a <> dims b.

(** At the threshold [th], the number of observations that the mask keeps,
    with the given label, classified positive ([score > th]) or negative. *)
Definition count_kept_at {L} `{Numeric L} (label : Z) (positive : bool)
    (scores : list Qc) (labels : list L) (ignored : list bool) (th : Qc) : Qc :=
  Qc_of_nat
    (count_pairs
       (fun (pl : Qc * L) (i : bool) =>
          negb i && (equal1 (snd pl) (of_int label)
                     && Bool.eqb (greater (fst pl) th) positive))
       (combine scores labels) ignored).

Definition add_kept_counts {L} `{Numeric L} (label : Z) (positive : bool)
    (scores : list Qc) (labels : list L) (ignored : list bool)
    (num_thresholds : nat) (acc : list Qc) : list Qc :=
  map2 Qcplus acc
    (map (count_kept_at label positive scores labels ignored)
       (thresholds num_thresholds)).

(** The accumulators of [streaming_auc] after one masked batch. *)
Definition auc_after_masked {L} `{Numeric L} (scores : list Qc) (labels : list L)
    (ignored : list bool) (num_thresholds : nat) (s : AucVars) : AucVars :=
  mkAucVars
    (add_kept_counts 1 true scores labels ignored num_thresholds (true_positives s))
    (add_kept_counts 1 false scores labels ignored num_thresholds (false_negatives s))
    (add_kept_counts 0 false scores labels ignored num_thresholds (true_negatives s))
    (add_kept_counts 0 true scores labels ignored num_thresholds (false_positives s)).

(** A mask given as a column, the shape that [streaming_auc] tiles. *)
Definition column {A} (xs : list A) : Node A :=
  Value (mkTensor true [length xs; 1%nat] xs).

(** Further example data. *)
Definition mask_0100 : list bool := [false; true; false; false].
Definition mask_010 : Tensor bool := mkTensor true [3%nat] [false; true; false].
Definition rows_1001 : Tensor Qc := mkTensor true [2; 2]%nat (Qc_list [1; 0; 0; 1]%Z).
Definition rows_1010 : Tensor Qc := mkTensor true [2; 2]%nat (Qc_list [1; 0; 1; 0]%Z).
Definition class_0_twice : Node Z := vector [0; 0]%Z.
Definition hits_10 : Tensor bool := mkTensor true [2%nat] [true; false].

(** * Properties *)

Section Properties.

Context {rt : Runtime}.

Lemma greater_0_iff (x : Qc) : greater x (Q2Qc 0) = true <-> Q2Qc 0 < x.
Proof.
  unfold greater. rewrite negb_true_iff. split; intro Hx.
  - apply Qcnot_le_lt. intro Hle.
    apply Qle_bool_iff in Hle. congruence.
  - destruct (Qle_bool x (Q2Qc 0)) eqn:E; [|reflexivity].
    apply Qle_bool_iff in E. exfalso. exact (Qclt_not_le _ _ Hx E).
Qed.

Lemma Qc_eqb_eq (x y : Qc) : Qc_eqb x y = true <-> x = y.
Proof.
  unfold Qc_eqb. rewrite Qeq_bool_iff. split.
  - apply Qc_is_canon.
  - intros ->. reflexivity.
Qed.

Lemma tf_div_nonzero (x y : Qc) : y <> Q2Qc 0 -> tf_div x y = x / y.
Proof.
  intro Hy. unfold tf_div.
  destruct (Qc_eqb y (Q2Qc 0)) eqn:E; [|reflexivity].
  apply Qc_eqb_eq in E. contradiction.
Qed.

Lemma compute_mean_spec (s : MeanVars) :
  (Q2Qc 0 < count s ->
     compute_mean total_var count_var s = Some (total s / count s, s)) /\
  (~ Q2Qc 0 < count s ->
     compute_mean total_var count_var s = Some (Q2Qc 0, s)).
Proof.
  unfold compute_mean, bind, read, ret; simpl. split; intro Hc.
  - pose proof (proj2 (greater_0_iff _) Hc) as G. rewrite G. simpl.
    rewrite tf_div_nonzero; [reflexivity|].
    intro E. rewrite E in Hc. exact (Qclt_not_le _ _ Hc (Qcle_refl _)).
  - destruct (greater (count s) (Q2Qc 0)) eqn:G; [|reflexivity].
    apply greater_0_iff in G. contradiction.
Qed.

Lemma dims_compatible {A B} (a : Tensor A) (b : Tensor B) :
  dims_eqb (dims a) (dims b) = true ->
  is_compatible_with (get_shape (Value a)) (get_shape (Value b)) = true.
Proof.
  intro Hd. unfold is_compatible_with, get_shape.
  destruct (shape_known a), (shape_known b); auto.
Qed.

Lemma same_shape_dims {A B} (a : Tensor A) (b : Tensor B) :
  same_shape a b = true ->
  dims_eqb (dims a) (dims b) = true /\ length (elems a) = length (elems b).
Proof.
  unfold same_shape. rewrite andb_true_iff, Nat.eqb_eq. tauto.
Qed.

Lemma zip_node_values {A B C} (f : A -> B -> C) (x : Tensor A) (y : Tensor B) :
  same_shape x y = true ->
  zip_node f (Value x) (Value y) =
  Value (mkTensor (shape_known x && shape_known y) (dims x)
           (map2 f (elems x) (elems y))).
Proof. intro Hs. simpl. rewrite Hs. reflexivity. Qed.

Lemma same_shape_map {A B A' B'} (f : A -> A') (g : B -> B')
    (x : Tensor A) (y : Tensor B) k k' :
  same_shape (mkTensor k (dims x) (map f (elems x)))
             (mkTensor k' (dims y) (map g (elems y))) = same_shape x y.
Proof. unfold same_shape; simpl. rewrite !length_map. reflexivity. Qed.

Lemma streaming_mean_weighted {A W} `{ToFloat A} `{ToFloat W}
    (tv : Tensor A) (tw : Tensor W) :
  same_shape tv tw = true ->
  exists m,
    streaming_mean (Value tv) (Some (Value tw)) = Ok m /\
    init_state m = mkMeanVars (Q2Qc 0) (Q2Qc 0) /\
    value_tensor m = compute_mean total_var count_var /\
    forall s,
      update_op m s =
      compute_mean total_var count_var
        (mkMeanVars
           (total s + sum_list (map2 Qcmult (map to_float1 (elems tv))
                                  (map to_float1 (elems tw))))
           (count s + sum_list (map to_float1 (elems tw)))).
Proof.
  intro Hs. destruct (same_shape_dims _ _ Hs) as [Hd Hl].
  unfold streaming_mean.
  assert (Hc : is_compatible_with (get_shape (to_float (Value tv)))
                 (get_shape (Value tw)) = true).
  { apply (dims_compatible (mkTensor _ _ _) tw). exact Hd. }
  rewrite Hc. cbn [rbind fst snd].
  eexists. split; [reflexivity|]. cbn [init_state value_tensor update_op].
  split; [reflexivity|]. split; [reflexivity|].
  intro s. unfold to_float, mul. cbn [map_node].
  rewrite zip_node_values by (rewrite same_shape_map; exact Hs).
  reflexivity.
Qed.

Lemma streaming_mean_unweighted {A W} `{ToFloat A} `{ToFloat W} (tv : Tensor A) :
  exists m,
    streaming_mean (Value tv) (@None (Node W)) = Ok m /\
    init_state m = mkMeanVars (Q2Qc 0) (Q2Qc 0) /\
    value_tensor m = compute_mean total_var count_var /\
    forall s,
      update_op m s =
      compute_mean total_var count_var
        (mkMeanVars
           (total s + sum_list (map to_float1 (elems tv)))
           (count s + Qc_of_Z (Z.of_nat (length (elems tv))))).
Proof.
  unfold streaming_mean. cbn [rbind fst snd].
  eexists. split; [reflexivity|]. cbn [init_state value_tensor update_op].
  split; [reflexivity|]. split; [reflexivity|].
  intro s. unfold to_float. cbn. rewrite length_map. reflexivity.
Qed.

Lemma some_pair_Qc (a b c d : Qc) :
  (a == c)%Q -> (b == d)%Q -> Some (a, b) = Some (c, d).
Proof.
  intros Hac Hbd. apply Qc_is_canon in Hac. apply Qc_is_canon in Hbd.
  subst. reflexivity.
Qed.

Lemma compute_mean_read_only (s : MeanVars) :
  exists v, compute_mean total_var count_var s = Some (v, s).
Proof. eexists. reflexivity. Qed.

(** C2: [streaming_mean] adds [sum(values*weights)] to [total] and
    [sum(weights)] to [count] when weights are given, [sum(values)] and the
    number of elements otherwise; its value is [total/count] when
    [count > 0] and [0] otherwise.  The mean of [2,4,6] is 4, unweighted
    and with weights [1,0,1]. *)
Theorem streaming_mean_update_and_value {A W} `{ToFloat A} `{ToFloat W}
    (tv : Tensor A) (tw : Tensor W) :
  same_shape tv tw = true ->
  (exists m,
     streaming_mean (Value tv) (Some (Value tw)) = Ok m /\
     increments_by m
       (sum_list (map2 Qcmult (map to_float1 (elems tv)) (map to_float1 (elems tw))))
       (sum_list (map to_float1 (elems tw))) /\
     reports_mean m) /\
  (exists m,
     streaming_mean (Value tv) (@None (Node W)) = Ok m /\
     increments_by m
       (sum_list (map to_float1 (elems tv)))
       (Qc_of_Z (Z.of_nat (length (elems tv)))) /\
     reports_mean m) /\
  update_then_value
    (streaming_mean (vector (Qc_list [2; 4; 6]%Z)) (@None (Node Qc)))
    = Some (Q2Qc 4, Q2Qc 4) /\
  update_then_value
    (streaming_mean (vector (Qc_list [2; 4; 6]%Z))
       (Some (vector (Qc_list [1; 0; 1]%Z))))
    = Some (Q2Qc 4, Q2Qc 4).
Proof.
  intro Hs. split; [|split; [|split]].
  - destruct (streaming_mean_weighted tv tw Hs) as (m & Hm & _ & Hv & Hu).
    exists m. split; [exact Hm|]. split.
    + intro s. rewrite Hu. apply compute_mean_read_only.
    + intro s. rewrite Hv. apply compute_mean_spec.
  - destruct (streaming_mean_unweighted (W:=W) tv) as (m & Hm & _ & Hv & Hu).
    exists m. split; [exact Hm|]. split.
    + intro s. rewrite Hu. apply compute_mean_read_only.
    + intro s. rewrite Hv. apply compute_mean_spec.
  - vm_compute. apply some_pair_Qc; reflexivity.
  - vm_compute. apply some_pair_Qc; reflexivity.
Qed.

(** *** Updates against values *)

Lemma control_dependencies_runs_body {S D A} (deps : list (Op S D)) (body : Op S A) :
  forall s r, control_dependencies deps body s = Some r ->
  exists s1, body s1 = Some r.
Proof.
  induction deps as [|d ds IH]; intros s r Hr; simpl in Hr.
  - exists s. exact Hr.
  - unfold bind in Hr. destruct (d s) as [[x s0]|]; [|discriminate].
    apply (IH s0). exact Hr.
Qed.

Lemma sound_control {S D} (i : S) (deps : list (Op S D)) (body : Op S Qc) :
  read_only body ->
  sound_metric (mkMetric i body (control_dependencies deps body)).
Proof.
  intro Hro. split; [exact Hro|].
  intros s u s' Hu. cbn [update_op value_tensor] in *.
  destruct (control_dependencies_runs_body _ _ _ _ Hu) as [s1 Hb].
  destruct (Hro s1) as [a Ha]. rewrite Ha in Hb.
  inversion Hb; subst. exact Ha.
Qed.

Lemma sound_map {S} (m : Metric S) (i : S) (g : Qc -> Qc) :
  sound_metric m ->
  sound_metric (mkMetric i (v <- value_tensor m ;; ret (g v))
                  (u <- update_op m ;; ret (g u))).
Proof.
  intros [Hro Hm]. split.
  - intro s. cbn [value_tensor]. unfold bind.
    destruct (Hro s) as [a Ha]. rewrite Ha. eexists. reflexivity.
  - intros s u s' Hu. cbn [update_op value_tensor] in *. unfold bind in *.
    destruct (update_op m s) as [[x s0]|] eqn:E; [|discriminate].
    unfold ret in Hu. inversion Hu; subst.
    rewrite (Hm _ _ _ E). reflexivity.
Qed.

Lemma sound_count (c : Qc) (d : option Qc) :
  sound_metric (mkMetric c (read the_count)
                  (x <- eval d ;; assign_add the_count x)).
Proof.
  split.
  - intro s. eexists. reflexivity.
  - intros s u s' Hu. cbn [update_op value_tensor] in *.
    unfold bind, eval, assign_add in Hu. destruct d as [x|]; [|discriminate].
    simpl in Hu. inversion Hu; subst. reflexivity.
Qed.

Lemma count_condition_inv values ignore_mask m :
  _count_condition values ignore_mask = Ok m ->
  exists d, m = mkMetric (Q2Qc 0) (read the_count)
                  (x <- eval d ;; assign_add the_count x).
Proof.
  unfold _count_condition. intro Hm.
  step_construction Hm. inversion Hm; subst. eexists. reflexivity.
Qed.

Lemma streaming_mean_inv {A W} `{ToFloat A} `{ToFloat W}
    (values : Node A) (weights : option (Node W)) m :
  streaming_mean values weights = Ok m ->
  exists deps : list (Op MeanVars Qc),
    m = mkMetric (mkMeanVars (Q2Qc 0) (Q2Qc 0))
          (compute_mean total_var count_var)
          (control_dependencies deps (compute_mean total_var count_var)).
Proof.
  unfold streaming_mean. intro Hm.
  step_construction Hm. inversion Hm; subst. eexists [_; _]. reflexivity.
Qed.

Lemma sound_mean {A W} `{ToFloat A} `{ToFloat W}
    (values : Node A) (weights : option (Node W)) m :
  streaming_mean values weights = Ok m -> sound_metric m.
Proof.
  intro Hm. destruct (streaming_mean_inv _ _ _ Hm) as [deps ->].
  apply sound_control. intro s. apply compute_mean_read_only.
Qed.

Lemma sound_count_condition values ignore_mask m :
  _count_condition values ignore_mask = Ok m -> sound_metric m.
Proof.
  intro Hm. destruct (count_condition_inv _ _ _ Hm) as [d ->].
  apply sound_count.
Qed.

Lemma Ok_inj {A} (a b : A) : Ok a = Ok b -> a = b.
Proof. intro E. inversion E. reflexivity. Qed.

Section Confusion_sound.
Context {A : Type} `{Numeric A}.

Lemma true_positives_inv (p l : Node A) ignore_mask m :
  _streaming_true_positives p l ignore_mask = Ok m ->
  exists d, m = mkMetric (Q2Qc 0) (read the_count)
                  (x <- eval d ;; assign_add the_count x).
Proof.
  unfold _streaming_true_positives. intro Hm. step_construction Hm.
  exact (count_condition_inv _ _ _ Hm).
Qed.

Lemma false_positives_inv (p l : Node A) ignore_mask m :
  _streaming_false_positives p l ignore_mask = Ok m ->
  exists d, m = mkMetric (Q2Qc 0) (read the_count)
                  (x <- eval d ;; assign_add the_count x).
Proof.
  unfold _streaming_false_positives. intro Hm. step_construction Hm.
  exact (count_condition_inv _ _ _ Hm).
Qed.

Lemma false_negatives_inv (p l : Node A) ignore_mask m :
  _streaming_false_negatives p l ignore_mask = Ok m ->
  exists d, m = mkMetric (Q2Qc 0) (read the_count)
                  (x <- eval d ;; assign_add the_count x).
Proof.
  unfold _streaming_false_negatives. intro Hm. step_construction Hm.
  exact (count_condition_inv _ _ _ Hm).
Qed.

Lemma sound_precision (p l : Node A) ignore_mask m :
  streaming_precision p l ignore_mask = Ok m -> sound_metric m.
Proof.
  unfold streaming_precision. intro Hm.
  step_construction Hm. step_construction Hm.
  step_construction Hm. step_construction Hm.
  apply Ok_inj in Hm. subst m.
  destruct (true_positives_inv _ _ _ _ E0) as [d1 ->].
  destruct (false_positives_inv _ _ _ _ E1) as [d2 ->].
  apply sound_control.
  intros [tp fp]. eexists. reflexivity.
Qed.

Lemma sound_recall (p l : Node A) ignore_mask m :
  streaming_recall p l ignore_mask = Ok m -> sound_metric m.
Proof.
  unfold streaming_recall. intro Hm.
  step_construction Hm. step_construction Hm.
  step_construction Hm. step_construction Hm.
  apply Ok_inj in Hm. subst m.
  destruct (true_positives_inv _ _ _ _ E0) as [d1 ->].
  destruct (false_negatives_inv _ _ _ _ E1) as [d2 ->].
  apply sound_control.
  intros [tp fn]. eexists. reflexivity.
Qed.

Lemma auc_value_read_only predictions (labels : Node A) ignore_mask
    num_thresholds m :
  streaming_auc predictions labels ignore_mask num_thresholds = Ok m ->
  read_only (value_tensor m).
Proof.
  unfold streaming_auc. intro Hm.
  step_construction Hm. step_construction Hm. step_construction Hm.
  step_construction Hm. step_construction Hm.
  apply Ok_inj in Hm. subst m.
  intro s. eexists. reflexivity.
Qed.
End Confusion_sound.

Lemma ordered_metric_sound {S} (m : Metric S) : ordered_metric m -> sound_metric m.
Proof.
  intro Hm. destruct Hm as
    [ v mask m Hm | A NA p l mask m Hm | A NA p l mask m Hm | A NA p l mask m Hm
    | A W FA FW v w m Hm | A W NA FW p l w m Hm | A NA p l mask m Hm
    | A NA p l mask m Hm | p l k mask m Hm
    | W FW p l w m Hm | W FW p l nz w m Hm | W FW p l w m Hm | W FW p l w m Hm
    | W FW p l d w m Hm | v th mask m Hm ].
  - exact (sound_count_condition _ _ _ Hm).
  - destruct (true_positives_inv _ _ _ _ Hm) as [d ->]. apply sound_count.
  - destruct (false_positives_inv _ _ _ _ Hm) as [d ->]. apply sound_count.
  - destruct (false_negatives_inv _ _ _ _ Hm) as [d ->]. apply sound_count.
  - exact (sound_mean _ _ _ Hm).
  - unfold streaming_accuracy in Hm.
    step_construction Hm. step_construction Hm. exact (sound_mean _ _ _ Hm).
  - exact (sound_precision _ _ _ _ Hm).
  - exact (sound_recall _ _ _ _ Hm).
  - exact (sound_mean _ _ _ Hm).
  - unfold streaming_mean_absolute_error in Hm.
    step_construction Hm. step_construction Hm. exact (sound_mean _ _ _ Hm).
  - unfold streaming_mean_relative_error in Hm.
    step_construction Hm. step_construction Hm.
    step_construction Hm. step_construction Hm. exact (sound_mean _ _ _ Hm).
  - unfold streaming_mean_squared_error in Hm.
    step_construction Hm. step_construction Hm. exact (sound_mean _ _ _ Hm).
  - unfold streaming_root_mean_squared_error in Hm.
    step_construction Hm. step_construction Hm. step_construction Hm.
    apply Ok_inj in Hm. subst m. apply sound_map.
    unfold streaming_mean_squared_error in E0.
    step_construction E0. step_construction E0. exact (sound_mean _ _ _ E0).
  - unfold streaming_mean_cosine_distance in Hm.
    step_construction Hm. step_construction Hm. step_construction Hm.
    apply Ok_inj in Hm. subst m. apply sound_map.
    exact (sound_mean _ _ _ E0).
  - exact (sound_mean _ _ _ Hm).
Qed.

Lemma module_metric_read_only {S} (m : Metric S) :
  module_metric m -> read_only (value_tensor m).
Proof.
  intro Hm.
  destruct Hm as
    [ v mask m Hm | A NA p l mask m Hm | A NA p l mask m Hm | A NA p l mask m Hm
    | A W FA FW v w m Hm | A W NA FW p l w m Hm | A NA p l mask m Hm
    | A NA p l mask m Hm | L NL p l mask n m Hm | p l k mask m Hm
    | W FW p l w m Hm | W FW p l nz w m Hm | W FW p l w m Hm | W FW p l w m Hm
    | W FW p l d w m Hm | v th mask m Hm ].
  - exact (proj1 (ordered_metric_sound m (om_count_condition _ _ _ Hm))).
  - exact (proj1 (ordered_metric_sound m (om_true_positives _ _ _ _ _ _ Hm))).
  - exact (proj1 (ordered_metric_sound m (om_false_positives _ _ _ _ _ _ Hm))).
  - exact (proj1 (ordered_metric_sound m (om_false_negatives _ _ _ _ _ _ Hm))).
  - exact (proj1 (ordered_metric_sound m (om_mean _ _ _ _ _ _ _ Hm))).
  - exact (proj1 (ordered_metric_sound m (om_accuracy _ _ _ _ _ _ _ _ Hm))).
  - exact (proj1 (ordered_metric_sound m (om_precision _ _ _ _ _ _ Hm))).
  - exact (proj1 (ordered_metric_sound m (om_recall _ _ _ _ _ _ Hm))).
  - exact (auc_value_read_only _ _ _ _ _ Hm).
  - exact (proj1 (ordered_metric_sound m (om_recall_at_k _ _ _ _ _ Hm))).
  - exact (proj1 (ordered_metric_sound m (om_mean_absolute_error _ _ _ _ _ _ Hm))).
  - exact (proj1 (ordered_metric_sound m
                    (om_mean_relative_error _ _ _ _ _ _ _ Hm))).
  - exact (proj1 (ordered_metric_sound m (om_mean_squared_error _ _ _ _ _ _ Hm))).
  - exact (proj1 (ordered_metric_sound m
                    (om_root_mean_squared_error _ _ _ _ _ _ Hm))).
  - exact (proj1 (ordered_metric_sound m
                    (om_mean_cosine_distance _ _ _ _ _ _ _ Hm))).
  - exact (proj1 (ordered_metric_sound m (om_percentage_less _ _ _ _ Hm))).
Qed.

(** C8: for every metric that a constructor of the module returns,
    evaluating the value leaves every local variable as it is, and two
    evaluations in a row return the same number. *)
Theorem value_never_mutates {S} (m : Metric S) :
  module_metric m -> value_is_idempotent m.
Proof.
  intros Hm s. destruct (module_metric_read_only m Hm s) as [v Hv].
  exists v. split; [exact Hv|].
  unfold bind. rewrite Hv, Hv. reflexivity.
Qed.

(** *** Weights that are all one *)

Lemma Qc_of_Z_plus (a b : Z) : Qc_of_Z (a + b) = Qc_of_Z a + Qc_of_Z b.
Proof.
  apply Qc_is_canon. unfold Qc_of_Z, Qcplus, Q2Qc. cbn [this].
  rewrite !Qred_correct. rewrite inject_Z_plus. reflexivity.
Qed.

Lemma Qc_of_Z_succ (n : nat) :
  Qc_of_Z (Z.of_nat (S n)) = Q2Qc 1 + Qc_of_Z (Z.of_nat n).
Proof.
  rewrite Nat2Z.inj_succ, <- Z.add_1_l. rewrite Qc_of_Z_plus. reflexivity.
Qed.

Lemma sum_list_ones (l : list Qc) :
  Forall (fun w => w = Q2Qc 1) l ->
  sum_list l = Qc_of_Z (Z.of_nat (length l)).
Proof.
  induction 1 as [|w l Hw _ IH].
  - reflexivity.
  - cbn [sum_list fold_right length]. fold (sum_list l).
    rewrite IH, Qc_of_Z_succ, Hw. reflexivity.
Qed.

Lemma map2_mult_ones (vs ws : list Qc) :
  length vs = length ws ->
  Forall (fun w => w = Q2Qc 1) ws ->
  map2 Qcmult vs ws = vs.
Proof.
  revert ws. induction vs as [|v vs IH]; intros [|w ws] Hl Hw; try discriminate.
  - reflexivity.
  - inversion Hw; subst. unfold map2 in *. cbn [combine map fst snd].
    rewrite IH by (try assumption; simpl in Hl; lia).
    rewrite Qcmult_1_r. reflexivity.
Qed.

(** C10: [streaming_mean] with weights that are all one increments [total]
    and [count] by what [streaming_mean] without weights does on the same
    values, so their updates and values agree on every state. *)
Theorem unit_weights_are_no_weights {A W} `{ToFloat A} `{ToFloat W}
    (tv : Tensor A) (tw : Tensor W) :
  same_shape tv tw = true ->
  Forall (fun w => to_float1 w = Q2Qc 1) (elems tw) ->
  sum_list (map2 Qcmult (map to_float1 (elems tv)) (map to_float1 (elems tw)))
    = sum_list (map to_float1 (elems tv)) /\
  sum_list (map to_float1 (elems tw)) = Qc_of_Z (Z.of_nat (length (elems tv))) /\
  exists m1 m2,
    streaming_mean (Value tv) (Some (Value tw)) = Ok m1 /\
    streaming_mean (Value tv) (@None (Node W)) = Ok m2 /\
    init_state m1 = init_state m2 /\
    forall s,
      update_op m1 s = update_op m2 s /\
      value_tensor m1 s = value_tensor m2 s.
Proof.
  intros Hs Hw. destruct (same_shape_dims _ _ Hs) as [_ Hl].
  assert (Hw' : Forall (fun w => w = Q2Qc 1) (map to_float1 (elems tw))).
  { apply Forall_map. exact Hw. }
  assert (E1 : map2 Qcmult (map to_float1 (elems tv)) (map to_float1 (elems tw))
               = map to_float1 (elems tv)).
  { apply map2_mult_ones; [rewrite !length_map; exact Hl | exact Hw']. }
  assert (E2 : sum_list (map to_float1 (elems tw))
               = Qc_of_Z (Z.of_nat (length (elems tv)))).
  { rewrite (sum_list_ones _ Hw'), length_map, Hl. reflexivity. }
  split; [rewrite E1; reflexivity|]. split; [exact E2|].
  destruct (streaming_mean_weighted tv tw Hs) as (m1 & Hm1 & Hi1 & Hv1 & Hu1).
  destruct (streaming_mean_unweighted (W:=W) tv) as (m2 & Hm2 & Hi2 & Hv2 & Hu2).
  exists m1, m2. split; [exact Hm1|]. split; [exact Hm2|].
  split; [congruence|]. intro s. split.
  - rewrite Hu1, Hu2, E1, E2. reflexivity.
  - rewrite Hv1, Hv2. reflexivity.
Qed.

(** *** Confusion counts *)

Lemma Qc_of_nat_plus (a b : nat) : Qc_of_nat (a + b) = Qc_of_nat a + Qc_of_nat b.
Proof. unfold Qc_of_nat. rewrite Nat2Z.inj_add. apply Qc_of_Z_plus. Qed.

Lemma to_float_indicator (b : bool) :
  to_float1 b = Qc_of_nat (if b then 1 else 0).
Proof. destruct b; reflexivity. Qed.

Lemma masked_indicator_sum {A} (f g : A -> bool) (ps ls : list A) (ms : list bool) :
  length ls = length ps -> length ms = length ps ->
  sum_list
    (map to_float1
       (map2 (fun b pr => select1 b (fst pr) (snd pr)) ms
          (map2 pair
             (map (fun _ : bool => false) (map2 andb (map f ls) (map g ps)))
             (map2 andb (map f ls) (map g ps)))))
  = Qc_of_nat (count_positions (fun p l => f l && g p) ps ls ms).
Proof.
  revert ls ms.
  induction ps as [|p ps IH]; intros [|l ls] [|i ms] Hl Hm; try discriminate.
  - reflexivity.
  - specialize (IH ls ms ltac:(simpl in Hl; lia) ltac:(simpl in Hm; lia)).
    unfold map2 in *. cbn [map combine fst snd sum_list fold_right count_positions].
    fold (sum_list
            (map to_float1
               (map (fun p0 => select1 (fst p0) (fst (snd p0)) (snd (snd p0)))
                  (combine ms
                     (map (fun p0 => (fst p0, snd p0))
                        (combine
                           (map (fun _ : bool => false)
                              (map (fun p0 => fst p0 && snd p0)
                                 (combine (map f ls) (map g ps))))
                           (map (fun p0 => fst p0 && snd p0)
                              (combine (map f ls) (map g ps))))))))).
    rewrite IH, Qc_of_nat_plus, to_float_indicator.
    destruct i; reflexivity.
Qed.

Lemma indicator_sum {A} (f g : A -> bool) (ps ls : list A) :
  length ls = length ps ->
  sum_list (map to_float1 (map2 andb (map f ls) (map g ps)))
  = Qc_of_nat (count_positions (fun p l => f l && g p) ps ls
                 (repeat false (length ps))).
Proof.
  revert ls.
  induction ps as [|p ps IH]; intros [|l ls] Hl; try discriminate.
  - reflexivity.
  - specialize (IH ls ltac:(simpl in Hl; lia)).
    unfold map2 in *.
    cbn [map combine fst snd sum_list fold_right count_positions length repeat].
    fold (sum_list
            (map to_float1
               (map (fun p0 => fst p0 && snd p0) (combine (map f ls) (map g ps))))).
    rewrite IH, Qc_of_nat_plus, to_float_indicator. reflexivity.
Qed.

Lemma dims_eqb_eq (a b : list nat) : dims_eqb a b = true <-> a = b.
Proof.
  revert b. induction a as [|x a IH]; intros [|y b]; simpl;
    try (split; intro; (reflexivity || discriminate)).
  rewrite andb_true_iff, Nat.eqb_eq, IH. split.
  - intros [-> ->]. reflexivity.
  - intro E. inversion E. auto.
Qed.

Lemma same_shape_iff {A B} (a : Tensor A) (b : Tensor B) :
  same_shape a b = true <->
  dims a = dims b /\ length (elems a) = length (elems b).
Proof.
  unfold same_shape. rewrite andb_true_iff, dims_eqb_eq, Nat.eqb_eq. tauto.
Qed.

Lemma length_map2 {A B C} (f : A -> B -> C) (xs : list A) (ys : list B) :
  length xs = length ys -> length (map2 f xs ys) = length xs.
Proof.
  intro Hl. unfold map2. rewrite length_map, length_combine, Hl.
  apply Nat.min_id.
Qed.

Lemma remove_squeezable_same_dims {A B} (a : Tensor A) (b : Tensor B) :
  dims a = dims b ->
  _remove_squeezable_dimensions (Value a) (Value b) = Ok (Value a, Value b).
Proof.
  intro Hd. unfold _remove_squeezable_dimensions, get_shape, ndims.
  destruct (shape_known a), (shape_known b); try reflexivity.
  rewrite Hd.
  replace (Nat.eqb (length (dims b)) (length (dims b) + 1)) with false
    by (symmetry; apply Nat.eqb_neq; lia).
  reflexivity.
Qed.

Section Confusion_counts.
Context {A : Type} `{Numeric A}.

Lemma confusion_count (c1 c2 : Z) (tpred tlab : Tensor A)
    (mask : option (Tensor bool)) :
  same_shape tpred tlab = true ->
  mask_fits tpred mask ->
  _count_condition
    (logical_and (equal_const (Value tlab) c1) (equal_const (Value tpred) c2))
    (mask_node mask)
  = Ok (mkMetric (Q2Qc 0) (read the_count)
          (x <- eval (Some (Qc_of_nat
                              (count_positions
                                 (fun p l => equal1 l (of_int c1)
                                             && equal1 p (of_int c2))
                                 (elems tpred) (elems tlab)
                                 (ignored_positions mask
                                    (length (elems tpred)))))) ;;
           assign_add the_count x)).
Proof.
  intros Hs Hm. apply same_shape_iff in Hs. destruct Hs as [Hd Hl].
  unfold logical_and, equal_const. cbn [map_node].
  rewrite zip_node_values
    by (apply same_shape_iff; cbn [dims elems]; rewrite !length_map; auto).
  cbn [dims elems shape_known].
  unfold _count_condition. destruct mask as [tm|]; cbn [mask_node mask_fits] in *.
  - apply same_shape_iff in Hm. destruct Hm as [Hdm Hlm].
    rewrite (dims_compatible (mkTensor _ _ _) tm)
      by (apply dims_eqb_eq; cbn [dims]; congruence).
    cbn [rbind]. unfold select, zeros_like. cbn [map_node].
    rewrite zip_node_values
      by (apply same_shape_iff; cbn [dims elems]; rewrite !length_map; auto).
    rewrite zip_node_values.
    2:{ apply same_shape_iff; cbn [dims elems]. split; [congruence|].
        rewrite length_map2 by (rewrite length_map; reflexivity).
        rewrite length_map, length_map2 by (rewrite !length_map; auto).
        rewrite length_map. congruence. }
    unfold to_float. cbn [map_node reduce_sum elems ignored_positions].
    rewrite masked_indicator_sum by congruence.
    reflexivity.
  - cbn [rbind]. unfold to_float. cbn [map_node reduce_sum elems ignored_positions].
    rewrite indicator_sum by congruence.
    reflexivity.
Qed.
End Confusion_counts.

Lemma select_ratio (a b : Qc) :
  (Q2Qc 0 < b -> select1 (greater b (Q2Qc 0)) (tf_div a b) (Q2Qc 0) = a / b) /\
  (~ Q2Qc 0 < b -> select1 (greater b (Q2Qc 0)) (tf_div a b) (Q2Qc 0) = Q2Qc 0).
Proof.
  split; intro Hb.
  - rewrite (proj2 (greater_0_iff _) Hb). cbn [select1].
    apply tf_div_nonzero. intro E. rewrite E in Hb.
    exact (Qclt_not_le _ _ Hb (Qcle_refl _)).
  - destruct (greater b (Q2Qc 0)) eqn:G; [|reflexivity].
    apply greater_0_iff in G. contradiction.
Qed.

(** C3: precision and recall count, among the positions that the mask does
    not ignore, the true positives (label 1 and prediction 1), the false
    positives (label 0 and prediction 1) and the false negatives (label 1
    and prediction 0); the mask removes the indicator of an ignored
    position from the sums.  Precision is [TP/(TP+FP)] and recall is
    [TP/(TP+FN)] when the denominator is positive.  On predictions
    [1,1,0,0] and labels [1,0,1,0] both are 1/2. *)
Theorem precision_recall_from_confusion_counts {A} `{Numeric A}
    (tpred tlab : Tensor A) (mask : option (Tensor bool)) :
  same_shape tpred tlab = true ->
  mask_fits tpred mask ->
  let ignored := ignored_positions mask (length (elems tpred)) in
  let TP := Qc_of_nat (count_positions true_positive (elems tpred) (elems tlab) ignored) in
  let FP := Qc_of_nat (count_positions false_positive (elems tpred) (elems tlab) ignored) in
  let FN := Qc_of_nat (count_positions false_negative (elems tpred) (elems tlab) ignored) in
  (exists m,
     streaming_precision (Value tpred) (Value tlab) (mask_node mask) = Ok m /\
     (forall s, exists u,
        update_op m s =
        Some (u, mkPrecisionVars (precision_true_positives s + TP)
                   (precision_false_positives s + FP))) /\
     (forall s,
        let tp := precision_true_positives s in
        let fp := precision_false_positives s in
        (Q2Qc 0 < tp + fp -> value_tensor m s = Some (tp / (tp + fp), s)) /\
        (~ Q2Qc 0 < tp + fp -> value_tensor m s = Some (Q2Qc 0, s)))) /\
  (exists m,
     streaming_recall (Value tpred) (Value tlab) (mask_node mask) = Ok m /\
     (forall s, exists u,
        update_op m s =
        Some (u, mkRecallVars (recall_true_positives s + TP)
                   (recall_false_negatives s + FN))) /\
     (forall s,
        let tp := recall_true_positives s in
        let fn := recall_false_negatives s in
        (Q2Qc 0 < tp + fn -> value_tensor m s = Some (tp / (tp + fn), s)) /\
        (~ Q2Qc 0 < tp + fn -> value_tensor m s = Some (Q2Qc 0, s)))) /\
  update_then_value
    (streaming_precision (vector [1; 1; 0; 0]%Z) (vector [1; 0; 1; 0]%Z) None)
    = Some (Q2Qc (1 # 2), Q2Qc (1 # 2)) /\
  update_then_value
    (streaming_recall (vector [1; 1; 0; 0]%Z) (vector [1; 0; 1; 0]%Z) None)
    = Some (Q2Qc (1 # 2), Q2Qc (1 # 2)).
Proof.
  intros Hs Hm ignored TP FP FN.
  pose proof (proj1 (same_shape_iff _ _) Hs) as [Hd Hl].
  assert (Hc : is_compatible_with (get_shape (Value tpred)) (get_shape (Value tlab))
               = true) by (apply dims_compatible, dims_eqb_eq, Hd).
  split; [|split; [|split]].
  - unfold streaming_precision.
    rewrite (remove_squeezable_same_dims _ _ Hd). cbn [rbind fst snd].
    rewrite Hc. unfold _streaming_true_positives, _streaming_false_positives.
    rewrite Hc, !(confusion_count _ _ _ _ _ Hs Hm). cbn [rbind].
    eexists. split; [reflexivity|]. cbn [update_op value_tensor]. split.
    + intros [tp fp]. eexists. reflexivity.
    + intros [tp fp]. cbn.
      unfold bind, scoped, read, ret. cbn. split; intro Hpos.
      * rewrite (proj1 (select_ratio tp (tp + fp)) Hpos). reflexivity.
      * rewrite (proj2 (select_ratio tp (tp + fp)) Hpos). reflexivity.
  - unfold streaming_recall.
    rewrite (remove_squeezable_same_dims _ _ Hd). cbn [rbind fst snd].
    rewrite Hc. unfold _streaming_true_positives, _streaming_false_negatives.
    rewrite Hc, !(confusion_count _ _ _ _ _ Hs Hm). cbn [rbind].
    eexists. split; [reflexivity|]. cbn [update_op value_tensor]. split.
    + intros [tp fn]. eexists. reflexivity.
    + intros [tp fn]. cbn.
      unfold bind, scoped, read, ret. cbn. split; intro Hpos.
      * rewrite (proj1 (select_ratio tp (tp + fn)) Hpos). reflexivity.
      * rewrite (proj2 (select_ratio tp (tp + fn)) Hpos). reflexivity.
  - vm_compute. apply some_pair_Qc; reflexivity.
  - vm_compute. apply some_pair_Qc; reflexivity.
Qed.

(** *** Zero denominators *)

Lemma Qclt_irrefl_0 : ~ Q2Qc 0 < Q2Qc 0.
Proof. intro Hlt. exact (Qclt_not_le _ _ Hlt (Qcle_refl _)). Qed.

Lemma plain_mean_metric_value (m : Metric MeanVars) :
  plain_mean_metric m -> value_tensor m = compute_mean total_var count_var.
Proof.
  intro Hm.
  assert (Hinv : forall A W (FA : ToFloat A) (FW : ToFloat W)
                   (v : Node A) (w : option (Node W)),
             streaming_mean v w = Ok m ->
             value_tensor m = compute_mean total_var count_var).
  { intros A W FA FW v w Hv.
    destruct (streaming_mean_inv _ _ _ Hv) as [deps ->]. reflexivity. }
  destruct Hm as
    [ A W FA FW v w m Hm | A W NA FW p l w m Hm | p l k mask m Hm
    | W FW p l w m Hm | W FW p l nz w m Hm | W FW p l w m Hm | v th mask m Hm ].
  - exact (Hinv _ _ _ _ _ _ Hm).
  - unfold streaming_accuracy in Hm.
    step_construction Hm. step_construction Hm. exact (Hinv _ _ _ _ _ _ Hm).
  - exact (Hinv _ _ _ _ _ _ Hm).
  - unfold streaming_mean_absolute_error in Hm.
    step_construction Hm. step_construction Hm. exact (Hinv _ _ _ _ _ _ Hm).
  - unfold streaming_mean_relative_error in Hm.
    step_construction Hm. step_construction Hm.
    step_construction Hm. step_construction Hm. exact (Hinv _ _ _ _ _ _ Hm).
  - unfold streaming_mean_squared_error in Hm.
    step_construction Hm. step_construction Hm. exact (Hinv _ _ _ _ _ _ Hm).
  - exact (Hinv _ _ _ _ _ _ Hm).
Qed.

Lemma compute_mean_zero_count (s : MeanVars) :
  count s = Q2Qc 0 -> compute_mean total_var count_var s = Some (Q2Qc 0, s).
Proof.
  intro Hc. apply (proj2 (compute_mean_spec s)).
  rewrite Hc. exact Qclt_irrefl_0.
Qed.

(** C5, as the code has it: when the denominator is exactly zero, the value
    is exactly [0], whatever the division by zero yields, for the metrics
    that report a [streaming_mean] as it is, for precision ([TP+FP = 0]),
    for recall ([TP+FN = 0]) and for the root mean squared error; the mean
    cosine distance reports [1 - 0 = 1]. *)
Theorem zero_denominator_value :
  (forall m s, plain_mean_metric m -> count s = Q2Qc 0 ->
     value_tensor m s = Some (Q2Qc 0, s)) /\
  (forall A (NA : Numeric A) (p l : Node A) mask m s,
     streaming_precision p l mask = Ok m ->
     precision_true_positives s + precision_false_positives s = Q2Qc 0 ->
     value_tensor m s = Some (Q2Qc 0, s)) /\
  (forall A (NA : Numeric A) (p l : Node A) mask m s,
     streaming_recall p l mask = Ok m ->
     recall_true_positives s + recall_false_negatives s = Q2Qc 0 ->
     value_tensor m s = Some (Q2Qc 0, s)) /\
  (forall W (FW : ToFloat W) p l (w : option (Node W)) m s,
     streaming_root_mean_squared_error p l w = Ok m -> count s = Q2Qc 0 ->
     value_tensor m s = Some (Q2Qc 0, s)) /\
  (forall W (FW : ToFloat W) p l dim (w : option (Node W)) m s,
     streaming_mean_cosine_distance p l dim w = Ok m -> count s = Q2Qc 0 ->
     value_tensor m s = Some (Q2Qc 1, s)).
Proof.
  split; [|split; [|split; [|split]]].
  - intros m s Hm Hc. rewrite (plain_mean_metric_value m Hm).
    apply compute_mean_zero_count, Hc.
  - intros A NA p l mask m [tp fp] Hm Hz. cbn in Hz.
    unfold streaming_precision in Hm.
    step_construction Hm. step_construction Hm.
    step_construction Hm. step_construction Hm.
    apply Ok_inj in Hm. subst m.
    destruct (true_positives_inv _ _ _ _ E0) as [d1 ->].
    destruct (false_positives_inv _ _ _ _ E1) as [d2 ->].
    cbn. unfold bind, scoped, read, ret. cbn.
    rewrite (proj2 (select_ratio tp (tp + fp)))
      by (rewrite Hz; exact Qclt_irrefl_0).
    reflexivity.
  - intros A NA p l mask m [tp fn] Hm Hz. cbn in Hz.
    unfold streaming_recall in Hm.
    step_construction Hm. step_construction Hm.
    step_construction Hm. step_construction Hm.
    apply Ok_inj in Hm. subst m.
    destruct (true_positives_inv _ _ _ _ E0) as [d1 ->].
    destruct (false_negatives_inv _ _ _ _ E1) as [d2 ->].
    cbn. unfold bind, scoped, read, ret. cbn.
    rewrite (proj2 (select_ratio tp (tp + fn)))
      by (rewrite Hz; exact Qclt_irrefl_0).
    reflexivity.
  - intros W FW p l w m s Hm Hc.
    unfold streaming_root_mean_squared_error in Hm.
    step_construction Hm. step_construction Hm. step_construction Hm.
    apply Ok_inj in Hm. subst m.
    assert (Hp : plain_mean_metric m0) by (eapply pm_mean_squared_error; exact E0).
    cbn [value_tensor]. unfold bind.
    rewrite (plain_mean_metric_value m0 Hp), (compute_mean_zero_count s Hc).
    unfold ret. rewrite sqrt_zero. reflexivity.
  - intros W FW p l dim w m s Hm Hc.
    unfold streaming_mean_cosine_distance in Hm.
    step_construction Hm. step_construction Hm. step_construction Hm.
    apply Ok_inj in Hm. subst m.
    assert (Hp : plain_mean_metric m0) by exact (pm_mean _ _ _ _ _ _ _ E0).
    cbn [value_tensor]. unfold bind.
    rewrite (plain_mean_metric_value m0 Hp), (compute_mean_zero_count s Hc).
    unfold ret.
    replace (Q2Qc 1 - Q2Qc 0) with (Q2Qc 1) by (apply Qc_is_canon; reflexivity).
    reflexivity.
Qed.

(** *** Shape alignment *)

Lemma squeeze_last_snoc {A} (k : bool) (ds : list nat) (d : nat) (xs : list A) :
  squeeze_last (Value (mkTensor k (ds ++ [d]) xs)) =
  if Nat.eqb d 1 then Ok (Value (mkTensor k ds xs)) else ValueError.
Proof.
  unfold squeeze_last. cbn [dims shape_known elems].
  rewrite rev_app_distr. cbn [rev app].
  destruct d as [|[|d]]; cbn; try reflexivity.
  rewrite rev_involutive. reflexivity.
Qed.

Lemma remove_squeezable_labels {A B} (p : Tensor A) (ds : list nat)
    (d : nat) (xs : list B) :
  shape_known p = true -> length ds = length (dims p) ->
  _remove_squeezable_dimensions (Value p) (Value (mkTensor true (ds ++ [d]) xs)) =
  if Nat.eqb d 1 then Ok (Value p, Value (mkTensor true ds xs)) else ValueError.
Proof.
  intros Hp Hl. unfold _remove_squeezable_dimensions, get_shape, ndims.
  cbn [shape_known dims]. rewrite Hp.
  rewrite length_app. cbn [length]. rewrite Hl, Nat.eqb_refl.
  rewrite squeeze_last_snoc. destruct (Nat.eqb d 1); reflexivity.
Qed.

Lemma remove_squeezable_predictions {A B} (l : Tensor B) (ds : list nat)
    (d : nat) (xs : list A) :
  shape_known l = true -> length ds = length (dims l) ->
  _remove_squeezable_dimensions (Value (mkTensor true (ds ++ [d]) xs)) (Value l) =
  if Nat.eqb d 1 then Ok (Value (mkTensor true ds xs), Value l) else ValueError.
Proof.
  intros Hk Hl. unfold _remove_squeezable_dimensions, get_shape, ndims.
  cbn [shape_known dims]. rewrite Hk.
  rewrite length_app. cbn [length]. rewrite Hl.
  replace (Nat.eqb (length (dims l)) (length (dims l) + 1 + 1)) with false
    by (symmetry; apply Nat.eqb_neq; lia).
  rewrite Nat.eqb_refl.
  rewrite squeeze_last_snoc. destruct (Nat.eqb d 1); reflexivity.
Qed.

(** C6, as the code has it: when the known ranks differ by exactly one and
    the last dimension of the array of higher rank has size one, that
    dimension is dropped, the elements and the other array staying as they
    are, and the shape validation that follows sees the squeezed shape;
    when that last dimension has another size the squeeze is rejected;
    when the ranks are equal both arrays are returned unchanged. *)
Theorem squeezable_dimensions_rule {A B} (p : Tensor A) (l : Tensor B) :
  shape_known p = true -> shape_known l = true ->
  (forall ds d, dims l = ds ++ [d] -> length ds = length (dims p) ->
     _remove_squeezable_dimensions (Value p) (Value l) =
     if Nat.eqb d 1 then Ok (Value p, Value (mkTensor true ds (elems l)))
     else ValueError) /\
  (forall ds d, dims p = ds ++ [d] -> length ds = length (dims l) ->
     _remove_squeezable_dimensions (Value p) (Value l) =
     if Nat.eqb d 1 then Ok (Value (mkTensor true ds (elems p)), Value l)
     else ValueError) /\
  (length (dims p) = length (dims l) ->
     _remove_squeezable_dimensions (Value p) (Value l) = Ok (Value p, Value l)) /\
  (dims l = dims p ++ [1%nat] ->
     is_compatible_with (get_shape (Value p)) (get_shape (Value l)) = false /\
     is_compatible_with (get_shape (Value p))
       (get_shape (Value (mkTensor true (dims p) (elems l)))) = true).
Proof.
  intros Hp Hl. split; [|split; [|split]].
  - intros ds d Hd Hlen. destruct l as [kl dl xl]. cbn in *. subst.
    apply remove_squeezable_labels; assumption.
  - intros ds d Hd Hlen. destruct p as [kp dp xp]. cbn in *. subst.
    apply remove_squeezable_predictions; assumption.
  - intro Hr. unfold _remove_squeezable_dimensions, get_shape, ndims.
    rewrite Hp, Hl, Hr.
    replace (Nat.eqb (length (dims l)) (length (dims l) + 1)) with false
      by (symmetry; apply Nat.eqb_neq; lia).
    reflexivity.
  - intro Hd. unfold is_compatible_with, get_shape. cbn [shape_known dims].
    rewrite Hp, Hl, Hd. split.
    + destruct (dims_eqb (dims p) (dims p ++ [1%nat])) eqn:E; [|reflexivity].
      apply dims_eqb_eq in E. apply (f_equal (@length nat)) in E.
      rewrite length_app in E. cbn in E. lia.
    + apply dims_eqb_eq. reflexivity.
Qed.

(** *** The rank assertions of [streaming_auc] *)

(** C7, at predictions and labels of rank 2: the assertion on the rank
    fails when it is run, yet [streaming_auc] builds the metric, and its
    update runs and changes the accumulators. *)
Theorem auc_accepts_rank_2 :
  @Assert AucVars (option_map (Nat.eqb 1) (rank rank2_predictions))
    (mkAucVars [] [] [] []) = None /\
  exists m u s',
    streaming_auc rank2_predictions rank2_labels None 3 = Ok m /\
    update_op m (init_state m) = Some (u, s') /\
    map this (true_positives (init_state m)) = [0; 0; 0]%Q /\
    map this (true_positives s') = [2; 2; 0]%Q.
Proof.
  split; [reflexivity|].
  destruct (streaming_auc rank2_predictions rank2_labels None 3) as [m| | |] eqn:Em;
    try (vm_compute in Em; discriminate Em).
  destruct (update_op m (init_state m)) as [[u s']|] eqn:Eu.
  - exists m, u, s'. split; [reflexivity|]. split; [exact Eu|].
    apply Ok_inj in Em. subst m. split; [reflexivity|].
    vm_compute in Eu. inversion Eu. reflexivity.
  - apply Ok_inj in Em. subst m. vm_compute in Eu. discriminate Eu.
Qed.

(** *** Monotone accumulators *)

Lemma Forall_map2 {A B C} (PA : A -> Prop) (PB : B -> Prop) (P : C -> Prop)
    (f : A -> B -> C) (xs : list A) (ys : list B) :
  (forall x y, PA x -> PB y -> P (f x y)) ->
  Forall PA xs -> Forall PB ys -> Forall P (map2 f xs ys).
Proof.
  intros Hf Hx. revert ys.
  induction Hx as [|x xs Hx _ IH]; intros ys Hy.
  - constructor.
  - destruct Hy as [|y ys Hy Hys]; [constructor|].
    unfold map2. cbn [combine map fst snd]. constructor.
    + apply Hf; assumption.
    + apply IH. exact Hys.
Qed.

Lemma Forall_True {A} (l : list A) : Forall (fun _ => True) l.
Proof. induction l; constructor; auto. Qed.

Lemma Qc_0_le_1 : Q2Qc 0 <= Q2Qc 1.
Proof. unfold Qcle. cbn. discriminate. Qed.

Lemma Qcle_plus_nonneg (x d : Qc) : Q2Qc 0 <= d -> x <= x + d.
Proof.
  intro Hd. rewrite <- (Qcplus_0_r x) at 1.
  apply Qcplus_le_compat; [apply Qcle_refl | exact Hd].
Qed.

Lemma sum_list_nonneg (l : list Qc) :
  Forall (fun x => Q2Qc 0 <= x) l -> Q2Qc 0 <= sum_list l.
Proof.
  induction 1 as [|x l Hx _ IH]; cbn.
  - apply Qcle_refl.
  - fold (sum_list l). rewrite <- (Qcplus_0_r (Q2Qc 0)).
    apply Qcplus_le_compat; assumption.
Qed.

Lemma indicator_nonneg (n : Node Qc) : indicator_node n -> nonneg_node n.
Proof.
  destruct n as [t|]; [|trivial]. cbn. intro Hi.
  eapply Forall_impl; [|exact Hi].
  intros x [-> | ->]; [apply Qcle_refl | exact Qc_0_le_1].
Qed.

Lemma to_float_indicator_node (n : Node bool) : indicator_node (to_float n).
Proof.
  destruct n as [t|]; [|exact I]. cbn. apply Forall_map.
  apply Forall_forall. intros [|] _; [right | left]; reflexivity.
Qed.

Lemma select_zeros_indicator {A} (mask : Node bool) (like : Node A) (n : Node Qc) :
  indicator_node n -> indicator_node (select mask (zeros_like (Q2Qc 0) like) n).
Proof.
  intro Hn. unfold select, zeros_like.
  destruct mask as [tm|], like as [tl|], n as [t|]; cbn; try exact I.
  destruct (same_shape _ t); cbn; [|exact I].
  destruct (same_shape tm _); cbn; [|exact I].
  apply (Forall_map2 (fun _ => True)
           (fun p => fst p = Q2Qc 0 /\ (snd p = Q2Qc 0 \/ snd p = Q2Qc 1))).
  - intros b [z x] _ [Hz Hx]. cbn in *. destruct b; cbn; auto.
  - apply Forall_True.
  - apply (Forall_map2 (fun z => z = Q2Qc 0)
             (fun x => x = Q2Qc 0 \/ x = Q2Qc 1)).
    + intros z x Hz Hx. cbn. auto.
    + apply Forall_map. apply Forall_forall. reflexivity.
    + exact Hn.
Qed.

Lemma Forall_firstn_skipn {A} (P : A -> Prop) (n : nat) (l : list A) :
  Forall P l -> Forall P (firstn n l) /\ Forall P (skipn n l).
Proof.
  intro Hl. rewrite <- (firstn_skipn n l) in Hl.
  apply Forall_app in Hl. exact Hl.
Qed.

Lemma Forall_chunks {A} (P : A -> Prop) (n k : nat) (l : list A) :
  Forall P l -> Forall (Forall P) (chunks n k l).
Proof.
  revert l. induction k as [|k IH]; intros l Hl; cbn; constructor.
  - apply (Forall_firstn_skipn P n l Hl).
  - apply IH. apply (Forall_firstn_skipn P n l Hl).
Qed.

Lemma sum_rows_nonneg (inner : nat) (rows : list (list Qc)) :
  Forall (Forall (fun x => Q2Qc 0 <= x)) rows ->
  Forall (fun x => Q2Qc 0 <= x) (sum_rows inner rows).
Proof.
  unfold sum_rows. induction 1 as [|r rows Hr _ IH]; cbn.
  - apply Forall_forall. intros x Hx. apply repeat_spec in Hx. subst.
    apply Qcle_refl.
  - apply (Forall_map2 (fun x => Q2Qc 0 <= x) (fun x => Q2Qc 0 <= x));
      try assumption.
    intros x y Hx Hy. rewrite <- (Qcplus_0_r (Q2Qc 0)).
    apply Qcplus_le_compat; assumption.
Qed.

Lemma reduce_sum_axis_nonneg (axis : nat) (keep : bool) (n : Node Qc) :
  nonneg_node n -> nonneg_node (reduce_sum_axis axis keep n).
Proof.
  destruct n as [t|]; [|trivial]. intro Hn. unfold reduce_sum_axis.
  destruct (Nat.ltb axis (length (dims t))); [|exact I].
  unfold nonneg_node in *. cbn [elems].
  apply Forall_flat_map.
  eapply Forall_impl; [|apply Forall_chunks; exact Hn].
  cbv beta.
  intros block Hb. apply sum_rows_nonneg, Forall_chunks, Hb.
Qed.

Lemma map2_plus_le (old delta : list Qc) :
  length delta = length old ->
  Forall (fun x => Q2Qc 0 <= x) delta ->
  vector_le old (map2 Qcplus old delta).
Proof.
  revert delta. induction old as [|x old IH]; intros [|d delta] Hl Hd;
    try discriminate.
  - constructor.
  - inversion Hd; subst. unfold map2. cbn [combine map fst snd]. constructor.
    + apply Qcle_plus_nonneg. assumption.
    + apply IH; [cbn in Hl; lia | assumption].
Qed.

Lemma assign_add_vector_le {S} (v : Var S (list Qc)) (delta : Node Qc) s x s' :
  nonneg_node delta ->
  assign_add_vector v delta s = Some (x, s') ->
  vector_le (var_get v s) x /\ s' = var_set v x s.
Proof.
  intros Hd Ha. unfold assign_add_vector in Ha.
  destruct delta as [t|]; [|discriminate].
  destruct (dims_eqb _ _ && Nat.eqb _ _) eqn:E; [|discriminate].
  apply andb_true_iff in E. destruct E as [_ E]. apply Nat.eqb_eq in E.
  inversion Ha; subst. split; [|reflexivity].
  apply map2_plus_le; assumption.
Qed.

Lemma vector_le_refl (a : list Qc) : vector_le a a.
Proof. induction a; constructor; [apply Qcle_refl | assumption]. Qed.

Lemma vector_le_trans (a b c : list Qc) :
  vector_le a b -> vector_le b c -> vector_le a c.
Proof.
  intro Hab. revert c. induction Hab as [|x y a b Hxy _ IH]; intros c Hbc.
  - inversion Hbc. constructor.
  - inversion Hbc; subst. constructor.
    + eapply Qcle_trans; eassumption.
    + apply IH. assumption.
Qed.

Lemma auc_le_refl (s : AucVars) : auc_le s s.
Proof. repeat split; apply vector_le_refl. Qed.

Lemma auc_le_trans (a b c : AucVars) : auc_le a b -> auc_le b c -> auc_le a c.
Proof.
  intros (H1 & H2 & H3 & H4) (K1 & K2 & K3 & K4).
  repeat split; eapply vector_le_trans; eassumption.
Qed.

Lemma count_metric_inv (m : Metric Qc) :
  count_metric m ->
  exists v : Node bool,
    m = mkMetric (Q2Qc 0) (read the_count)
          (x <- eval (reduce_sum (to_float v)) ;; assign_add the_count x).
Proof.
  assert (Hcc : forall values ignore_mask,
             _count_condition values ignore_mask = Ok m ->
             exists v : Node bool,
               m = mkMetric (Q2Qc 0) (read the_count)
                     (x <- eval (reduce_sum (to_float v)) ;;
                      assign_add the_count x)).
  { intros values ignore_mask Hm. unfold _count_condition in Hm.
    step_construction Hm. apply Ok_inj in Hm. subst m.
    eexists. reflexivity. }
  intro Hm. destruct Hm as [v mask m Hm | A NA p l mask m Hm
                           | A NA p l mask m Hm | A NA p l mask m Hm].
  - exact (Hcc _ _ Hm).
  - unfold _streaming_true_positives in Hm. step_construction Hm.
    exact (Hcc _ _ Hm).
  - unfold _streaming_false_positives in Hm. step_construction Hm.
    exact (Hcc _ _ Hm).
  - unfold _streaming_false_negatives in Hm. step_construction Hm.
    exact (Hcc _ _ Hm).
Qed.

Lemma count_metric_step (m : Metric Qc) (s : Qc) u s' :
  count_metric m -> update_op m s = Some (u, s') -> s <= s'.
Proof.
  intros Hm Hu. destruct (count_metric_inv m Hm) as [v ->].
  cbn [update_op] in Hu. unfold bind, eval, assign_add in Hu.
  destruct v as [t|]; [|discriminate]. cbn in Hu. inversion Hu; subst.
  apply Qcle_plus_nonneg, sum_list_nonneg.
  apply (indicator_nonneg (to_float (Value t))), to_float_indicator_node.
Qed.

Lemma auc_metric_inv (num_thresholds : nat) (m : Metric AucVars) :
  auc_metric num_thresholds m ->
  exists i1 i2 i3 i4 : Node Qc,
    indicator_node i1 /\ indicator_node i2 /\
    indicator_node i3 /\ indicator_node i4 /\
    m = mkMetric
          (mkAucVars (_create_local [num_thresholds])
             (_create_local [num_thresholds])
             (_create_local [num_thresholds])
             (_create_local [num_thresholds]))
          (compute_auc read_now num_thresholds)
          (fun before =>
             control_dependencies
               [assign_add_vector tp_var (reduce_sum_axis 1 false i1);
                assign_add_vector fn_var (reduce_sum_axis 1 false i2);
                assign_add_vector tn_var (reduce_sum_axis 1 false i3);
                assign_add_vector fp_var (reduce_sum_axis 1 false i4)]
               (compute_auc (read_unordered before) num_thresholds) before).
Proof.
  intros [L NL p l mask m0 Hm]. unfold streaming_auc in Hm.
  step_construction Hm. step_construction Hm. step_construction Hm.
  step_construction Hm. step_construction Hm.
  apply Ok_inj in Hm. subst m0.
  exists (ind_true_positive i), (ind_false_negative i),
         (ind_true_negative i), (ind_false_positive i).
  assert (Hi : indicator_node (ind_true_positive i) /\
               indicator_node (ind_false_negative i) /\
               indicator_node (ind_true_negative i) /\
               indicator_node (ind_false_positive i)).
  { destruct mask as [tm|].
    - step_construction E0. apply Ok_inj in E0. subst i.
      cbn [ind_true_positive ind_false_negative ind_true_negative
             ind_false_positive].
      repeat split; apply select_zeros_indicator, to_float_indicator_node.
    - apply Ok_inj in E0. subst i.
      cbn [ind_true_positive ind_false_negative ind_true_negative
             ind_false_positive].
      repeat split; apply to_float_indicator_node. }
  destruct Hi as (H1 & H2 & H3 & H4).
  repeat (split; [assumption|]). reflexivity.
Qed.

Lemma auc_metric_step (num_thresholds : nat) (m : Metric AucVars) s u s' :
  auc_metric num_thresholds m -> update_op m s = Some (u, s') -> auc_le s s'.
Proof.
  intros Hm Hu.
  destruct (auc_metric_inv _ _ Hm) as (i1 & i2 & i3 & i4 & H1 & H2 & H3 & H4 & ->).
  cbn [update_op control_dependencies] in Hu. unfold bind in Hu.
  destruct (assign_add_vector tp_var _ s) as [[x1 s1]|] eqn:E1; [|discriminate].
  destruct (assign_add_vector fn_var _ s1) as [[x2 s2]|] eqn:E2; [|discriminate].
  destruct (assign_add_vector tn_var _ s2) as [[x3 s3]|] eqn:E3; [|discriminate].
  destruct (assign_add_vector fp_var _ s3) as [[x4 s4]|] eqn:E4; [|discriminate].
  apply assign_add_vector_le in E1, E2, E3, E4;
    try (apply reduce_sum_axis_nonneg, indicator_nonneg; assumption).
  destruct E1 as [L1 ->], E2 as [L2 ->], E3 as [L3 ->], E4 as [L4 ->].
  unfold compute_auc, false_positive_rate, recall, read_unordered, bind, ret
    in Hu.
  inversion Hu; subst. cbn in *.
  repeat split; assumption.
Qed.

Lemma count_metric_increment (m : Metric Qc) (s : Qc) u s' :
  count_metric m -> update_op m s = Some (u, s') ->
  exists terms,
    Forall (fun x => x = Q2Qc 0 \/ x = Q2Qc 1) terms /\ s' = s + sum_list terms.
Proof.
  intros Hm Hu. destruct (count_metric_inv m Hm) as [v ->].
  cbn [update_op] in Hu. unfold bind, eval, assign_add in Hu.
  destruct v as [t|]; [|discriminate]. cbn in Hu. inversion Hu; subst.
  exists (map to_float1 (elems t)). split; [|reflexivity].
  exact (to_float_indicator_node (Value t)).
Qed.

(** C9: the count of [_count_condition] and the four confusion vectors of
    [streaming_auc] start at zero; an update adds to the count a sum of
    terms that are each 0 or 1; and over any sequence of updates no
    accumulator decreases. *)
Theorem count_accumulators_monotone :
  (forall m, count_metric m -> init_state m = Q2Qc 0) /\
  (forall m s u s', count_metric m -> update_op m s = Some (u, s') ->
     exists terms,
       Forall (fun x => x = Q2Qc 0 \/ x = Q2Qc 1) terms /\
       s' = s + sum_list terms) /\
  (forall ms s s', Forall count_metric ms -> run_updates ms s = Some s' ->
     s <= s') /\
  (forall T m, auc_metric T m ->
     init_state m = mkAucVars (repeat (Q2Qc 0) T) (repeat (Q2Qc 0) T)
                      (repeat (Q2Qc 0) T) (repeat (Q2Qc 0) T)) /\
  (forall T ms s s', Forall (auc_metric T) ms -> run_updates ms s = Some s' ->
     auc_le s s').
Proof.
  split; [|split; [|split; [|split]]].
  - intros m Hm. destruct (count_metric_inv m Hm) as [v ->]. reflexivity.
  - intros m s u s' Hm Hu. exact (count_metric_increment m s u s' Hm Hu).
  - intros ms. induction ms as [|m ms IH]; intros s s' Hms Hr; cbn in Hr.
    + inversion Hr. apply Qcle_refl.
    + inversion Hms; subst.
      destruct (update_op m s) as [[u s1]|] eqn:Eu; [|discriminate].
      eapply Qcle_trans.
      * eapply count_metric_step; eassumption.
      * apply IH; assumption.
  - intros T m Hm.
    destruct (auc_metric_inv _ _ Hm) as (i1 & i2 & i3 & i4 & _ & _ & _ & _ & ->).
    cbn [init_state]. unfold _create_local, zeros. cbn [fold_right].
    rewrite Nat.mul_1_r. reflexivity.
  - intros T ms. induction ms as [|m ms IH]; intros s s' Hms Hr; cbn in Hr.
    + inversion Hr. apply auc_le_refl.
    + inversion Hms; subst.
      destruct (update_op m s) as [[u s1]|] eqn:Eu; [|discriminate].
      eapply auc_le_trans.
      * eapply auc_metric_step; eassumption.
      * apply IH; assumption.
Qed.

(** *** The threshold sweep *)

Lemma chunks_rows {A B} (n : nat) (F : B -> list A) (ths : list B) (rest : list A) :
  (forall th, length (F th) = n) ->
  chunks n (length ths) (concat (map F ths) ++ rest) = map F ths.
Proof.
  intro HF. induction ths as [|th ths IH]; cbn [map concat length chunks].
  - reflexivity.
  - rewrite <- app_assoc.
    rewrite firstn_app, skipn_app, HF, Nat.sub_diag.
    rewrite firstn_all2, skipn_all2 by (rewrite HF; apply Nat.le_refl).
    cbn [firstn skipn app]. rewrite app_nil_r, IH. reflexivity.
Qed.

Lemma chunks_singletons {A} (l : list A) :
  chunks 1 (length l) l = map (fun x => [x]) l.
Proof. induction l as [|x l IH]; cbn; [|rewrite IH]; reflexivity. Qed.

Lemma concat_repeat_singleton {A} (x : A) (n : nat) :
  concat (repeat [x] n) = repeat x n.
Proof. induction n as [|n IH]; cbn; [|rewrite IH]; reflexivity. Qed.

Lemma repeat_as_map {A B} (x : A) (l : list B) :
  repeat x (length l) = map (fun _ => x) l.
Proof. induction l as [|y l IH]; cbn; [|rewrite IH]; reflexivity. Qed.

Lemma map2_app {A B C} (f : A -> B -> C) (a1 a2 : list A) (b1 b2 : list B) :
  length a1 = length b1 ->
  map2 f (a1 ++ a2) (b1 ++ b2) = map2 f a1 b1 ++ map2 f a2 b2.
Proof.
  revert b1. induction a1 as [|x a1 IH]; intros [|y b1] Hl; try discriminate.
  - reflexivity.
  - unfold map2 in *. cbn [app combine map]. rewrite IH by (cbn in Hl; lia).
    reflexivity.
Qed.

Lemma zip_rows {A B C D} (f : A -> B -> C) (F : D -> list A) (G : D -> list B)
    (ths : list D) :
  (forall th, length (F th) = length (G th)) ->
  map2 f (concat (map F ths)) (concat (map G ths))
  = concat (map (fun th => map2 f (F th) (G th)) ths).
Proof.
  intro Hl. induction ths as [|th ths IH]; cbn [map concat].
  - reflexivity.
  - rewrite map2_app by apply Hl. rewrite IH. reflexivity.
Qed.

Lemma map_rows {A C D} (f : A -> C) (F : D -> list A) (ths : list D) :
  map f (concat (map F ths)) = concat (map (fun th => map f (F th)) ths).
Proof. rewrite concat_map, map_map. reflexivity. Qed.

Lemma length_rows {A D} (n : nat) (F : D -> list A) (ths : list D) :
  (forall th, length (F th) = n) ->
  length (concat (map F ths)) = (length ths * n)%nat.
Proof.
  intro HF. induction ths as [|th ths IH]; cbn [map concat length].
  - reflexivity.
  - rewrite length_app, HF, IH. reflexivity.
Qed.

Lemma sum_rows_singletons (l : list Qc) :
  sum_rows 1 (map (fun x => [x]) l) = [sum_list l].
Proof.
  unfold sum_rows. induction l as [|x l IH]; cbn [map fold_right].
  - reflexivity.
  - rewrite IH. reflexivity.
Qed.

Lemma map2_const_r {A B C} (f : A -> B -> C) (xs : list A) (y : B) :
  map2 f xs (repeat y (length xs)) = map (fun x => f x y) xs.
Proof.
  unfold map2. induction xs as [|x xs IH]; cbn; [|rewrite IH]; reflexivity.
Qed.

Lemma heads_of_singletons {A} (xs : list A) :
  flat_map (fun row => firstn 1 (skipn 0 row)) (map (fun x => [x]) xs) = xs.
Proof.
  induction xs as [|x xs IH]; cbn in *; congruence.
Qed.

Lemma transpose_column {A} (xs : list A) :
  transpose (reshape_column (vector xs))
  = Value (mkTensor true [1%nat; length xs] xs).
Proof.
  unfold vector, reshape_column, transpose. cbn [dims elems shape_known].
  rewrite chunks_singletons. cbn [seq flat_map]. rewrite app_nil_r.
  rewrite heads_of_singletons. reflexivity.
Qed.

Lemma tile_row {A} (k : bool) (xs : list A) (T : nat) :
  tile (Value (mkTensor k [1%nat; length xs] xs)) T 1
  = Value (mkTensor k [T; length xs] (concat (repeat xs T))).
Proof.
  unfold tile. cbn [dims elems shape_known chunks flat_map repeat concat].
  rewrite firstn_all, !app_nil_r, Nat.mul_1_r, Nat.mul_1_l. reflexivity.
Qed.

Lemma tile_column {A} (k : bool) (ths : list A) (N : nat) :
  tile (Value (mkTensor k [length ths; 1%nat] ths)) 1 N
  = Value (mkTensor k [length ths; N]
             (concat (map (fun th => repeat th N) ths))).
Proof.
  unfold tile. cbn [dims elems shape_known repeat concat].
  rewrite chunks_singletons, app_nil_r, Nat.mul_1_l, Nat.mul_1_r.
  rewrite flat_map_concat_map, map_map.
  f_equal. f_equal. f_equal. apply map_ext. intro th.
  apply concat_repeat_singleton.
Qed.

Lemma reduce_rows (k : bool) (F : Qc -> list Qc) (ths : list Qc) (N : nat) :
  (forall th, length (F th) = N) ->
  reduce_sum_axis 1 false
    (Value (mkTensor k [length ths; N] (concat (map F ths))))
  = Value (mkTensor k [length ths] (map (fun th => sum_list (F th)) ths)).
Proof.
  intro HF. unfold reduce_sum_axis.
  cbn [dims elems shape_known length Nat.ltb Nat.leb firstn skipn nth app
         prod_dims fold_right].
  rewrite !Nat.mul_1_r.
  rewrite <- (app_nil_r (concat (map F ths))).
  rewrite chunks_rows by exact HF.
  rewrite flat_map_concat_map, map_map.
  f_equal. f_equal.
  induction ths as [|th ths IH]; cbn [map concat]; [reflexivity|].
  rewrite IH. rewrite <- (HF th) at 1.
  rewrite chunks_singletons, sum_rows_singletons. reflexivity.
Qed.

Lemma linspace_thresholds (T : nat) :
  (2 <= T)%nat ->
  linspace (Q2Qc 0 - kepsilon) (Q2Qc 1 + kepsilon) T = vector (thresholds T).
Proof.
  intro HT. destruct T as [|[|T]]; try lia. reflexivity.
Qed.

Lemma length_thresholds (T : nat) : length (thresholds T) = T.
Proof. unfold thresholds. rewrite length_map, length_seq. reflexivity. Qed.

Lemma pred_tiled_rows (ps ths : list Qc) :
  map_node int32_of_bool
    (zip_node greater
       (tile (transpose (reshape_column (vector ps))) (length ths) 1)
       (tile (expand_dims_1 (vector ths)) 1 (length ps)))
  = Value (mkTensor true [length ths; length ps]
             (concat (map (fun th => map (fun p => int32_of_bool (greater p th)) ps)
                        ths))).
Proof.
  rewrite transpose_column, tile_row.
  unfold vector, expand_dims_1. cbn [dims elems shape_known].
  rewrite tile_column. rewrite repeat_as_map.
  rewrite zip_node_values.
  2:{ apply same_shape_iff. cbn [dims elems]. split; [reflexivity|].
      rewrite (length_rows (length ps)) by reflexivity.
      rewrite (length_rows (length ps)) by (intro; apply repeat_length).
      reflexivity. }
  cbn [map_node dims elems shape_known andb].
  rewrite zip_rows by (intro; rewrite repeat_length; reflexivity).
  rewrite map_rows. f_equal. f_equal. f_equal. apply map_ext. intro th.
  rewrite map2_const_r, map_map. reflexivity.
Qed.

Lemma labels_tiled_rows {L} (ls : list L) (ths : list Qc) :
  tile (transpose (reshape_column (vector ls))) (length ths) 1
  = Value (mkTensor true [length ths; length ls]
             (concat (map (fun _ => ls) ths))).
Proof. rewrite transpose_column, tile_row, repeat_as_map. reflexivity. Qed.

Lemma pair_indicator_sum {A B} (f : B -> bool) (g : A -> bool)
    (ps : list A) (ls : list B) :
  length ls = length ps ->
  sum_list (map to_float1 (map2 andb (map f ls) (map g ps)))
  = Qc_of_nat (count_pairs (fun p l => f l && g p) ps ls).
Proof.
  revert ls.
  induction ps as [|p ps IH]; intros [|l ls] Hl; try discriminate.
  - reflexivity.
  - specialize (IH ls ltac:(simpl in Hl; lia)).
    unfold map2 in *.
    cbn [map combine fst snd sum_list fold_right count_pairs].
    fold (sum_list
            (map to_float1
               (map (fun p0 => fst p0 && snd p0) (combine (map f ls) (map g ps))))).
    rewrite IH, Qc_of_nat_plus, to_float_indicator. reflexivity.
Qed.

Lemma int32_of_bool_eqb (b positive : bool) :
  Z.eqb (int32_of_bool b) (int32_of_bool positive) = Bool.eqb b positive.
Proof. destruct b, positive; reflexivity. Qed.

Section Sweep.
Context {L : Type} `{Numeric L}.

Lemma indicator_rows (label : Z) (positive : bool)
    (ps : list Qc) (ls : list L) (ths : list Qc) :
  length ls = length ps ->
  reduce_sum_axis 1 false
    (to_float
       (logical_and
          (equal_const
             (Value (mkTensor true [length ths; length ls]
                       (concat (map (fun _ => ls) ths)))) label)
          (equal_const
             (Value (mkTensor true [length ths; length ps]
                       (concat (map (fun th =>
                                       map (fun p => int32_of_bool (greater p th)) ps)
                                  ths))))
             (int32_of_bool positive))))
  = Value (mkTensor true [length ths]
             (map (count_at label positive ps ls) ths)).
Proof.
  intro Hl. unfold logical_and, equal_const. cbn [map_node dims elems shape_known].
  rewrite zip_node_values.
  2:{ apply same_shape_iff. cbn [dims elems]. split; [congruence|].
      rewrite !length_map.
      rewrite (length_rows (length ls)) by reflexivity.
      rewrite (length_rows (length ps)) by (intro; apply length_map).
      congruence. }
  cbn [dims elems shape_known andb]. unfold to_float. cbn [map_node dims elems shape_known].
  rewrite !map_rows.
  rewrite zip_rows by (intro; rewrite !length_map; exact Hl).
  rewrite map_rows.
  rewrite (reduce_rows true _ ths (length ls)).
  2:{ intro th. rewrite length_map, length_map2 by (rewrite !length_map; exact Hl).
      apply length_map. }
  f_equal. f_equal. apply map_ext. intro th.
  rewrite map_map.
  rewrite (pair_indicator_sum (fun l => equal1 l (of_int label))
             (fun p => equal1 (int32_of_bool (greater p th))
                         (of_int (int32_of_bool positive))) ps ls Hl).
  unfold count_at. f_equal. clear Hl. revert ls.
  induction ps as [|p ps IH]; intros [|l ls]; cbn [count_pairs]; try reflexivity.
  rewrite IH. cbn [equal1 of_int Numeric_Z]. rewrite int32_of_bool_eqb.
  reflexivity.
Qed.
End Sweep.

Lemma map2_map_same {A B C D} (f : A -> B -> C) (F : D -> A) (G : D -> B)
    (l : list D) :
  map2 f (map F l) (map G l) = map (fun i => f (F i) (G i)) l.
Proof.
  unfold map2. induction l as [|x l IH]; cbn; [|rewrite IH]; reflexivity.
Qed.

Lemma list_as_nth {A} (d : A) (a : list A) :
  a = map (fun i => nth i a d) (seq 0 (length a)).
Proof.
  induction a as [|x a IH]; cbn [length seq map nth]; [reflexivity|].
  rewrite <- seq_shift, map_map. cbn [nth]. rewrite <- IH. reflexivity.
Qed.



Lemma compute_auc_unordered_returns (T : nat) (s s' : AucVars) :
  exists u, compute_auc (read_unordered s) T s' = Some (u, s').
Proof. eexists. reflexivity. Qed.


Lemma Qc_of_nat_nonzero (n : nat) : (0 < n)%nat -> Qc_of_nat n <> Q2Qc 0.
Proof.
  intros Hn E. unfold Qc_of_nat, Qc_of_Z in E.
  apply Q2Qc_eq_iff in E. unfold Qeq in E. cbn in E. lia.
Qed.

Lemma threshold_first (T : nat) : threshold T 0 = Q2Qc 0 - kepsilon.
Proof.
  unfold threshold. replace (Qc_of_nat 0) with (Q2Qc 0) by reflexivity. ring.
Qed.

Lemma threshold_last (T : nat) :
  (2 <= T)%nat -> threshold T (T - 1) = Q2Qc 1 + kepsilon.
Proof.
  intro HT. unfold threshold.
  pose proof (Qc_of_nat_nonzero (T - 1) ltac:(lia)) as Hnz.
  field. exact Hnz.
Qed.


Lemma pred_tiled_rows_at (ps ths : list Qc) (T : nat) :
  length ths = T ->
  map_node int32_of_bool
    (zip_node greater
       (tile (transpose (reshape_column (vector ps))) T 1)
       (tile (expand_dims_1 (vector ths)) 1 (length ps)))
  = Value (mkTensor true [T; length ps]
             (concat (map (fun th => map (fun p => int32_of_bool (greater p th)) ps)
                        ths))).
Proof. intros <-. apply pred_tiled_rows. Qed.

Lemma labels_tiled_rows_at {L} (ls : list L) (ths : list Qc) (T : nat) :
  length ths = T ->
  tile (transpose (reshape_column (vector ls))) T 1
  = Value (mkTensor true [T; length ls] (concat (map (fun _ => ls) ths))).
Proof. intros <-. apply labels_tiled_rows. Qed.

Lemma indicator_rows_at {L} `{Numeric L} (label : Z) (positive : bool)
    (ps : list Qc) (ls : list L) (ths : list Qc) (T : nat) :
  length ths = T ->
  length ls = length ps ->
  reduce_sum_axis 1 false
    (to_float
       (logical_and
          (equal_const
             (Value (mkTensor true [T; length ls]
                       (concat (map (fun _ => ls) ths)))) label)
          (equal_const
             (Value (mkTensor true [T; length ps]
                       (concat (map (fun th =>
                                       map (fun p => int32_of_bool (greater p th)) ps)
                                  ths))))
             (int32_of_bool positive))))
  = Value (mkTensor true [T] (map (count_at label positive ps ls) ths)).
Proof. intros <-. apply indicator_rows. Qed.

Lemma assign_add_vector_shaped {S} (v : Var S (list Qc)) (delta : list Qc)
    (T : nat) (s : S) :
  length (var_get v s) = T -> length delta = T ->
  assign_add_vector v (Value (mkTensor true [T] delta)) s
  = Some (map2 Qcplus (var_get v s) delta,
          var_set v (map2 Qcplus (var_get v s) delta) s).
Proof.
  intros Hv Hd. unfold assign_add_vector. cbn [dims elems dims_eqb].
  rewrite Hv, Hd, Nat.eqb_refl. reflexivity.
Qed.

Lemma auc_on_vectors {L} `{Numeric L} (ps : list Qc) (ls : list L) (T : nat) :
  length ls = length ps -> (2 <= T)%nat ->
  exists m,
    streaming_auc (vector ps) (vector ls) None T = Ok m /\
    value_tensor m = compute_auc read_now T /\
    forall s, auc_shaped T s ->
      update_op m s =
      compute_auc (read_unordered s) T
        (mkAucVars (add_counts 1 true ps ls T (true_positives s))
           (add_counts 1 false ps ls T (false_negatives s))
           (add_counts 0 false ps ls T (true_negatives s))
           (add_counts 0 true ps ls T (false_positives s))).
Proof.
  intros Hl HT. unfold streaming_auc.
  replace (_remove_squeezable_dimensions (vector ps) (vector ls))
    with (Ok (vector ps, vector ls))
    by (symmetry; apply remove_squeezable_same_dims; cbn; congruence).
  cbn [rbind fst snd].
  replace (is_compatible_with (get_shape (vector ps)) (get_shape (vector ls)))
    with true by (cbn; rewrite Hl, Nat.eqb_refl; reflexivity).
  rewrite linspace_thresholds by exact HT.
  pose proof (length_thresholds T) as Hths.
  change (match get_shape (reshape_column (vector ps)) with
          | Some ds => hd O ds
          | None => shape_0 (reshape_column (vector ps))
          end) with (length ps).
  rewrite (pred_tiled_rows_at ps (thresholds T) T Hths).
  rewrite (labels_tiled_rows_at ls (thresholds T) T Hths).
  cbn [rbind ind_true_positive ind_false_negative ind_true_negative ind_false_positive].
  rewrite (indicator_rows_at 1 true ps ls (thresholds T) T Hths Hl).
  rewrite (indicator_rows_at 1 false ps ls (thresholds T) T Hths Hl).
  rewrite (indicator_rows_at 0 false ps ls (thresholds T) T Hths Hl).
  rewrite (indicator_rows_at 0 true ps ls (thresholds T) T Hths Hl).
  replace (squeeze_all [T]) with [T].
  2:{ unfold squeeze_all. cbn [filter].
      replace (Nat.eqb T 1) with false by (symmetry; apply Nat.eqb_neq; lia).
      reflexivity. }
  rewrite Nat.eqb_refl.
  eexists. split; [reflexivity|]. cbn [value_tensor update_op].
  split; [reflexivity|].
  intros s (Htp & Hfn & Htn & Hfp).
  cbn [control_dependencies]. unfold bind.
  rewrite (assign_add_vector_shaped tp_var _ T s Htp)
    by (rewrite length_map; exact Hths).
  rewrite (assign_add_vector_shaped fn_var _ T (var_set tp_var _ s) Hfn)
    by (rewrite length_map; exact Hths).
  rewrite (assign_add_vector_shaped tn_var _ T
             (var_set fn_var _ (var_set tp_var _ s)) Htn)
    by (rewrite length_map; exact Hths).
  rewrite (assign_add_vector_shaped fp_var _ T
             (var_set tn_var _ (var_set fn_var _ (var_set tp_var _ s))) Hfp)
    by (rewrite length_map; exact Hths).
  reflexivity.
Qed.




End Properties.

(** * Closed instances *)


(** C8 at the precision of predictions [1,1,0,0] against labels [1,0,1,0]. *)
Lemma value_never_mutates_witness :
  exists m,
    @streaming_precision example_runtime Z _
      (Value predictions_1100) (Value labels_1010) None = Ok m /\
    value_is_idempotent m.
Proof.
  eexists. split.
  - reflexivity.
  - apply (@value_never_mutates example_runtime).
    exact (@mm_precision example_runtime Z _ (Value predictions_1100)
             (Value labels_1010) None _ eq_refl).
Defined.

(** C2 at the values [2,4,6] and the weights [1,0,1]. *)
Lemma streaming_mean_update_and_value_witness :
  same_shape values_2_4_6 weights_1_0_1 = true /\
  exists m,
    @streaming_mean example_runtime Qc Qc _ _
      (Value values_2_4_6) (Some (Value weights_1_0_1)) = Ok m /\
    increments_by m (Q2Qc 8) (Q2Qc 2) /\
    reports_mean m.
Proof.
  split.
  - reflexivity.
  - destruct (@streaming_mean_update_and_value example_runtime Qc Qc _ _
                values_2_4_6 weights_1_0_1 eq_refl) as [Hw _].
    destruct Hw as (m & Hm & Hi & Hr). exists m.
    split; [exact Hm|]. split; [|exact Hr].
    replace (Q2Qc 8) with
      (sum_list (map2 Qcmult (map to_float1 (elems values_2_4_6))
                   (map to_float1 (elems weights_1_0_1))))
      by (apply Qc_is_canon; reflexivity).
    replace (Q2Qc 2) with (sum_list (map to_float1 (elems weights_1_0_1)))
      by (apply Qc_is_canon; reflexivity).
    exact Hi.
Defined.

(** C3 at predictions [1,1,0,0] and labels [1,0,1,0], without a mask. *)
Lemma precision_recall_from_confusion_counts_witness :
  same_shape predictions_1100 labels_1010 = true /\
  mask_fits predictions_1100 None /\
  exists m,
    @streaming_precision example_runtime Z _
      (Value predictions_1100) (Value labels_1010) None = Ok m /\
    forall s, exists u,
      update_op m s =
      Some (u, mkPrecisionVars (precision_true_positives s + Qc_of_nat 1)
                 (precision_false_positives s + Qc_of_nat 1)).
Proof.
  split; [reflexivity|]. split; [exact I|].
  destruct (@precision_recall_from_confusion_counts example_runtime Z _
              predictions_1100 labels_1010 None eq_refl I) as [Hp _].
  destruct Hp as (m & Hm & Hu & _). exists m. split; [exact Hm | exact Hu].
Defined.


(** C5 at the mean of [2,4,6] before any update. *)
Lemma zero_denominator_value_witness :
  exists m,
    @streaming_mean example_runtime Qc Qc _ _ (Value values_2_4_6) None = Ok m /\
    count (init_state m) = Q2Qc 0 /\
    value_tensor m (init_state m) = Some (Q2Qc 0, init_state m).
Proof.
  eexists. split; [reflexivity|]. split; [reflexivity|].
  apply (proj1 (@zero_denominator_value example_runtime)).
  - exact (@pm_mean example_runtime Qc Qc _ _ (Value values_2_4_6) None _ eq_refl).
  - reflexivity.
Defined.

(** C5 as stated fails: before any update the count of the mean cosine
    distance is zero and its value is [1]. *)
Lemma cosine_distance_of_no_update_is_one :
  exists m,
    @streaming_mean_cosine_distance example_runtime Qc _
      unit_rows unit_labels 1 None = Ok m /\
    count (init_state m) = Q2Qc 0 /\
    value_tensor m (init_state m) = Some (Q2Qc 1, init_state m) /\
    Q2Qc 1 <> Q2Qc 0.
Proof.
  eexists. split; [reflexivity|]. split; [reflexivity|]. split.
  - cbn. unfold bind, read, ret. cbn.
    apply (f_equal (fun x => Some (x, _))). apply Qc_is_canon. reflexivity.
  - intro E. apply (f_equal this) in E. discriminate E.
Qed.

(** C6 at labels of shape [2,1] against predictions of shape [2]. *)
Lemma squeezable_dimensions_rule_witness :
  shape_known shape_2 = true /\ shape_known shape_2_1 = true /\
  _remove_squeezable_dimensions (Value shape_2) (Value shape_2_1)
  = Ok (Value shape_2, Value (mkTensor true [2%nat] (elems shape_2_1))).
Proof.
  split; [reflexivity|]. split; [reflexivity|].
  exact (proj1 (@squeezable_dimensions_rule Z Z shape_2 shape_2_1 eq_refl eq_refl)
           [2%nat] 1%nat eq_refl eq_refl).
Defined.

(** C6 as stated fails: the ranks of shapes [2] and [2,3] differ by one, and
    the alignment raises instead of dropping the last dimension. *)
Lemma squeeze_rejects_a_trailing_dimension_of_3 :
  ndims (get_shape (Value shape_2_3)) = Some 2%nat /\
  ndims (get_shape (Value shape_2)) = Some 1%nat /\
  _remove_squeezable_dimensions (Value shape_2) (Value shape_2_3) = ValueError.
Proof. repeat split. Qed.

(** C9 at two updates that each count [true, false, true]. *)
Lemma count_accumulators_monotone_witness :
  exists m,
    _count_condition flags_101 None = Ok m /\
    run_updates [m; m] (init_state m) = Some (Q2Qc 2 + (Q2Qc 2 + Q2Qc 0)) /\
    init_state m <= Q2Qc 2 + (Q2Qc 2 + Q2Qc 0).
Proof.
  eexists. split; [reflexivity|].
  assert (Hr : run_updates
                 [mkMetric (Q2Qc 0) (read the_count)
                    (x <- eval (reduce_sum (to_float flags_101)) ;;
                     assign_add the_count x);
                  mkMetric (Q2Qc 0) (read the_count)
                    (x <- eval (reduce_sum (to_float flags_101)) ;;
                     assign_add the_count x)] (Q2Qc 0)
               = Some (Q2Qc 2 + (Q2Qc 2 + Q2Qc 0))).
  { cbn. unfold bind, eval, assign_add. cbn.
    apply (f_equal Some). apply Qc_is_canon. reflexivity. }
  split; [exact Hr|].
  refine (proj1 (proj2 (proj2 (@count_accumulators_monotone example_runtime)))
            _ _ _ _ Hr).
  repeat constructor; exact (cm_count_condition flags_101 None _ eq_refl).
Defined.

(** C10 at the values [2,4,6] and the weights [1,1,1]. *)
Lemma unit_weights_are_no_weights_witness :
  same_shape values_2_4_6 weights_1_1_1 = true /\
  Forall (fun w => to_float1 w = Q2Qc 1) (elems weights_1_1_1) /\
  exists m1 m2,
    @streaming_mean example_runtime Qc Qc _ _
      (Value values_2_4_6) (Some (Value weights_1_1_1)) = Ok m1 /\
    @streaming_mean example_runtime Qc Qc _ _
      (Value values_2_4_6) (@None (Node Qc)) = Ok m2 /\
    forall s, update_op m1 s = update_op m2 s /\
              value_tensor m1 s = value_tensor m2 s.
Proof.
  assert (Hw : Forall (fun w : Qc => to_float1 w = Q2Qc 1) (elems weights_1_1_1)).
  { repeat constructor. }
  split; [reflexivity|]. split; [exact Hw|].
  destruct (@unit_weights_are_no_weights example_runtime Qc Qc _ _
              values_2_4_6 weights_1_1_1 eq_refl Hw)
    as (_ & _ & m1 & m2 & H1 & H2 & _ & Hs).
  exists m1, m2. split; [exact H1|]. split; [exact H2 | exact Hs].
Defined.

(** * Further properties of the module *)

Section More_properties.

Context {rt : Runtime}.

Lemma sum_list_app (a b : list Qc) : sum_list (a ++ b) = sum_list a + sum_list b.
Proof.
  induction a as [|x a IH]; cbn [app sum_list fold_right].
  - fold (sum_list b). ring.
  - fold (sum_list (a ++ b)). fold (sum_list a). rewrite IH. ring.
Qed.

Lemma sum_indicator_pairs {A B} (f : A -> B -> bool) (xs : list A) (ys : list B) :
  sum_list (map to_float1 (map2 f xs ys)) = Qc_of_nat (count_pairs f xs ys).
Proof.
  revert ys. induction xs as [|x xs IH]; intros [|y ys]; try reflexivity.
  specialize (IH ys). unfold map2 in *.
  cbn [combine map fst snd sum_list fold_right count_pairs].
  fold (sum_list (map to_float1 (map (fun p => f (fst p) (snd p)) (combine xs ys)))).
  rewrite IH, Qc_of_nat_plus, to_float_indicator. reflexivity.
Qed.

Lemma map_to_float_Qc (l : list Qc) : map to_float1 l = l.
Proof. apply map_id. Qed.

(** X2: [streaming_accuracy] without weights adds to [total] the number of
    positions where the prediction equals the label and to [count] the
    number of positions, and reports [total / count]; on predictions
    [1,0,1,1] and labels [1,0,0,1] the accuracy is 3/4. *)
Theorem accuracy_counts_matches {A} `{Numeric A} (tp tl : Tensor A) :
  same_shape tp tl = true ->
  (exists m,
     streaming_accuracy (Value tp) (Value tl) (@None (Node Qc)) = Ok m /\
     increments_by m
       (Qc_of_nat (count_pairs equal1 (elems tp) (elems tl)))
       (Qc_of_nat (length (elems tp))) /\
     reports_mean m) /\
  update_then_value
    (streaming_accuracy (vector [1; 0; 1; 1]%Z) (vector [1; 0; 0; 1]%Z)
       (@None (Node Qc)))
  = Some (Q2Qc (3 # 4), Q2Qc (3 # 4)).
Proof.
  intro Hs. pose proof (proj1 (same_shape_iff _ _) Hs) as [Hd Hl]. split.
  - unfold streaming_accuracy.
    rewrite (remove_squeezable_same_dims _ _ Hd). cbn [rbind fst snd].
    rewrite (dims_compatible tp tl) by (apply dims_eqb_eq, Hd).
    unfold equal. rewrite (zip_node_values _ _ _ Hs).
    unfold to_float at 1. cbn [map_node dims elems shape_known].
    destruct (streaming_mean_unweighted (W:=Qc)
                (mkTensor (shape_known tp && shape_known tl) (dims tp)
                   (map to_float1 (map2 equal1 (elems tp) (elems tl)))))
      as (m & Hm & _ & Hv & Hu).
    exists m. split; [exact Hm|]. split.
    + intro s. rewrite Hu. cbn [elems].
      rewrite map_to_float_Qc, sum_indicator_pairs, length_map,
        length_map2 by exact Hl.
      apply compute_mean_read_only.
    + intro s. rewrite Hv. apply compute_mean_spec.
  - vm_compute. apply some_pair_Qc; reflexivity.
Qed.

Lemma masked_indicator_product {A} (P : A -> bool) (vs : list A) (ms : list bool) :
  sum_list (map2 Qcmult (map (fun v => to_float1 (P v)) vs)
              (map (fun i => to_float1 (negb i)) ms))
  = Qc_of_nat (count_pairs (fun v i => negb i && P v) vs ms).
Proof.
  revert ms. induction vs as [|v vs IH]; intros [|i ms]; try reflexivity.
  specialize (IH ms). unfold map2 in *.
  cbn [combine map fst snd sum_list fold_right count_pairs].
  fold (sum_list
          (map (fun p => fst p * snd p)
             (combine (map (fun v0 => to_float1 (P v0)) vs)
                (map (fun i0 => to_float1 (negb i0)) ms)))).
  rewrite IH, Qc_of_nat_plus.
  destruct i, (P v); cbn [negb andb]; f_equal; apply Qc_is_canon; reflexivity.
Qed.

Lemma kept_sum (ms : list bool) :
  sum_list (map (fun i => to_float1 (negb i)) ms)
  = Qc_of_nat (length (filter negb ms)).
Proof.
  induction ms as [|i ms IH]; [reflexivity|].
  cbn [map sum_list fold_right filter].
  fold (sum_list (map (fun i0 => to_float1 (negb i0)) ms)). rewrite IH.
  destruct i; cbn [negb length].
  - change (to_float1 false) with (Q2Qc 0). apply Qcplus_0_l.
  - change (S (length (filter negb ms))) with (1 + length (filter negb ms))%nat.
    rewrite Qc_of_nat_plus. reflexivity.
Qed.

Lemma count_pairs_none_ignored {A} (P : A -> bool) (vs : list A) :
  count_pairs (fun v i => negb i && P v) vs (repeat false (length vs))
  = count_pairs (fun v (_ : bool) => P v) vs (repeat false (length vs)).
Proof. induction vs as [|v vs IH]; cbn; [|rewrite IH]; reflexivity. Qed.

Lemma filter_negb_repeat_false (n : nat) :
  length (filter negb (repeat false n)) = n.
Proof. induction n as [|n IH]; cbn; [|rewrite IH]; reflexivity. Qed.

Lemma unmasked_indicator_sum {A} (P : A -> bool) (vs : list A) :
  sum_list (map (fun v => to_float1 (P v)) vs)
  = Qc_of_nat (count_pairs (fun v i => negb i && P v) vs
                 (repeat false (length vs))).
Proof.
  induction vs as [|v vs IH]; [reflexivity|].
  cbn [map sum_list fold_right length repeat count_pairs negb andb].
  fold (sum_list (map (fun v0 => to_float1 (P v0)) vs)).
  rewrite IH, Qc_of_nat_plus, to_float_indicator. reflexivity.
Qed.

(** X3: [streaming_percentage_less] leaves the elements that the mask
    ignores out of both accumulators: an update adds to [total] the number of
    elements below the threshold that are not ignored and to [count] the
    number of elements that are not ignored.  Of [1,2,3,4,5], two fifths are
    below 3. *)
Theorem percentage_less_skips_ignored (tv : Tensor Qc) (threshold : Qc)
    (mask : option (Tensor bool)) :
  mask_fits tv mask ->
  let ignored := ignored_positions mask (length (elems tv)) in
  (exists m,
     streaming_percentage_less (Value tv) threshold (mask_node mask) = Ok m /\
     increments_by m
       (Qc_of_nat (count_pairs (fun v i => negb i && less v threshold)
                     (elems tv) ignored))
       (Qc_of_nat (length (filter negb ignored))) /\
     reports_mean m) /\
  update_then_value
    (streaming_percentage_less (vector (Qc_list [1; 2; 3; 4; 5]%Z)) (Q2Qc 3) None)
  = Some (Q2Qc (2 # 5), Q2Qc (2 # 5)).
Proof.
  intros Hm ignored. split.
  - unfold streaming_percentage_less, to_float at 1.
    cbn [map_node shape_known dims elems]. rewrite map_map.
    destruct mask as [tm|]; cbn [mask_node mask_fits _mask_to_weights] in *.
    + unfold logical_not. cbn [map_node].
      destruct (streaming_mean_weighted
                  (mkTensor (shape_known tv) (dims tv)
                     (map (fun v => to_float1 (less v threshold)) (elems tv)))
                  (mkTensor (shape_known tm) (dims tm) (map negb (elems tm))))
        as (m & Hok & _ & Hv & Hu).
      { rewrite same_shape_map. exact Hm. }
      exists m. split; [exact Hok|]. split.
      * intro s. rewrite Hu. cbn [elems].
        rewrite map_to_float_Qc, map_map, masked_indicator_product, kept_sum.
        apply compute_mean_read_only.
      * intro s. rewrite Hv. apply compute_mean_spec.
    + destruct (streaming_mean_unweighted (W:=bool)
                  (mkTensor (shape_known tv) (dims tv)
                     (map (fun v => to_float1 (less v threshold)) (elems tv))))
        as (m & Hok & _ & Hv & Hu).
      exists m. split; [exact Hok|]. split.
      * intro s. rewrite Hu. cbn [elems]. unfold ignored, ignored_positions.
        rewrite map_to_float_Qc, unmasked_indicator_sum, length_map,
          filter_negb_repeat_false.
        apply compute_mean_read_only.
      * intro s. rewrite Hv. apply compute_mean_spec.
  - vm_compute. apply some_pair_Qc; reflexivity.
Qed.

Lemma squeeze_last_rank {A} (t : Tensor A) (n : Node A) :
  squeeze_last (Value t) = Ok n ->
  exists t', n = Value t' /\ shape_known t' = shape_known t /\
             S (length (dims t')) = length (dims t) /\ elems t' = elems t.
Proof.
  unfold squeeze_last. intro Hs.
  destruct (rev (dims t)) as [|[|[|d]] ds] eqn:E; try discriminate.
  apply Ok_inj in Hs. subst n. eexists. split; [reflexivity|].
  cbn [shape_known dims elems]. repeat split.
  rewrite length_rev. rewrite <- (length_rev (dims t)), E. reflexivity.
Qed.

Lemma remove_squeezable_unchanged {A B} (p : Node A) (l : Node B) :
  (forall lr pr, ndims (get_shape l) = Some lr -> ndims (get_shape p) = Some pr ->
     lr <> (pr + 1)%nat /\ pr <> (lr + 1)%nat) ->
  _remove_squeezable_dimensions p l = Ok (p, l).
Proof.
  intro Hr. unfold _remove_squeezable_dimensions.
  destruct (ndims (get_shape l)) as [lr|] eqn:El; [|reflexivity].
  destruct (ndims (get_shape p)) as [pr|] eqn:Ep; [|reflexivity].
  destruct (Hr lr pr eq_refl eq_refl) as [H1 H2].
  apply Nat.eqb_neq in H1, H2. rewrite H1, H2. reflexivity.
Qed.

Lemma remove_squeezable_again {A B} (p p' : Node A) (l l' : Node B) :
  _remove_squeezable_dimensions p l = Ok (p', l') ->
  _remove_squeezable_dimensions p' l' = Ok (p', l').
Proof.
  intro Hs. unfold _remove_squeezable_dimensions in Hs.
  destruct (ndims (get_shape l)) as [lr|] eqn:El.
  2:{ apply Ok_inj in Hs. inversion Hs; subst.
      apply remove_squeezable_unchanged. intros lr pr H1. congruence. }
  destruct (ndims (get_shape p)) as [pr|] eqn:Ep.
  2:{ apply Ok_inj in Hs. inversion Hs; subst.
      apply remove_squeezable_unchanged. intros lr' pr' _ H2. congruence. }
  destruct (Nat.eqb lr (pr + 1)) eqn:E1.
  - apply Nat.eqb_eq in E1.
    destruct l as [tl|]; [|discriminate El].
    destruct (squeeze_last (Value tl)) as [n| | |] eqn:Es; try discriminate Hs.
    cbn [rbind] in Hs. apply Ok_inj in Hs. inversion Hs; subst p' l'.
    destruct (squeeze_last_rank tl n Es) as (t' & -> & Hk & Hlen & _).
    apply remove_squeezable_unchanged. intros lr' pr' H1 H2.
    rewrite Ep in H2. inversion H2; subst pr'.
    cbn [get_shape ndims] in H1, El. rewrite Hk in H1.
    destruct (shape_known tl); [|discriminate]. cbn in H1, El.
    inversion H1; inversion El; subst. lia.
  - destruct (Nat.eqb pr (lr + 1)) eqn:E2.
    + apply Nat.eqb_eq in E2.
      destruct p as [tp|]; [|discriminate Ep].
      destruct (squeeze_last (Value tp)) as [n| | |] eqn:Es; try discriminate Hs.
      cbn [rbind] in Hs. apply Ok_inj in Hs. inversion Hs; subst p' l'.
      destruct (squeeze_last_rank tp n Es) as (t' & -> & Hk & Hlen & _).
      apply remove_squeezable_unchanged. intros lr' pr' H1 H2.
      rewrite El in H1. inversion H1; subst lr'.
      cbn [get_shape ndims] in H2, Ep. rewrite Hk in H2.
      destruct (shape_known tp); [|discriminate]. cbn in H2, Ep.
      inversion H2; inversion Ep; subst. lia.
    + apply Ok_inj in Hs. inversion Hs; subst.
      apply remove_squeezable_unchanged. intros lr' pr' H1 H2.
      rewrite El in H1. rewrite Ep in H2. inversion H1; inversion H2; subst.
      apply Nat.eqb_neq in E1, E2. auto.
Qed.

(** X4: the shape alignment is idempotent: on the pair it returns, it
    returns that pair again, so a constructor that aligns a pair which a
    caller has aligned already sees it unchanged. *)
Theorem remove_squeezable_dimensions_idempotent {A B}
    (p p' : Node A) (l l' : Node B) :
  _remove_squeezable_dimensions p l = Ok (p', l') ->
  _remove_squeezable_dimensions p' l' = Ok (p', l').
Proof. exact (remove_squeezable_again p p' l l'). Qed.

(** X5: the root mean squared error is the mean squared error of the same
    arguments under a square root: it raises when the mean squared error
    raises, and otherwise it has the same accumulators, its value is the root
    of that value and its update runs that update once and returns the root
    of its result. *)
Theorem rmse_is_root_of_mse {W} `{ToFloat W}
    (predictions labels : Node Qc) (weights : option (Node W)) :
  match streaming_mean_squared_error predictions labels weights with
  | Ok m =>
      exists m',
        streaming_root_mean_squared_error predictions labels weights = Ok m' /\
        init_state m' = init_state m /\
        forall s,
          value_tensor m' s = (v <- value_tensor m ;; ret (sqrt v)) s /\
          update_op m' s = (u <- update_op m ;; ret (sqrt u)) s
  | ValueError =>
      streaming_root_mean_squared_error predictions labels weights = ValueError
  | IndexError =>
      streaming_root_mean_squared_error predictions labels weights = IndexError
  | AssertionError =>
      streaming_root_mean_squared_error predictions labels weights = AssertionError
  end.
Proof.
  unfold streaming_root_mean_squared_error.
  unfold streaming_mean_squared_error at 1.
  destruct (_remove_squeezable_dimensions predictions labels)
    as [[p' l']| | |] eqn:E; cbn [rbind fst snd]; try reflexivity.
  destruct (is_compatible_with (get_shape p') (get_shape l')) eqn:C;
    [|reflexivity].
  unfold streaming_mean_squared_error.
  rewrite (remove_squeezable_again _ _ _ _ E).
  cbn [rbind fst snd]. rewrite C.
  destruct (streaming_mean (map_node (fun x => x * x) (sub l' p')) weights)
    as [m| | |]; cbn [rbind]; try reflexivity.
  eexists. split; [reflexivity|]. cbn [init_state value_tensor update_op].
  split; [reflexivity|]. intro s. split; reflexivity.
Qed.

Lemma ratio_is_rate (a b : Qc) :
  Q2Qc 0 <= a -> Q2Qc 0 <= b ->
  is_rate (select1 (greater (a + b) (Q2Qc 0)) (tf_div a (a + b)) (Q2Qc 0)).
Proof.
  intros Ha Hb. destruct (greater (a + b) (Q2Qc 0)) eqn:G; cbn [select1].
  - apply greater_0_iff in G.
    assert (Hnz : a + b <> Q2Qc 0).
    { intro E. rewrite E in G. exact (Qclt_irrefl_0 G). }
    rewrite (tf_div_nonzero a (a + b) Hnz). split.
    + apply (Qcmult_lt_0_le_reg_r _ _ (a + b) G).
      rewrite (test_field a (a + b) Hnz).
      replace (Q2Qc 0 * (a + b)) with (Q2Qc 0) by ring. exact Ha.
    + apply (Qcmult_lt_0_le_reg_r _ _ (a + b) G).
      rewrite (test_field a (a + b) Hnz).
      replace (Q2Qc 1 * (a + b)) with (a + b) by ring.
      apply Qcle_plus_nonneg. exact Hb.
  - split; [apply Qcle_refl | exact Qc_0_le_1].
Qed.

Lemma indicator_sum_nonneg (v : Node bool) (x : Qc) :
  reduce_sum (to_float v) = Some x -> Q2Qc 0 <= x.
Proof.
  destruct v as [t|]; [|discriminate]. cbn. intro E. inversion E; subst.
  apply sum_list_nonneg.
  apply (indicator_nonneg (to_float (Value t))), to_float_indicator_node.
Qed.

Lemma precision_metric_inv (m : Metric PrecisionVars) :
  precision_metric m ->
  exists v1 v2 : Node bool,
    m = mkMetric (mkPrecisionVars (Q2Qc 0) (Q2Qc 0))
          (tp <- scoped precision_tp (read the_count) ;;
           fp <- scoped precision_fp (read the_count) ;;
           ret (select1 (greater (tp + fp) (Q2Qc 0)) (tf_div tp (tp + fp)) (Q2Qc 0)))
          (control_dependencies
             [scoped precision_tp
                (x <- eval (reduce_sum (to_float v1)) ;; assign_add the_count x);
              scoped precision_fp
                (x <- eval (reduce_sum (to_float v2)) ;; assign_add the_count x)]
             (tp <- scoped precision_tp (read the_count) ;;
              fp <- scoped precision_fp (read the_count) ;;
              ret (select1 (greater (tp + fp) (Q2Qc 0)) (tf_div tp (tp + fp))
                     (Q2Qc 0)))).
Proof.
  intros [A NA p l mask m0 Hm]. unfold streaming_precision in Hm.
  step_construction Hm. step_construction Hm.
  step_construction Hm. step_construction Hm.
  apply Ok_inj in Hm. subst m0.
  destruct (count_metric_inv _ (cm_true_positives _ _ _ _ _ _ E0)) as [v1 ->].
  destruct (count_metric_inv _ (cm_false_positives _ _ _ _ _ _ E1)) as [v2 ->].
  exists v1, v2. reflexivity.
Qed.

Lemma recall_metric_inv (m : Metric RecallVars) :
  recall_metric m ->
  exists v1 v2 : Node bool,
    m = mkMetric (mkRecallVars (Q2Qc 0) (Q2Qc 0))
          (tp <- scoped recall_tp (read the_count) ;;
           fn <- scoped recall_fn (read the_count) ;;
           ret (select1 (greater (tp + fn) (Q2Qc 0)) (tf_div tp (tp + fn)) (Q2Qc 0)))
          (control_dependencies
             [scoped recall_tp
                (x <- eval (reduce_sum (to_float v1)) ;; assign_add the_count x);
              scoped recall_fn
                (x <- eval (reduce_sum (to_float v2)) ;; assign_add the_count x)]
             (tp <- scoped recall_tp (read the_count) ;;
              fn <- scoped recall_fn (read the_count) ;;
              ret (select1 (greater (tp + fn) (Q2Qc 0)) (tf_div tp (tp + fn))
                     (Q2Qc 0)))).
Proof.
  intros [A NA p l mask m0 Hm]. unfold streaming_recall in Hm.
  step_construction Hm. step_construction Hm.
  step_construction Hm. step_construction Hm.
  apply Ok_inj in Hm. subst m0.
  destruct (count_metric_inv _ (cm_true_positives _ _ _ _ _ _ E0)) as [v1 ->].
  destruct (count_metric_inv _ (cm_false_negatives _ _ _ _ _ _ E1)) as [v2 ->].
  exists v1, v2. reflexivity.
Qed.

Lemma precision_counts_nonneg (ms : list (Metric PrecisionVars)) :
  Forall precision_metric ms ->
  forall s s',
    Q2Qc 0 <= precision_true_positives s ->
    Q2Qc 0 <= precision_false_positives s ->
    run_updates ms s = Some s' ->
    Q2Qc 0 <= precision_true_positives s' /\
    Q2Qc 0 <= precision_false_positives s'.
Proof.
  induction 1 as [|m ms Hm _ IH]; intros s s' Htp Hfp Hr; cbn in Hr.
  - inversion Hr; subst. auto.
  - destruct (update_op m s) as [[u s1]|] eqn:Eu; [|discriminate].
    destruct (precision_metric_inv m Hm) as (v1 & v2 & ->).
    cbn [update_op control_dependencies] in Eu.
    unfold bind, scoped, eval, assign_add, read, ret in Eu.
    destruct s as [tp fp]. cbn in Eu, Htp, Hfp.
    destruct (reduce_sum (to_float v1)) as [x1|] eqn:E1; [|discriminate].
    destruct (reduce_sum (to_float v2)) as [x2|] eqn:E2; [|discriminate].
    cbn in Eu. inversion Eu; subst s1. apply (IH _ _ ) in Hr; [exact Hr| |]; cbn.
    + rewrite <- (Qcplus_0_r (Q2Qc 0)). apply Qcplus_le_compat;
        [exact Htp | exact (indicator_sum_nonneg v1 x1 E1)].
    + rewrite <- (Qcplus_0_r (Q2Qc 0)). apply Qcplus_le_compat;
        [exact Hfp | exact (indicator_sum_nonneg v2 x2 E2)].
Qed.

Lemma recall_counts_nonneg (ms : list (Metric RecallVars)) :
  Forall recall_metric ms ->
  forall s s',
    Q2Qc 0 <= recall_true_positives s ->
    Q2Qc 0 <= recall_false_negatives s ->
    run_updates ms s = Some s' ->
    Q2Qc 0 <= recall_true_positives s' /\
    Q2Qc 0 <= recall_false_negatives s'.
Proof.
  induction 1 as [|m ms Hm _ IH]; intros s s' Htp Hfn Hr; cbn in Hr.
  - inversion Hr; subst. auto.
  - destruct (update_op m s) as [[u s1]|] eqn:Eu; [|discriminate].
    destruct (recall_metric_inv m Hm) as (v1 & v2 & ->).
    cbn [update_op control_dependencies] in Eu.
    unfold bind, scoped, eval, assign_add, read, ret in Eu.
    destruct s as [tp fn]. cbn in Eu, Htp, Hfn.
    destruct (reduce_sum (to_float v1)) as [x1|] eqn:E1; [|discriminate].
    destruct (reduce_sum (to_float v2)) as [x2|] eqn:E2; [|discriminate].
    cbn in Eu. inversion Eu; subst s1. apply (IH _ _ ) in Hr; [exact Hr| |]; cbn.
    + rewrite <- (Qcplus_0_r (Q2Qc 0)). apply Qcplus_le_compat;
        [exact Htp | exact (indicator_sum_nonneg v1 x1 E1)].
    + rewrite <- (Qcplus_0_r (Q2Qc 0)). apply Qcplus_le_compat;
        [exact Hfn | exact (indicator_sum_nonneg v2 x2 E2)].
Qed.

(** X6: after any sequence of updates from the initial variables, the
    precision and the recall that the value reports lie between 0 and 1. *)
Theorem precision_and_recall_are_rates :
  (forall ms m s,
     Forall precision_metric ms -> precision_metric m ->
     run_updates ms (mkPrecisionVars (Q2Qc 0) (Q2Qc 0)) = Some s ->
     exists v, value_tensor m s = Some (v, s) /\ is_rate v) /\
  (forall ms m s,
     Forall recall_metric ms -> recall_metric m ->
     run_updates ms (mkRecallVars (Q2Qc 0) (Q2Qc 0)) = Some s ->
     exists v, value_tensor m s = Some (v, s) /\ is_rate v).
Proof.
  split.
  - intros ms m s Hms Hm Hr.
    destruct (precision_counts_nonneg ms Hms
                (mkPrecisionVars (Q2Qc 0) (Q2Qc 0)) s
                (Qcle_refl _) (Qcle_refl _) Hr) as [Htp Hfp].
    destruct (precision_metric_inv m Hm) as (v1 & v2 & ->).
    destruct s as [tp fp]. cbn in Htp, Hfp. eexists. split; [reflexivity|].
    exact (ratio_is_rate tp fp Htp Hfp).
  - intros ms m s Hms Hm Hr.
    destruct (recall_counts_nonneg ms Hms
                (mkRecallVars (Q2Qc 0) (Q2Qc 0)) s
                (Qcle_refl _) (Qcle_refl _) Hr) as [Htp Hfn].
    destruct (recall_metric_inv m Hm) as (v1 & v2 & ->).
    destruct s as [tp fn]. cbn in Htp, Hfn. eexists. split; [reflexivity|].
    exact (ratio_is_rate tp fn Htp Hfn).
Qed.

(** X7: [streaming_auc] with a single threshold never returns a metric: the
    check on the squeezed shape of the accumulators indexes an empty shape,
    so arguments that pass the shape checks raise [IndexError]. *)
Theorem auc_rejects_a_single_threshold :
  (forall L (NL : Numeric L) predictions (labels : Node L) ignore_mask m,
     streaming_auc predictions labels ignore_mask 1 <> Ok m) /\
  (forall L (NL : Numeric L) (ps : list Qc) (ls : list L),
     length ls = length ps ->
     streaming_auc (vector ps) (vector ls) None 1 = IndexError).
Proof.
  split.
  - intros L NL p l mask m Hm. unfold streaming_auc in Hm.
    step_construction Hm. step_construction Hm.
    destruct mask as [mask|]; cbn [rbind] in Hm.
    + destruct (is_compatible_with _ _) in Hm; cbn in Hm; discriminate Hm.
    + cbn in Hm. discriminate Hm.
  - intros L NL ps ls Hl. unfold streaming_auc.
    replace (_remove_squeezable_dimensions (vector ps) (vector ls))
      with (Ok (vector ps, vector ls))
      by (symmetry; apply remove_squeezable_same_dims; cbn; congruence).
    cbn [rbind fst snd].
    replace (is_compatible_with (get_shape (vector ps)) (get_shape (vector ls)))
      with true by (cbn; rewrite Hl, Nat.eqb_refl; reflexivity).
    reflexivity.
Qed.

Lemma nth_map_seq {A} (F : nat -> A) (d : A) (T i : nat) :
  (i < T)%nat -> nth i (map F (seq 0 T)) d = F i.
Proof.
  intro Hi. rewrite (nth_indep _ d (F 0%nat)) by (rewrite length_map, length_seq; exact Hi).
  rewrite (map_nth F (seq 0 T) 0%nat i), seq_nth by exact Hi. reflexivity.
Qed.

Lemma add_counts_nth {L} `{Numeric L} (label : Z) (positive : bool)
    (ps : list Qc) (ls : list L) (T : nat) (acc : list Qc) (i : nat) :
  length acc = T -> (i < T)%nat ->
  nth i (add_counts label positive ps ls T acc) (Q2Qc 0)
  = nth i acc (Q2Qc 0) + count_at label positive ps ls (threshold T i).
Proof.
  intros Hacc Hi. unfold add_counts, thresholds.
  rewrite (list_as_nth (Q2Qc 0) acc) at 1. rewrite Hacc, map_map, map2_map_same.
  exact (nth_map_seq
           (fun j => nth j acc (Q2Qc 0)
                     + count_at label positive ps ls (threshold T j))
           (Q2Qc 0) T i Hi).
Qed.

Lemma greater_first_threshold (p : Qc) :
  Q2Qc 0 <= p -> greater p (Q2Qc 0 - kepsilon) = true.
Proof.
  intro Hp. unfold greater.
  match goal with |- negb ?b = true => destruct b eqn:E end; [|reflexivity].
  apply Qle_bool_iff in E.
  assert (Hbad : Q2Qc 0 <= Q2Qc 0 - kepsilon) by (eapply Qcle_trans; eassumption).
  exfalso. vm_compute in Hbad. apply Hbad. reflexivity.
Qed.

Lemma greater_last_threshold (p : Qc) :
  p <= Q2Qc 1 -> greater p (Q2Qc 1 + kepsilon) = false.
Proof.
  intro Hp. unfold greater.
  assert (Hle : p <= Q2Qc 1 + kepsilon).
  { eapply Qcle_trans; [exact Hp|]. vm_compute. discriminate. }
  apply Qle_bool_iff in Hle. rewrite Hle. reflexivity.
Qed.

Section Sweep_counts.
Context {L : Type} `{Numeric L}.

Lemma count_at_all (label : Z) (positive : bool) (ps : list Qc) (ls : list L)
    (th : Qc) :
  length ls = length ps ->
  Forall (fun p => greater p th = positive) ps ->
  count_at label positive ps ls th = Qc_of_nat (count_label label ls).
Proof.
  intros Hl Hp. unfold count_at, count_label. f_equal. revert ls Hl.
  induction Hp as [|p ps Hp _ IH]; intros [|l ls] Hl; try discriminate;
    [reflexivity|].
  cbn [count_pairs filter]. rewrite Hp, eqb_reflx, andb_true_r.
  rewrite (IH ls) by (cbn in Hl; lia).
  destruct (equal1 l (of_int label)); reflexivity.
Qed.

Lemma count_at_none (label : Z) (positive : bool) (ps : list Qc) (ls : list L)
    (th : Qc) :
  Forall (fun p => greater p th = negb positive) ps ->
  count_at label positive ps ls th = Q2Qc 0.
Proof.
  intro Hp. unfold count_at.
  replace (count_pairs _ ps ls) with O; [reflexivity|]. revert ls.
  induction Hp as [|p ps Hp _ IH]; intros [|l ls]; try reflexivity.
  cbn [count_pairs]. rewrite Hp, <- (IH ls).
  destruct positive; cbn; rewrite andb_false_r; reflexivity.
Qed.

Lemma count_at_split (label : Z) (ps : list Qc) (ls : list L) (th : Qc) :
  length ls = length ps ->
  count_at label true ps ls th + count_at label false ps ls th
  = Qc_of_nat (count_label label ls).
Proof.
  intro Hl. unfold count_at, count_label. rewrite <- Qc_of_nat_plus. f_equal.
  revert ls Hl. induction ps as [|p ps IH]; intros [|l ls] Hl; try discriminate;
    [reflexivity|].
  cbn [count_pairs filter]. specialize (IH ls ltac:(cbn in Hl; lia)).
  destruct (equal1 l (of_int label)), (greater p th); cbn [andb Bool.eqb length];
    lia.
Qed.
End Sweep_counts.

Lemma auc_update_on_vectors {L} `{Numeric L} (ps : list Qc) (ls : list L) (T : nat) :
  length ls = length ps -> (2 <= T)%nat ->
  exists m,
    streaming_auc (vector ps) (vector ls) None T = Ok m /\
    forall s, auc_shaped T s ->
      exists u, update_op m s = Some (u, auc_after ps ls T s).
Proof.
  intros Hl HT. destruct (auc_on_vectors ps ls T Hl HT) as (m & Hm & _ & Hu).
  exists m. split; [exact Hm|]. intros s Hs. rewrite (Hu s Hs).
  apply compute_auc_unordered_returns.
Qed.

(** X8: for scores between 0 and 1, the first threshold ([0 - 1e-7])
    classifies every observation as positive and the last ([1 + 1e-7]) every
    observation as negative: an update adds the observations of label 1 to
    the first cell of [true_positives] and to the last cell of
    [false_negatives], those of label 0 to the first cell of
    [false_positives] and to the last cell of [true_negatives], and nothing
    to the four opposite cells. *)
Theorem auc_extreme_thresholds {L} `{Numeric L} (ps : list Qc) (ls : list L) (T : nat) :
  length ls = length ps -> (2 <= T)%nat -> in_unit_range ps ->
  exists m,
    streaming_auc (vector ps) (vector ls) None T = Ok m /\
    forall s, auc_shaped T s ->
      let s' := auc_after ps ls T s in
      let first (v : list Qc) := nth 0 v (Q2Qc 0) in
      let last (v : list Qc) := nth (T - 1) v (Q2Qc 0) in
      (exists u, update_op m s = Some (u, s')) /\
      first (true_positives s')
        = first (true_positives s) + Qc_of_nat (count_label 1 ls) /\
      first (false_positives s')
        = first (false_positives s) + Qc_of_nat (count_label 0 ls) /\
      first (false_negatives s') = first (false_negatives s) + Q2Qc 0 /\
      first (true_negatives s') = first (true_negatives s) + Q2Qc 0 /\
      last (true_positives s') = last (true_positives s) + Q2Qc 0 /\
      last (false_positives s') = last (false_positives s) + Q2Qc 0 /\
      last (false_negatives s')
        = last (false_negatives s) + Qc_of_nat (count_label 1 ls) /\
      last (true_negatives s')
        = last (true_negatives s) + Qc_of_nat (count_label 0 ls).
Proof.
  intros Hl HT Hr.
  destruct (auc_update_on_vectors ps ls T Hl HT) as (m & Hm & Hu).
  exists m. split; [exact Hm|]. intros s Hs s' first last.
  split; [exact (Hu s Hs)|].
  destruct Hs as (Htp & Hfn & Htn & Hfp).
  assert (Hfirst : Forall (fun p => greater p (threshold T 0) = true) ps).
  { rewrite threshold_first. eapply Forall_impl; [|exact Hr].
    intros p [Hp _]. apply greater_first_threshold, Hp. }
  assert (Hlast : Forall (fun p => greater p (threshold T (T - 1)) = false) ps).
  { rewrite (threshold_last T HT). eapply Forall_impl; [|exact Hr].
    intros p [_ Hp]. apply greater_last_threshold, Hp. }
  unfold s', first, last, auc_after.
  cbn [true_positives false_negatives true_negatives false_positives].
  rewrite !add_counts_nth by (assumption || lia).
  rewrite (count_at_all 1 true ps ls _ Hl Hfirst).
  rewrite (count_at_all 0 true ps ls _ Hl Hfirst).
  rewrite (count_at_none 1 false ps ls _ Hfirst).
  rewrite (count_at_none 0 false ps ls _ Hfirst).
  rewrite (count_at_none 1 true ps ls _ Hlast).
  rewrite (count_at_none 0 true ps ls _ Hlast).
  rewrite (count_at_all 1 false ps ls _ Hl Hlast).
  rewrite (count_at_all 0 false ps ls _ Hl Hlast).
  repeat split; reflexivity.
Qed.

(** X9: at every threshold an update of [streaming_auc] puts each
    observation whose label is 1 or 0 into exactly one of the four confusion
    cells: the sum of the four cells grows by the number of such
    observations. *)
Theorem auc_cells_partition_the_batch {L} `{Numeric L}
    (ps : list Qc) (ls : list L) (T : nat) :
  length ls = length ps -> (2 <= T)%nat ->
  exists m,
    streaming_auc (vector ps) (vector ls) None T = Ok m /\
    forall s, auc_shaped T s ->
      (exists u, update_op m s = Some (u, auc_after ps ls T s)) /\
      forall i, (i < T)%nat ->
        cells_sum (auc_after ps ls T s) i
        = cells_sum s i + Qc_of_nat (count_label 1 ls + count_label 0 ls).
Proof.
  intros Hl HT.
  destruct (auc_update_on_vectors ps ls T Hl HT) as (m & Hm & Hu).
  exists m. split; [exact Hm|]. intros s Hs. split; [exact (Hu s Hs)|].
  intros i Hi. destruct Hs as (Htp & Hfn & Htn & Hfp).
  unfold cells_sum, auc_after.
  cbn [true_positives false_negatives true_negatives false_positives].
  rewrite !add_counts_nth by assumption.
  rewrite Qc_of_nat_plus.
  rewrite <- (count_at_split 1 ps ls (threshold T i) Hl).
  rewrite <- (count_at_split 0 ps ls (threshold T i) Hl).
  ring.
Qed.

Lemma known_mismatch_checks {A B} (a : Tensor A) (b : Tensor B) :
  known_mismatch a b ->
  _remove_squeezable_dimensions (Value a) (Value b) = Ok (Value a, Value b) /\
  is_compatible_with (get_shape (Value a)) (get_shape (Value b)) = false.
Proof.
  intros (Ha & Hb & Hr & Hd). split.
  - apply remove_squeezable_unchanged. intros lr pr. cbn [get_shape ndims].
    rewrite Ha, Hb. cbn. intros E1 E2. inversion E1; inversion E2; subst. lia.
  - cbn [get_shape]. rewrite Ha, Hb. cbn [is_compatible_with].
    destruct (dims_eqb (dims a) (dims b)) eqn:E; [|reflexivity].
    apply dims_eqb_eq in E. contradiction.
Qed.

(** X10: every constructor that takes predictions and labels raises
    [ValueError] when their shapes are known, have one rank and differ in a
    dimension, and [streaming_mean] raises it for such values and weights:
    no metric is built and no accumulator exists to update. *)
Theorem known_shape_mismatch_raises :
  (forall A W (FA : ToFloat A) (FW : ToFloat W) (tv : Tensor A) (tw : Tensor W),
     known_mismatch tv tw ->
     streaming_mean (Value tv) (Some (Value tw)) = ValueError) /\
  (forall A (NA : Numeric A) (p l : Tensor A) mask,
     known_mismatch p l ->
     streaming_accuracy (Value p) (Value l) (@None (Node Qc)) = ValueError /\
     streaming_precision (Value p) (Value l) mask = ValueError /\
     streaming_recall (Value p) (Value l) mask = ValueError) /\
  (forall L (NL : Numeric L) (p : Tensor Qc) (l : Tensor L) mask num_thresholds,
     known_mismatch p l ->
     streaming_auc (Value p) (Value l) mask num_thresholds = ValueError) /\
  (forall (p l : Tensor Qc) (normalizer : Node Qc) (dim : nat),
     known_mismatch p l ->
     streaming_mean_absolute_error (Value p) (Value l) (@None (Node Qc))
       = ValueError /\
     streaming_mean_relative_error (Value p) (Value l) normalizer
       (@None (Node Qc)) = ValueError /\
     streaming_mean_squared_error (Value p) (Value l) (@None (Node Qc))
       = ValueError /\
     streaming_root_mean_squared_error (Value p) (Value l) (@None (Node Qc))
       = ValueError /\
     streaming_mean_cosine_distance (Value p) (Value l) dim (@None (Node Qc))
       = ValueError).
Proof.
  split; [|split; [|split]].
  - intros A W FA FW tv tw (Ha & Hb & Hr & Hd). unfold streaming_mean.
    replace (is_compatible_with (get_shape (to_float (Value tv)))
               (get_shape (Value tw))) with false; [reflexivity|].
    unfold to_float. cbn [map_node get_shape shape_known dims].
    rewrite Ha, Hb. cbn [is_compatible_with]. symmetry.
    destruct (dims_eqb (dims tv) (dims tw)) eqn:E; [|reflexivity].
    apply dims_eqb_eq in E. contradiction.
  - intros A NA p l mask Hk. destruct (known_mismatch_checks p l Hk) as [Hs Hc].
    unfold streaming_accuracy, streaming_precision, streaming_recall.
    rewrite Hs. cbn [rbind fst snd]. rewrite Hc. auto.
  - intros L NL p l mask T Hk. destruct (known_mismatch_checks p l Hk) as [Hs Hc].
    unfold streaming_auc. rewrite Hs. cbn [rbind fst snd]. rewrite Hc.
    reflexivity.
  - intros p l normalizer dim Hk.
    destruct (known_mismatch_checks p l Hk) as [Hs Hc].
    unfold streaming_mean_absolute_error, streaming_mean_relative_error,
      streaming_mean_squared_error, streaming_root_mean_squared_error,
      streaming_mean_cosine_distance.
    rewrite Hs. cbn [rbind fst snd]. rewrite Hc. auto 6.
Qed.

Lemma Qle_bool_0_iff (x : Qc) : Qle_bool 0%Q (this x) = true <-> Q2Qc 0 <= x.
Proof. rewrite Qle_bool_iff. reflexivity. Qed.

Lemma Qc_abs_opp (x : Qc) : Qc_abs (- x) = Qc_abs x.
Proof.
  unfold Qc_abs.
  destruct (Qle_bool 0%Q (this (Qcopp x))) eqn:E1,
           (Qle_bool 0%Q (this x)) eqn:E2.
  - apply Qle_bool_0_iff in E1, E2.
    assert (Hx : x = Q2Qc 0).
    { apply Qcle_antisym; [|exact E2].
      apply Qcopp_le_compat in E1. rewrite Qcopp_involutive in E1. exact E1. }
    rewrite Hx. apply Qc_is_canon. reflexivity.
  - reflexivity.
  - apply Qcopp_involutive.
  - exfalso.
    assert (H1 : ~ Q2Qc 0 <= - x).
    { intro Hle. apply Qle_bool_0_iff in Hle. congruence. }
    assert (H2 : ~ Q2Qc 0 <= x).
    { intro Hle. apply Qle_bool_0_iff in Hle. congruence. }
    apply Qcnot_le_lt in H1, H2. apply Qclt_le_weak in H1.
    apply Qcopp_le_compat in H1. rewrite Qcopp_involutive in H1.
    exact (Qclt_not_le _ _ H2 H1).
Qed.

Lemma map2_swap {A B C} (f : A -> B -> C) (xs : list A) (ys : list B) :
  map2 f xs ys = map2 (fun y x => f x y) ys xs.
Proof.
  unfold map2. revert ys. induction xs as [|x xs IH]; intros [|y ys];
    cbn [combine map fst snd]; try reflexivity.
  rewrite IH. reflexivity.
Qed.

Lemma map_map2 {A B C D} (g : C -> D) (f : A -> B -> C) (xs : list A) (ys : list B) :
  map g (map2 f xs ys) = map2 (fun x y => g (f x y)) xs ys.
Proof. unfold map2. rewrite map_map. reflexivity. Qed.

Lemma map2_ext {A B C} (f g : A -> B -> C) (xs : list A) (ys : list B) :
  (forall x y, f x y = g x y) -> map2 f xs ys = map2 g xs ys.
Proof. intro Hfg. unfold map2. apply map_ext. intros [x y]. apply Hfg. Qed.

Lemma same_shape_sym {A B} (a : Tensor A) (b : Tensor B) :
  same_shape a b = true -> same_shape b a = true.
Proof.
  intro Hs. apply same_shape_iff in Hs. apply same_shape_iff.
  destruct Hs. split; congruence.
Qed.

Lemma absolute_error_increments (p l : Tensor Qc) :
  same_shape p l = true ->
  exists m,
    streaming_mean_absolute_error (Value p) (Value l) (@None (Node Qc)) = Ok m /\
    value_tensor m = compute_mean total_var count_var /\
    forall s,
      update_op m s =
      compute_mean total_var count_var
        (mkMeanVars
           (total s + sum_list (map2 (fun x y => Qc_abs (x - y)) (elems p) (elems l)))
           (count s + Qc_of_nat (length (elems p)))).
Proof.
  intro Hs. pose proof (proj1 (same_shape_iff _ _) Hs) as [Hd Hl].
  unfold streaming_mean_absolute_error.
  rewrite (remove_squeezable_same_dims _ _ Hd). cbn [rbind fst snd].
  rewrite (dims_compatible p l) by (apply dims_eqb_eq, Hd).
  unfold sub. rewrite (zip_node_values _ _ _ Hs). cbn [map_node dims elems shape_known].
  destruct (streaming_mean_unweighted (W:=Qc)
              (mkTensor (shape_known p && shape_known l) (dims p)
                 (map Qc_abs (map2 Qcminus (elems p) (elems l)))))
    as (m & Hm & _ & Hv & Hu).
  exists m. split; [exact Hm|]. split; [exact Hv|].
  intro s. rewrite Hu. cbn [elems].
  rewrite map_to_float_Qc, length_map, length_map2, map_map2 by exact Hl.
  reflexivity.
Qed.

Lemma squared_error_increments (p l : Tensor Qc) :
  same_shape p l = true ->
  exists m,
    streaming_mean_squared_error (Value p) (Value l) (@None (Node Qc)) = Ok m /\
    value_tensor m = compute_mean total_var count_var /\
    forall s,
      update_op m s =
      compute_mean total_var count_var
        (mkMeanVars
           (total s + sum_list (map2 (fun x y => (y - x) * (y - x))
                                  (elems p) (elems l)))
           (count s + Qc_of_nat (length (elems p)))).
Proof.
  intro Hs. pose proof (proj1 (same_shape_iff _ _) Hs) as [Hd Hl].
  unfold streaming_mean_squared_error.
  rewrite (remove_squeezable_same_dims _ _ Hd). cbn [rbind fst snd].
  rewrite (dims_compatible p l) by (apply dims_eqb_eq, Hd).
  unfold sub. rewrite (zip_node_values _ _ _ (same_shape_sym _ _ Hs)).
  cbn [map_node dims elems shape_known].
  destruct (streaming_mean_unweighted (W:=Qc)
              (mkTensor (shape_known l && shape_known p) (dims l)
                 (map (fun x => x * x) (map2 Qcminus (elems l) (elems p)))))
    as (m & Hm & _ & Hv & Hu).
  exists m. split; [exact Hm|]. split; [exact Hv|].
  intro s. rewrite Hu. cbn [elems].
  rewrite map_to_float_Qc, length_map, length_map2, map_map2 by (symmetry; exact Hl).
  rewrite (map2_swap _ (elems l) (elems p)), Hl. reflexivity.
Qed.

(** X11: without weights, the mean absolute error adds the sum of
    [|prediction - label|] and the mean squared error the sum of
    [(label - prediction)^2] to [total], and both add the number of elements
    to [count]; exchanging predictions and labels changes neither metric. *)
Theorem error_metrics_are_symmetric (p l : Tensor Qc) :
  same_shape p l = true ->
  exists mae mae' mse mse',
    streaming_mean_absolute_error (Value p) (Value l) (@None (Node Qc)) = Ok mae /\
    streaming_mean_absolute_error (Value l) (Value p) (@None (Node Qc)) = Ok mae' /\
    streaming_mean_squared_error (Value p) (Value l) (@None (Node Qc)) = Ok mse /\
    streaming_mean_squared_error (Value l) (Value p) (@None (Node Qc)) = Ok mse' /\
    increments_by mae
      (sum_list (map2 (fun x y => Qc_abs (x - y)) (elems p) (elems l)))
      (Qc_of_nat (length (elems p))) /\
    increments_by mse
      (sum_list (map2 (fun x y => (y - x) * (y - x)) (elems p) (elems l)))
      (Qc_of_nat (length (elems p))) /\
    forall s,
      update_op mae s = update_op mae' s /\ value_tensor mae s = value_tensor mae' s /\
      update_op mse s = update_op mse' s /\ value_tensor mse s = value_tensor mse' s.
Proof.
  intro Hs. pose proof (same_shape_sym _ _ Hs) as Hs'.
  pose proof (proj1 (same_shape_iff _ _) Hs) as [_ Hl].
  destruct (absolute_error_increments p l Hs) as (mae & Ha & Hva & Hua).
  destruct (absolute_error_increments l p Hs') as (mae' & Ha' & Hva' & Hua').
  destruct (squared_error_increments p l Hs) as (mse & Hq & Hvq & Huq).
  destruct (squared_error_increments l p Hs') as (mse' & Hq' & Hvq' & Huq').
  exists mae, mae', mse, mse'.
  repeat (split; [assumption|]).
  split; [intro s; rewrite Hua; apply compute_mean_read_only|].
  split; [intro s; rewrite Huq; apply compute_mean_read_only|].
  intro s. rewrite Hua, Hua', Huq, Huq', Hva, Hva', Hvq, Hvq'.
  rewrite (map2_swap _ (elems l) (elems p)), <- Hl.
  rewrite (map2_swap (fun x y : Qc => (y - x) * (y - x)) (elems l) (elems p)).
  rewrite (map2_ext (fun y x : Qc => Qc_abs (x - y)) (fun x y => Qc_abs (x - y))
             (elems p) (elems l)).
  2:{ intros x y. rewrite <- (Qc_abs_opp (x - y)). f_equal. ring. }
  rewrite (map2_ext (fun y x : Qc => (y - x) * (y - x))
             (fun x y => (y - x) * (y - x)) (elems p) (elems l))
    by (intros x y; ring).
  repeat split; reflexivity.
Qed.

Lemma chunks_lengths {A} (n k : nat) (l : list A) :
  length l = (k * n)%nat ->
  Forall (fun r => length r = n) (chunks n k l) /\ concat (chunks n k l) = l.
Proof.
  revert l. induction k as [|k IH]; intros l Hl; cbn [chunks concat].
  - split; [constructor|]. destruct l; [reflexivity|discriminate].
  - destruct (IH (skipn n l)) as [IH1 IH2].
    { rewrite length_skipn, Hl. cbn. lia. }
    split.
    + constructor; [|exact IH1]. rewrite length_firstn, Hl. cbn. lia.
    + rewrite IH2. apply firstn_skipn.
Qed.

Lemma sum_list_concat (rows : list (list Qc)) :
  sum_list (concat rows) = sum_list (map sum_list rows).
Proof.
  induction rows as [|r rows IH]; [reflexivity|].
  cbn [concat map]. rewrite sum_list_app, IH. reflexivity.
Qed.

Lemma row_sums (D : nat) (rows : list (list Qc)) :
  Forall (fun r => length r = D) rows ->
  flat_map (fun block => sum_rows 1 (chunks 1 D block)) rows = map sum_list rows.
Proof.
  induction 1 as [|r rows Hr _ IH]; [reflexivity|].
  cbn [flat_map map]. rewrite IH. rewrite <- Hr.
  rewrite chunks_singletons, sum_rows_singletons. reflexivity.
Qed.

Lemma reduce_axis_1_total (k keep : bool) (N D : nat) (xs : list Qc) :
  length xs = (N * D)%nat ->
  exists sums,
    reduce_sum_axis 1 keep (Value (mkTensor k [N; D] xs))
    = Value (mkTensor k (N :: (if keep then [1%nat] else [])) sums) /\
    length sums = N /\ sum_list sums = sum_list xs.
Proof.
  intro Hl. destruct (chunks_lengths D N xs Hl) as [Hrows Hcat].
  exists (map sum_list (chunks D N xs)). split; [|split].
  - unfold reduce_sum_axis.
    cbn [dims elems shape_known length Nat.ltb Nat.leb firstn skipn nth app
           prod_dims fold_right].
    rewrite !Nat.mul_1_r, (row_sums D _ Hrows). destruct keep; reflexivity.
  - rewrite length_map. clear. revert xs.
    induction N as [|N IH]; intro xs; cbn; [|rewrite IH]; reflexivity.
  - rewrite <- sum_list_concat, Hcat. reflexivity.
Qed.

(** X12: for predictions and labels of shape [[N, D]], the mean cosine
    distance along the second dimension adds the sum of all products
    [prediction * label] to [total] and the number of rows [N] to [count],
    and its value is [1 - total / count] once [count] is positive. *)
Theorem cosine_distance_accumulates_products (p l : Tensor Qc) (N D : nat) :
  dims p = [N; D] -> length (elems p) = (N * D)%nat -> same_shape p l = true ->
  exists m,
    streaming_mean_cosine_distance (Value p) (Value l) 1 (@None (Node Qc)) = Ok m /\
    (forall s, exists u,
       update_op m s =
       Some (u, mkMeanVars
                  (total s + sum_list (map2 Qcmult (elems p) (elems l)))
                  (count s + Qc_of_nat N))) /\
    (forall s, Q2Qc 0 < count s ->
       value_tensor m s = Some (Q2Qc 1 - total s / count s, s)).
Proof.
  intros Hdims Hlen Hs. pose proof (proj1 (same_shape_iff _ _) Hs) as [Hd Hl].
  unfold streaming_mean_cosine_distance.
  rewrite (remove_squeezable_same_dims _ _ Hd). cbn [rbind fst snd].
  rewrite (dims_compatible p l) by (apply dims_eqb_eq, Hd).
  unfold mul. rewrite (zip_node_values _ _ _ Hs). rewrite Hdims.
  destruct (reduce_axis_1_total (shape_known p && shape_known l) true N D
              (map2 Qcmult (elems p) (elems l)))
    as (sums & Hred & Hn & Hsum).
  { rewrite length_map2 by exact Hl. exact Hlen. }
  rewrite Hred.
  destruct (streaming_mean_unweighted (W:=Qc)
              (mkTensor (shape_known p && shape_known l) [N; 1%nat] sums))
    as (m & Hm & _ & Hv & Hu).
  rewrite Hm. cbn [rbind]. eexists. split; [reflexivity|].
  cbn [update_op value_tensor]. split.
  - intro s. unfold bind. rewrite Hu. cbn [elems].
    rewrite map_to_float_Qc, Hsum, Hn.
    destruct (compute_mean_read_only
                (mkMeanVars (total s + sum_list (map2 Qcmult (elems p) (elems l)))
                   (count s + Qc_of_Z (Z.of_nat N)))) as [v Hv'].
    rewrite Hv'. eexists. reflexivity.
  - intros s Hc. unfold bind. rewrite Hv.
    rewrite (proj1 (compute_mean_spec s) Hc). reflexivity.
Qed.

Lemma transpose_of_column {A} (xs : list A) :
  transpose (column xs) = Value (mkTensor true [1%nat; length xs] xs).
Proof. exact (transpose_column xs). Qed.

Lemma kept_indicator_sum {L} (f : L -> bool) (g : Qc -> bool)
    (ps : list Qc) (ls : list L) (ms : list bool) :
  length ls = length ps -> length ms = length ps ->
  sum_list
    (map2 (fun b p => select1 b (fst p) (snd p)) ms
       (map2 pair (map (fun _ : L => Q2Qc 0) ls)
          (map to_float1 (map2 andb (map f ls) (map g ps)))))
  = Qc_of_nat
      (count_pairs (fun (pl : Qc * L) (i : bool) => negb i && (f (snd pl) && g (fst pl)))
         (combine ps ls) ms).
Proof.
  revert ls ms.
  induction ps as [|p ps IH]; intros [|l ls] [|i ms] Hl Hm; try discriminate.
  - reflexivity.
  - specialize (IH ls ms ltac:(simpl in Hl; lia) ltac:(simpl in Hm; lia)).
    unfold map2 in *. cbn [map combine fst snd sum_list fold_right count_pairs].
    cbn [map combine fst snd sum_list fold_right] in IH.
    fold (sum_list
            (map (fun p0 => select1 (fst p0) (fst (snd p0)) (snd (snd p0)))
               (combine ms
                  (map (fun p0 => (fst p0, snd p0))
                     (combine (map (fun _ : L => Q2Qc 0) ls)
                        (map to_float1
                           (map (fun p0 => fst p0 && snd p0)
                              (combine (map f ls) (map g ps))))))))).
    rewrite IH, Qc_of_nat_plus.
    destruct i; cbn [select1 negb andb]; [reflexivity|].
    rewrite to_float_indicator. reflexivity.
Qed.

Section Masked_sweep.
Context {L : Type} `{Numeric L}.

Lemma masked_indicator_rows (label : Z) (positive : bool)
    (ps : list Qc) (ls : list L) (ms : list bool) (ths : list Qc) (T : nat) :
  length ths = T -> length ls = length ps -> length ms = length ps ->
  reduce_sum_axis 1 false
    (select
       (Value (mkTensor true [T; length ms] (concat (map (fun _ => ms) ths))))
       (zeros_like (Q2Qc 0)
          (Value (mkTensor true [T; length ls] (concat (map (fun _ => ls) ths)))))
       (to_float
          (logical_and
             (equal_const
                (Value (mkTensor true [T; length ls]
                          (concat (map (fun _ => ls) ths)))) label)
             (equal_const
                (Value (mkTensor true [T; length ps]
                          (concat (map (fun th =>
                                          map (fun p => int32_of_bool (greater p th)) ps)
                                     ths))))
                (int32_of_bool positive)))))
  = Value (mkTensor true [T]
             (map (count_kept_at label positive ps ls ms) ths)).
Proof.
  intros <- Hl Hm. unfold logical_and, equal_const, zeros_like, select.
  cbn [map_node dims elems shape_known].
  rewrite zip_node_values.
  2:{ apply same_shape_iff. cbn [dims elems]. split; [congruence|].
      rewrite !length_map.
      rewrite (length_rows (length ls)) by reflexivity.
      rewrite (length_rows (length ps)) by (intro; apply length_map).
      congruence. }
  cbn [dims elems shape_known andb]. unfold to_float.
  cbn [map_node dims elems shape_known].
  rewrite !map_rows.
  rewrite (zip_rows andb) by (intro; rewrite !length_map; exact Hl).
  rewrite map_rows.
  rewrite zip_node_values.
  2:{ apply same_shape_iff. cbn [dims elems]. split; [reflexivity|].
      rewrite (length_rows (length ls)) by (intro; apply length_map).
      rewrite (length_rows (length ls)).
      - reflexivity.
      - intro th. rewrite length_map, length_map2 by (rewrite !length_map; exact Hl).
        apply length_map. }
  cbn [dims elems shape_known andb].
  rewrite (zip_rows pair).
  2:{ intro th. rewrite !length_map, length_map2 by (rewrite !length_map; exact Hl).
      rewrite length_map. reflexivity. }
  rewrite zip_node_values.
  2:{ apply same_shape_iff. cbn [dims elems]. split; [congruence|].
      rewrite (length_rows (length ms)) by reflexivity.
      rewrite (length_rows (length ls)).
      - congruence.
      - intro th. rewrite length_map2; rewrite !length_map; [reflexivity|].
        rewrite length_map2 by (rewrite !length_map; exact Hl).
        rewrite length_map. reflexivity. }
  cbn [dims elems shape_known andb].
  rewrite (zip_rows (fun (b : bool) (p : Qc * Qc) => select1 b (fst p) (snd p))).
  2:{ intro th. rewrite length_map2; rewrite !length_map.
      - congruence.
      - rewrite length_map2 by (rewrite !length_map; exact Hl).
        rewrite length_map. reflexivity. }
  rewrite (reduce_rows true _ ths (length ms)).
  2:{ intro th. rewrite length_map2; [reflexivity|].
      rewrite length_map2; rewrite !length_map;
        [congruence|].
      rewrite length_map2 by (rewrite !length_map; exact Hl).
      rewrite length_map. reflexivity. }
  f_equal. f_equal. apply map_ext. intro th.
  rewrite (map_map (fun p : Qc => int32_of_bool (greater p th))).
  rewrite (kept_indicator_sum (fun l => equal1 l (of_int label))
             (fun p => equal1 (int32_of_bool (greater p th))
                         (of_int (int32_of_bool positive))) ps ls ms Hl Hm).
  unfold count_kept_at. f_equal. clear Hl Hm. revert ms.
  generalize (combine ps ls) as pls.
  induction pls as [|[p l] pls IH]; intros [|i ms]; cbn [count_pairs]; try reflexivity.
  rewrite IH. cbn [fst snd equal1 of_int Numeric_Z]. rewrite int32_of_bool_eqb.
  reflexivity.
Qed.
End Masked_sweep.

Lemma count_kept_none {L} `{Numeric L} (label : Z) (positive : bool)
    (ps : list Qc) (ls : list L) (th : Qc) :
  length ls = length ps ->
  count_kept_at label positive ps ls (repeat false (length ps)) th
  = count_at label positive ps ls th.
Proof.
  intro Hl. unfold count_kept_at, count_at. f_equal. revert ls Hl.
  induction ps as [|p ps IH]; intros [|l ls] Hl; try discriminate; [reflexivity|].
  cbn [combine length repeat count_pairs fst snd negb andb].
  rewrite IH by (simpl in Hl; lia). reflexivity.
Qed.

Lemma count_kept_all {L} `{Numeric L} (label : Z) (positive : bool)
    (ps : list Qc) (ls : list L) (th : Qc) :
  count_kept_at label positive ps ls (repeat true (length ps)) th = Q2Qc 0.
Proof.
  unfold count_kept_at.
  replace (count_pairs _ (combine ps ls) (repeat true (length ps))) with O;
    [reflexivity|].
  symmetry. revert ls.
  induction ps as [|p ps IH]; intros [|l ls]; try reflexivity.
  cbn [combine length repeat count_pairs fst snd negb andb]. apply IH.
Qed.

Lemma auc_masked_on_vectors {L} `{Numeric L} (ps : list Qc) (ls : list L)
    (ms : list bool) (T : nat) :
  length ls = length ps -> length ms = length ps -> (2 <= T)%nat ->
  exists m,
    streaming_auc (vector ps) (vector ls) (Some (column ms)) T = Ok m /\
    forall s, auc_shaped T s ->
      update_op m s
      = compute_auc (read_unordered s) T (auc_after_masked ps ls ms T s).
Proof.
  intros Hl Hm HT. unfold streaming_auc.
  replace (_remove_squeezable_dimensions (vector ps) (vector ls))
    with (Ok (vector ps, vector ls))
    by (symmetry; apply remove_squeezable_same_dims; cbn; congruence).
  cbn [rbind fst snd].
  replace (is_compatible_with (get_shape (vector ps)) (get_shape (vector ls)))
    with true by (cbn; rewrite Hl, Nat.eqb_refl; reflexivity).
  rewrite linspace_thresholds by exact HT.
  pose proof (length_thresholds T) as Hths.
  change (match get_shape (reshape_column (vector ps)) with
          | Some ds => hd O ds
          | None => shape_0 (reshape_column (vector ps))
          end) with (length ps).
  rewrite (pred_tiled_rows_at ps (thresholds T) T Hths).
  rewrite (labels_tiled_rows_at ls (thresholds T) T Hths).
  change (column ms) with (reshape_column (vector ms)).
  rewrite (labels_tiled_rows_at ms (thresholds T) T Hths).
  replace (is_compatible_with
             (get_shape (Value (mkTensor true [T; length ls]
                                  (concat (map (fun _ => ls) (thresholds T))))))
             (get_shape (Value (mkTensor true [T; length ms]
                                  (concat (map (fun _ => ms) (thresholds T)))))))
    with true
    by (cbn; rewrite Hl, Hm, !Nat.eqb_refl; reflexivity).
  cbn [rbind ind_true_positive ind_false_negative ind_true_negative ind_false_positive].
  rewrite (masked_indicator_rows 1 true ps ls ms (thresholds T) T Hths Hl Hm).
  rewrite (masked_indicator_rows 1 false ps ls ms (thresholds T) T Hths Hl Hm).
  rewrite (masked_indicator_rows 0 false ps ls ms (thresholds T) T Hths Hl Hm).
  rewrite (masked_indicator_rows 0 true ps ls ms (thresholds T) T Hths Hl Hm).
  replace (squeeze_all [T]) with [T].
  2:{ unfold squeeze_all. cbn [filter].
      replace (Nat.eqb T 1) with false by (symmetry; apply Nat.eqb_neq; lia).
      reflexivity. }
  rewrite Nat.eqb_refl.
  eexists. split; [reflexivity|]. cbn [value_tensor update_op].
  intros s (Htp & Hfn & Htn & Hfp).
  cbn [control_dependencies]. unfold bind.
  rewrite (assign_add_vector_shaped tp_var _ T s Htp)
    by (rewrite length_map; exact Hths).
  rewrite (assign_add_vector_shaped fn_var _ T (var_set tp_var _ s) Hfn)
    by (rewrite length_map; exact Hths).
  rewrite (assign_add_vector_shaped tn_var _ T
             (var_set fn_var _ (var_set tp_var _ s)) Htn)
    by (rewrite length_map; exact Hths).
  rewrite (assign_add_vector_shaped fp_var _ T
             (var_set tn_var _ (var_set fn_var _ (var_set tp_var _ s))) Hfp)
    by (rewrite length_map; exact Hths).
  reflexivity.
Qed.

(** X13: [streaming_auc] with an ignore mask: for rank-1 predictions and
    labels of one length, a mask given as a column of that length and at least
    two thresholds, the constructor succeeds and one update adds to each cell
    of the four confusion vectors the number of positions that are not masked
    and fall into that cell at that threshold, so a masked position is
    counted in none of the four.  A mask that ignores nothing adds what the
    call without a mask adds, and a mask that ignores every position adds
    zero to every cell. *)
Theorem auc_mask_removes_positions {L} `{Numeric L} (ps : list Qc) (ls : list L)
    (ms : list bool) (T : nat) :
  length ls = length ps -> length ms = length ps -> (2 <= T)%nat ->
  (exists m,
     streaming_auc (vector ps) (vector ls) (Some (column ms)) T = Ok m /\
     forall s, auc_shaped T s ->
       exists u, update_op m s = Some (u, auc_after_masked ps ls ms T s)) /\
  (forall s, auc_after_masked ps ls (repeat false (length ps)) T s
             = auc_after ps ls T s) /\
  (forall label positive th,
     count_kept_at label positive ps ls (repeat true (length ps)) th = Q2Qc 0).
Proof.
  intros Hl Hm HT. split; [|split].
  - destruct (auc_masked_on_vectors ps ls ms T Hl Hm HT) as (m & Hc & Hu).
    exists m. split; [exact Hc|]. intros s Hs. rewrite (Hu s Hs).
    apply compute_auc_unordered_returns.
  - intro s. unfold auc_after_masked, auc_after, add_kept_counts, add_counts.
    f_equal; f_equal; apply map_ext; intro th; apply count_kept_none; exact Hl.
  - intros label positive th. apply count_kept_all.
Qed.

Lemma map2_tf_div_nonzero (xs ns : list Qc) :
  Forall (fun x => x <> Q2Qc 0) ns -> map2 tf_div xs ns = map2 Qcdiv xs ns.
Proof.
  intro Hn. revert xs. induction Hn as [|n ns Hn _ IH]; intros [|x xs];
    try reflexivity.
  unfold map2 in *. cbn [combine map fst snd].
  rewrite (tf_div_nonzero x n Hn), IH. reflexivity.
Qed.

Lemma map2_div_ones (xs ns : list Qc) :
  length xs = length ns -> Forall (fun x => x = Q2Qc 1) ns ->
  map2 Qcdiv xs ns = xs.
Proof.
  intros Hl Hn. revert xs Hl. induction Hn as [|n ns Hn _ IH]; intros [|x xs] Hl;
    try discriminate; [reflexivity|].
  unfold map2 in *. cbn [combine map fst snd].
  rewrite IH by (simpl in Hl; lia). subst n. f_equal. field. discriminate.
Qed.

Lemma relative_error_increments (p l n : Tensor Qc) :
  same_shape p l = true -> same_shape p n = true ->
  exists m,
    streaming_mean_relative_error (Value p) (Value l) (Value n) (@None (Node Qc))
    = Ok m /\
    value_tensor m = compute_mean total_var count_var /\
    forall s,
      update_op m s =
      compute_mean total_var count_var
        (mkMeanVars
           (total s
            + sum_list
                (map2 tf_div
                   (map2 (fun y x => Qc_abs (y - x)) (elems l) (elems p))
                   (elems n)))
           (count s + Qc_of_nat (length (elems p)))).
Proof.
  intros Hs Hn.
  pose proof (proj1 (same_shape_iff _ _) Hs) as [Hd Hl].
  pose proof (proj1 (same_shape_iff _ _) Hn) as [Hdn Hln].
  unfold streaming_mean_relative_error.
  rewrite (remove_squeezable_same_dims _ _ Hd). cbn [rbind fst snd].
  rewrite (dims_compatible p l) by (apply dims_eqb_eq, Hd).
  rewrite (remove_squeezable_same_dims _ _ Hdn). cbn [rbind fst snd].
  rewrite (dims_compatible p n) by (apply dims_eqb_eq, Hdn).
  unfold sub, div. rewrite (zip_node_values _ l p (same_shape_sym _ _ Hs)).
  cbn [map_node dims elems shape_known].
  rewrite zip_node_values.
  2:{ apply same_shape_iff. cbn [dims elems]. split; [congruence|].
      rewrite length_map, length_map2 by (symmetry; exact Hl). congruence. }
  cbn [dims elems shape_known].
  destruct (streaming_mean_unweighted (W:=Qc)
              (mkTensor (shape_known l && shape_known p && shape_known n) (dims l)
                 (map2 tf_div (map Qc_abs (map2 Qcminus (elems l) (elems p)))
                    (elems n))))
    as (m & Hm & _ & Hv & Hu).
  exists m. split; [exact Hm|]. split; [exact Hv|].
  intro s. rewrite Hu. cbn [elems].
  rewrite map_to_float_Qc, map_map2.
  rewrite length_map2; rewrite length_map2 by (symmetry; exact Hl);
    [|congruence].
  rewrite <- Hl. reflexivity.
Qed.

(** X14: [streaming_mean_relative_error] without weights, on predictions,
    labels and a normalizer of one shape: when no entry of the normalizer is
    zero, one update adds the sum of |label - prediction| / normalizer over
    the positions to [total] and the number of positions to [count], whatever
    the runtime does on a division by zero.  The code has no guard of its
    own for a zero normalizer: such an entry adds to [total] whatever the
    runtime's division yields there. *)
Theorem relative_error_divides_by_normalizer (p l n : Tensor Qc) :
  same_shape p l = true -> same_shape p n = true ->
  exists m,
    streaming_mean_relative_error (Value p) (Value l) (Value n) (@None (Node Qc))
    = Ok m /\
    (Forall (fun x => x <> Q2Qc 0) (elems n) ->
     increments_by m
       (sum_list
          (map2 Qcdiv (map2 (fun y x => Qc_abs (y - x)) (elems l) (elems p))
             (elems n)))
       (Qc_of_nat (length (elems p)))) /\
    increments_by m
      (sum_list
         (map2 (fun e d => if Qc_eqb d (Q2Qc 0) then div_by_zero e else e / d)
            (map2 (fun y x => Qc_abs (y - x)) (elems l) (elems p))
            (elems n)))
      (Qc_of_nat (length (elems p))).
Proof.
  intros Hs Hn.
  destruct (relative_error_increments p l n Hs Hn) as (m & Hm & _ & Hu).
  exists m. split; [exact Hm|]. split.
  - intros Hnz s. rewrite Hu, (map2_tf_div_nonzero _ _ Hnz).
    apply compute_mean_read_only.
  - intro s. rewrite Hu. apply compute_mean_read_only.
Qed.

(** X15: With a normalizer of the shape of the predictions whose entries
    are all one, [streaming_mean_relative_error] is
    [streaming_mean_absolute_error]: both constructors succeed, and their
    update and value operations agree on every state. *)
Theorem relative_error_of_unit_normalizer (p l n : Tensor Qc) :
  same_shape p l = true -> same_shape p n = true ->
  Forall (fun x => x = Q2Qc 1) (elems n) ->
  exists mre mae,
    streaming_mean_relative_error (Value p) (Value l) (Value n) (@None (Node Qc))
    = Ok mre /\
    streaming_mean_absolute_error (Value p) (Value l) (@None (Node Qc)) = Ok mae /\
    forall s,
      update_op mre s = update_op mae s /\
      value_tensor mre s = value_tensor mae s.
Proof.
  intros Hs Hn H1.
  pose proof (proj1 (same_shape_iff _ _) Hs) as [_ Hl].
  pose proof (proj1 (same_shape_iff _ _) Hn) as [_ Hln].
  destruct (relative_error_increments p l n Hs Hn) as (mre & Hm & Hv & Hu).
  destruct (absolute_error_increments p l Hs) as (mae & Ha & Hva & Hua).
  exists mre, mae. split; [exact Hm|]. split; [exact Ha|].
  intro s. rewrite Hu, Hua, Hv, Hva. split; [|reflexivity].
  rewrite map2_tf_div_nonzero.
  2:{ eapply Forall_impl; [|exact H1]. intros x -> . discriminate. }
  rewrite map2_div_ones; [|rewrite length_map2; congruence|exact H1].
  rewrite (map2_swap _ (elems l) (elems p)).
  rewrite (map2_ext (fun x y : Qc => Qc_abs (y - x)) (fun x y => Qc_abs (x - y))
             (elems p) (elems l)).
  2:{ intros x y. rewrite <- (Qc_abs_opp (y - x)). f_equal. ring. }
  reflexivity.
Qed.

(** X16: [streaming_recall_at_k]: when the runtime's [in_top_k] yields the
    tensor [hits] for the batch and the mask, if any, has its shape, one
    update adds to [total] the number of rows that are hits and whose mask
    entry is False, and to [count] the number of rows whose mask entry is
    False; the value is total/count, 0 at count 0.  A row whose mask entry
    is True is left out of both: [_mask_to_weights] negates the mask. *)
Theorem recall_at_k_skips_ignored (predictions : Node Qc) (labels : Node Z) (k : nat)
    (hits : Tensor bool) (mask : option (Tensor bool)) :
  in_top_k predictions labels k = Value hits ->
  mask_fits hits mask ->
  let ignored := ignored_positions mask (length (elems hits)) in
  exists m,
    streaming_recall_at_k predictions labels k (mask_node mask) = Ok m /\
    increments_by m
      (Qc_of_nat (count_pairs (fun hit i => negb i && hit) (elems hits) ignored))
      (Qc_of_nat (length (filter negb ignored))) /\
    reports_mean m.
Proof.
  intros Hk Hm ignored. unfold streaming_recall_at_k. rewrite Hk.
  unfold to_float. cbn [map_node shape_known dims elems].
  change (map to_float1 (elems hits))
    with (map (fun v => to_float1 (id v)) (elems hits)).
  destruct mask as [tm|]; cbn [mask_node mask_fits _mask_to_weights] in *.
  - unfold logical_not. cbn [map_node].
    destruct (streaming_mean_weighted
                (mkTensor (shape_known hits) (dims hits)
                   (map (fun v => to_float1 (id v)) (elems hits)))
                (mkTensor (shape_known tm) (dims tm) (map negb (elems tm))))
      as (m & Hok & _ & Hv & Hu).
    { rewrite same_shape_map. exact Hm. }
    exists m. split; [exact Hok|]. split.
    + intro s. rewrite Hu. cbn [elems].
      rewrite map_to_float_Qc, map_map, masked_indicator_product, kept_sum.
      apply compute_mean_read_only.
    + intro s. rewrite Hv. apply compute_mean_spec.
  - destruct (streaming_mean_unweighted (W:=bool)
                (mkTensor (shape_known hits) (dims hits)
                   (map (fun v => to_float1 (id v)) (elems hits))))
      as (m & Hok & _ & Hv & Hu).
    exists m. split; [exact Hok|]. split.
    + intro s. rewrite Hu. cbn [elems]. unfold ignored, ignored_positions.
      rewrite map_to_float_Qc, unmasked_indicator_sum, length_map,
        filter_negb_repeat_false.
      apply compute_mean_read_only.
    + intro s. rewrite Hv. apply compute_mean_spec.
Qed.

End More_properties.

(** * Closed instances of the further properties *)

(** X2 at predictions [1,1,0,0] and labels [1,0,1,0]: two of four match. *)
Lemma accuracy_counts_matches_witness :
  same_shape predictions_1100 labels_1010 = true /\
  exists m,
    streaming_accuracy (rt:=example_runtime)
      (Value predictions_1100) (Value labels_1010) (@None (Node Qc)) = Ok m /\
    increments_by m (Qc_of_nat 2) (Qc_of_nat 4).
Proof.
  split; [reflexivity|].
  destruct (accuracy_counts_matches (rt:=example_runtime)
              predictions_1100 labels_1010 eq_refl) as [Hm _].
  destruct Hm as (m & Hm & Hi & _). exists m. split; [exact Hm | exact Hi].
Defined.

(** X3 at the values [2,4,6], the threshold 5 and the mask that ignores the
    4: one of the two kept values is below the threshold. *)
Lemma percentage_less_skips_ignored_witness :
  mask_fits values_2_4_6 (Some mask_010) /\
  exists m,
    streaming_percentage_less (rt:=example_runtime)
      (Value values_2_4_6) (Q2Qc 5) (Some (Value mask_010)) = Ok m /\
    increments_by m (Qc_of_nat 1) (Qc_of_nat 2).
Proof.
  split; [reflexivity|].
  destruct (percentage_less_skips_ignored (rt:=example_runtime)
              values_2_4_6 (Q2Qc 5) (Some mask_010) eq_refl) as [Hm _].
  destruct Hm as (m & Hm & Hi & _). exists m. split; [exact Hm | exact Hi].
Defined.

(** X4 at shapes [2] and [2,1]: the aligned pair is left as it is. *)
Lemma remove_squeezable_dimensions_idempotent_witness :
  _remove_squeezable_dimensions (Value shape_2) (Value shape_2_1)
  = Ok (Value shape_2, Value (mkTensor true [2%nat] (elems shape_2_1))) /\
  _remove_squeezable_dimensions
    (Value shape_2) (Value (mkTensor true [2%nat] (elems shape_2_1)))
  = Ok (Value shape_2, Value (mkTensor true [2%nat] (elems shape_2_1))).
Proof.
  split; [reflexivity|].
  exact (remove_squeezable_dimensions_idempotent
           (Value shape_2) (Value shape_2)
           (Value shape_2_1) (Value (mkTensor true [2%nat] (elems shape_2_1)))
           eq_refl).
Defined.

(** X8 at four scores, their labels and three thresholds: the first
    threshold counts the two labels 1 as true positives. *)
Lemma auc_extreme_thresholds_witness :
  length labels_1100 = length scores_4 /\ (2 <= 3)%nat /\ in_unit_range scores_4 /\
  exists m,
    streaming_auc (rt:=example_runtime) (vector scores_4) (vector labels_1100) None 3
    = Ok m /\
    forall s, auc_shaped 3 s ->
      nth 0 (true_positives (auc_after scores_4 labels_1100 3 s)) (Q2Qc 0)
      = nth 0 (true_positives s) (Q2Qc 0) + Qc_of_nat 2.
Proof.
  assert (Hr : in_unit_range scores_4).
  { repeat (constructor; [split; intro E; vm_compute in E; discriminate E|]).
    constructor. }
  split; [reflexivity|]. split; [exact (le_S 2 2 (le_n 2))|]. split; [exact Hr|].
  destruct (auc_extreme_thresholds (rt:=example_runtime) scores_4 labels_1100 3
              eq_refl (le_S 2 2 (le_n 2)) Hr) as (m & Hm & Hs).
  exists m. split; [exact Hm|]. intros s Hsh.
  pose proof (Hs s Hsh) as Hx. cbv zeta in Hx.
  destruct Hx as (_ & H1 & _). exact H1.
Defined.

(** X9 at the same batch: every threshold counts the four observations. *)
Lemma auc_cells_partition_the_batch_witness :
  length labels_1100 = length scores_4 /\ (2 <= 3)%nat /\
  exists m,
    streaming_auc (rt:=example_runtime) (vector scores_4) (vector labels_1100) None 3
    = Ok m /\
    forall s, auc_shaped 3 s ->
      cells_sum (auc_after scores_4 labels_1100 3 s) 1
      = cells_sum s 1 + Qc_of_nat 4.
Proof.
  split; [reflexivity|]. split; [exact (le_S 2 2 (le_n 2))|].
  destruct (auc_cells_partition_the_batch (rt:=example_runtime)
              scores_4 labels_1100 3 eq_refl (le_S 2 2 (le_n 2)))
    as (m & Hm & Hs).
  exists m. split; [exact Hm|]. intros s Hsh.
  destruct (Hs s Hsh) as (_ & Hc). exact (Hc 1%nat (le_S 2 2 (le_n 2))).
Defined.

(** X13 at the same batch with the second position ignored. *)
Lemma auc_mask_removes_positions_witness :
  length labels_1100 = length scores_4 /\
  length mask_0100 = length scores_4 /\ (2 <= 3)%nat /\
  exists m,
    streaming_auc (rt:=example_runtime)
      (vector scores_4) (vector labels_1100) (Some (column mask_0100)) 3 = Ok m /\
    forall s, auc_shaped 3 s ->
      exists u,
        update_op m s = Some (u, auc_after_masked scores_4 labels_1100 mask_0100 3 s).
Proof.
  split; [reflexivity|]. split; [reflexivity|].
  split; [exact (le_S 2 2 (le_n 2))|].
  exact (proj1 (auc_mask_removes_positions (rt:=example_runtime)
                  scores_4 labels_1100 mask_0100 3 eq_refl eq_refl
                  (le_S 2 2 (le_n 2)))).
Defined.

(** X11 at the tensors [2,4,6] and [1,0,1]. *)
Lemma error_metrics_are_symmetric_witness :
  same_shape values_2_4_6 weights_1_0_1 = true /\
  exists mae mae',
    streaming_mean_absolute_error (rt:=example_runtime)
      (Value values_2_4_6) (Value weights_1_0_1) (@None (Node Qc)) = Ok mae /\
    streaming_mean_absolute_error (rt:=example_runtime)
      (Value weights_1_0_1) (Value values_2_4_6) (@None (Node Qc)) = Ok mae' /\
    forall s, update_op mae s = update_op mae' s.
Proof.
  split; [reflexivity|].
  destruct (error_metrics_are_symmetric (rt:=example_runtime)
              values_2_4_6 weights_1_0_1 eq_refl)
    as (mae & mae' & mse & mse' & Ha & Ha' & _ & _ & _ & _ & Hs).
  exists mae, mae'. split; [exact Ha|]. split; [exact Ha'|].
  intro s. exact (proj1 (Hs s)).
Defined.

(** X12 at two rows of two components. *)
Lemma cosine_distance_accumulates_products_witness :
  dims rows_1001 = [2; 2]%nat /\ length (elems rows_1001) = (2 * 2)%nat /\
  same_shape rows_1001 rows_1010 = true /\
  exists m,
    streaming_mean_cosine_distance (rt:=example_runtime)
      (Value rows_1001) (Value rows_1010) 1 (@None (Node Qc)) = Ok m /\
    forall s, exists u,
      update_op m s =
      Some (u, mkMeanVars
                 (total s + sum_list (map2 Qcmult (elems rows_1001) (elems rows_1010)))
                 (count s + Qc_of_nat 2)).
Proof.
  split; [reflexivity|]. split; [reflexivity|]. split; [reflexivity|].
  destruct (cosine_distance_accumulates_products (rt:=example_runtime)
              rows_1001 rows_1010 2 2 eq_refl eq_refl eq_refl) as (m & Hm & Hu & _).
  exists m. split; [exact Hm | exact Hu].
Defined.

(** X14 at predictions [2,4,6], labels [1,0,1] and the normalizer [2,4,6]. *)
Lemma relative_error_divides_by_normalizer_witness :
  same_shape values_2_4_6 weights_1_0_1 = true /\
  same_shape values_2_4_6 values_2_4_6 = true /\
  exists m,
    streaming_mean_relative_error (rt:=example_runtime)
      (Value values_2_4_6) (Value weights_1_0_1) (Value values_2_4_6)
      (@None (Node Qc)) = Ok m /\
    increments_by m
      (sum_list
         (map2 Qcdiv
            (map2 (fun y x => Qc_abs (y - x))
               (elems weights_1_0_1) (elems values_2_4_6))
            (elems values_2_4_6)))
      (Qc_of_nat 3).
Proof.
  split; [reflexivity|]. split; [reflexivity|].
  destruct (relative_error_divides_by_normalizer (rt:=example_runtime)
              values_2_4_6 weights_1_0_1 values_2_4_6 eq_refl eq_refl)
    as (m & Hm & Hi & _).
  exists m. split; [exact Hm|]. apply Hi.
  repeat (constructor; [intro E; apply (f_equal this) in E; discriminate E|]).
  constructor.
Defined.

(** X15 at predictions [2,4,6], labels [1,0,1] and the normalizer [1,1,1]. *)
Lemma relative_error_of_unit_normalizer_witness :
  same_shape values_2_4_6 weights_1_0_1 = true /\
  same_shape values_2_4_6 weights_1_1_1 = true /\
  Forall (fun x => x = Q2Qc 1) (elems weights_1_1_1) /\
  exists mre mae,
    streaming_mean_relative_error (rt:=example_runtime)
      (Value values_2_4_6) (Value weights_1_0_1) (Value weights_1_1_1)
      (@None (Node Qc)) = Ok mre /\
    streaming_mean_absolute_error (rt:=example_runtime)
      (Value values_2_4_6) (Value weights_1_0_1) (@None (Node Qc)) = Ok mae /\
    forall s, update_op mre s = update_op mae s.
Proof.
  assert (H1 : Forall (fun x => x = Q2Qc 1) (elems weights_1_1_1)).
  { repeat (constructor; [apply Qc_is_canon; reflexivity|]). constructor. }
  split; [reflexivity|]. split; [reflexivity|]. split; [exact H1|].
  destruct (relative_error_of_unit_normalizer (rt:=example_runtime)
              values_2_4_6 weights_1_0_1 weights_1_1_1 eq_refl eq_refl H1)
    as (mre & mae & Hr & Ha & Hs).
  exists mre, mae. split; [exact Hr|]. split; [exact Ha|].
  intro s. exact (proj1 (Hs s)).
Defined.

(** X16 at two rows whose target class is 0 and k = 1: the first row is a
    hit, the second is not. *)
Lemma recall_at_k_skips_ignored_witness :
  in_top_k (Runtime:=example_runtime) (Value rows_1001) class_0_twice 1
  = Value hits_10 /\
  mask_fits hits_10 None /\
  exists m,
    streaming_recall_at_k (rt:=example_runtime)
      (Value rows_1001) class_0_twice 1 None = Ok m /\
    increments_by m (Qc_of_nat 1) (Qc_of_nat 2).
Proof.
  split; [reflexivity|]. split; [exact I|].
  destruct (recall_at_k_skips_ignored (rt:=example_runtime)
              (Value rows_1001) class_0_twice 1 hits_10 None eq_refl I)
    as (m & Hm & Hi & _).
  exists m. split; [exact Hm | exact Hi].
Defined.

(** X6 at the precision of predictions [1,1,0,0] against labels [1,0,1,0]
    after one update. *)
Lemma precision_and_recall_are_rates_witness :
  exists m s,
    streaming_precision (rt:=example_runtime)
      (Value predictions_1100) (Value labels_1010) None = Ok m /\
    run_updates [m] (mkPrecisionVars (Q2Qc 0) (Q2Qc 0)) = Some s /\
    exists v, value_tensor m s = Some (v, s) /\ is_rate v.
Proof.
  eexists. eexists. split; [reflexivity|]. split; [reflexivity|].
  eapply (proj1 (precision_and_recall_are_rates (rt:=example_runtime))).
  - apply Forall_cons; [|apply Forall_nil].
    exact (@pr_precision example_runtime Z _ (Value predictions_1100)
             (Value labels_1010) None _ eq_refl).
  - exact (@pr_precision example_runtime Z _ (Value predictions_1100)
             (Value labels_1010) None _ eq_refl).
  - reflexivity.
Defined.

(** X7 at four scores and their labels. *)
Lemma auc_rejects_a_single_threshold_witness :
  length labels_1100 = length scores_4 /\
  streaming_auc (rt:=example_runtime) (vector scores_4) (vector labels_1100) None 1
  = IndexError.
Proof.
  split; [reflexivity|].
  exact (proj2 (auc_rejects_a_single_threshold (rt:=example_runtime))
           Z _ scores_4 labels_1100 eq_refl).
Defined.

(** X10 at values of shape [3] and weights of shape [2]. *)
Lemma known_shape_mismatch_raises_witness :
  known_mismatch values_2_4_6 shape_2 /\
  streaming_mean (rt:=example_runtime)
    (Value values_2_4_6) (Some (Value shape_2)) = ValueError.
Proof.
  assert (Hk : known_mismatch values_2_4_6 shape_2).
  { split; [reflexivity|]. split; [reflexivity|]. split; [reflexivity|].
    intro E. discriminate E. }
  split; [exact Hk|].
  exact (proj1 (known_shape_mismatch_raises (rt:=example_runtime))
           Qc Z _ _ values_2_4_6 shape_2 Hk).
Defined.
